(** * reSpeaker XVF3800 diagnostic application: audio capture, ring
      histories, analysis views and playback

    A shallow embedding of the audio half of
    [reSpeaker_XVF3800_Diagnostic_App.py] (class [XVF3800DiagnosticApp]):
    the two [deque(maxlen=...)] histories, the three analysis plots, the
    device negotiation of [start_listening] / [start_recording], the
    playback thread and the Tk timer chain of [update_visualization].

    Conventions.
    - A sample is a [Z] in the range of [np.int16]; arithmetic that NumPy
      performs in [int16] is written with its wrap-around ([wrap16]).
    - [np.float64] values are Rocq's primitive binary64 floats, so
      [np.sqrt], float division, infinities and NaN are the IEEE ones.
    - [self] is the record [App]; PortAudio, the Tk event loop, the message
      boxes and the playback thread are the record [Env] carried in it.
    - Wall-clock time ([time.time()]) is passed in as an argument.
    - The Tk variables [sample_rate_var] and [channels_var] hold the
      integers that [int(var.get())] reads from them.
    - Whether PortAudio opens a stream depends on the device, the
      direction, the rate and the channel count, not on the streams that
      are already open.
    - A function that runs on the main thread is one step.  The playback
      thread is a small step machine ([thread_step]) whose steps can be
      interleaved with those of the main thread ([run]); one playback
      thread is tracked.
    - Logging is left out. *)

From Stdlib Require Import ZArith List Lia Bool Arith.
From Stdlib Require String.
Import String.StringSyntax.
Delimit Scope string_scope with string.
From Stdlib Require Import Uint63 PrimFloat.
Import ListNotations.

Set Implicit Arguments.

(* ================================================================== *)
(** ** NumPy fragments *)

Module Np.

Local Open Scope Z_scope.

(** Two's-complement reduction to [np.int16]. *)
Definition wrap16 (z : Z) : Z := (z + 32768) mod 65536 - 32768.

(** Conversion of a Python/NumPy integer to [np.float64].  Exact below
    2^53 in magnitude, which covers every index and every sum of at most
    50,000 [int16] values that the program forms. *)
Definition float_of_Z (z : Z) : float :=
  if z <? 0 then PrimFloat.opp (PrimFloat.of_uint63 (Uint63.of_Z (- z)))
  else PrimFloat.of_uint63 (Uint63.of_Z z).

(** [np.square] on an array whose dtype is [int16]: the result dtype is
    [int16] as well, each product reduced modulo 2^16. *)
Definition square (a : list Z) : list Z := map (fun x => wrap16 (x * x)) a.

Definition sum (a : list Z) : Z := fold_right Z.add 0 a.

(** [np.mean] of an integer array: the elements are accumulated in
    [float64] (exactly, for these sizes) and divided by the count. *)
Definition mean (a : list Z) : float :=
  PrimFloat.div (float_of_Z (sum a)) (float_of_Z (Z.of_nat (length a))).

Definition sqrt (x : float) : float := PrimFloat.sqrt x.

(** [np.arange(n)] *)
Definition arange (n : nat) : list Z := map Z.of_nat (seq 0 n).

(** [ndarray.tobytes()] of an [int16] array on a little-endian host:
    two bytes per sample, low byte first. *)
Definition tobytes (a : list Z) : list Z :=
  flat_map (fun x => [x mod 256; (x mod 65536) / 256]) a.

End Np.

(* ================================================================== *)
(** ** Python sequences *)

Module Py.

Section Seq.
Variable A : Type.

(** [l[-n:]] for [n > 0]: the last [n] elements. *)
Definition last_n (n : nat) (l : list A) : list A :=
  skipn (length l - n) l.

(** [l[i:j]] for [0 <= i <= j]. *)
Definition slice (i j : nat) (l : list A) : list A :=
  firstn (j - i) (skipn i l).

(** [l[::step]] for [step >= 1], as a walk over the list: an element is
    emitted when the countdown [c] is 0, which re-arms it to
    [step - 1]. *)
Fixpoint every (step c : nat) (l : list A) : list A :=
  match l with
  | [] => []
  | x :: r =>
      match c with
      | O => x :: every step (step - 1) r
      | S c' => every step c' r
      end
  end.

Definition slice_step (step : nat) (l : list A) : list A :=
  every step 0 l.

(** [l[k::2]] de-interleaving used for the stereo traces. *)
Definition slice_from_step (start step : nat) (l : list A) : list A :=
  every step 0 (skipn start l).
End Seq.

(** [range(start, stop, step)] for [step >= 1]. *)
Fixpoint range_fuel (fuel start stop step : nat) : list nat :=
  match fuel with
  | O => []
  | S f =>
      if start <? stop
      then start :: range_fuel f (start + step) stop step
      else []
  end.

Definition range (start stop step : nat) : list nat :=
  range_fuel (stop - start) start stop step.

End Py.

(* ================================================================== *)
(** ** [collections.deque(maxlen=n)] *)

Module Deque.

Record t (A : Type) : Type := mk { maxlen : nat; items : list A }.

Arguments mk {A} _ _.
Arguments maxlen {A} _.
Arguments items {A} _.

Section Ops.
Variable A : Type.

Definition empty (n : nat) : t A := mk n [].

(** [append]: the element goes in on the right and, when that makes
    the deque longer than [maxlen], one element is dropped on the
    left. *)
Definition append (x : A) (d : t A) : t A :=
  let l := items d ++ [x] in
  mk (maxlen d) (if maxlen d <? length l then tl l else l).

(** [extend]: [append] for each element, left to right. *)
Definition extend (d : t A) (xs : list A) : t A :=
  fold_left (fun acc x => append x acc) xs d.

Definition clear (d : t A) : t A := mk (maxlen d) [].

Definition len (d : t A) : nat := length (items d).

(** The class invariant of a bounded deque. *)
Definition wf (d : t A) : Prop := length (items d) <= maxlen d.
End Ops.

End Deque.

(* ================================================================== *)
(** ** Analysis views (pure parts of the three plot functions) *)

Module Analysis.

Import Np.

(** Display budget of the pattern view and window of the envelope. *)
Definition display_budget : nat := Z.to_nat 10000.
Definition window_size : nat := 1000.

(** The body of [_plot_time_pattern] between the length check and the
    [plot] call: the two series handed to [waveform_ax2.plot]. *)
Definition time_pattern (pattern_data : list Z) (sample_rate : Z)
  : list float * list Z :=
  let time_axis :=
    map (fun i => PrimFloat.div (float_of_Z i) (float_of_Z sample_rate))
        (arange (length pattern_data)) in
  if display_budget <? length pattern_data then
    let step := length pattern_data / display_budget in
    (Py.slice_step step time_axis, Py.slice_step step pattern_data)
  else (time_axis, pattern_data).

(** [time_axis[-1] > 10] followed by [int(max_time)]: the conversion
    raises [OverflowError] on an infinite value. *)
Definition markers_raise (time_axis : list float) : bool :=
  match rev time_axis with
  | [] => false
  | max_time :: _ =>
      PrimFloat.ltb (float_of_Z 10) max_time
      && PrimFloat.eqb max_time PrimFloat.infinity
  end.

(** [np.sqrt(np.mean(np.square(window)))].  [window] is a Python list of
    [np.int16] scalars (the deque was filled from an [int16] array), so
    [np.square] works, and wraps, in [int16]. *)
Definition rms (window : list Z) : float := sqrt (mean (square window)).

(** The loop of [_plot_amplitude_envelope]: one [(time, rms)] point per
    window of [window_size] samples.  [i / sample_rate] is Python's true
    division and raises [ZeroDivisionError] for a zero rate: [None]. *)
Definition envelope_points (pattern_data : list Z) (sample_rate : Z)
  : option (list float * list float) :=
  let starts := Py.range 0 (length pattern_data) window_size in
  let windows :=
    filter (fun iw => 0 <? length (snd iw))
           (map (fun i => (i, Py.slice i (i + window_size) pattern_data))
                starts) in
  match windows with
  | [] => Some ([], [])
  | _ :: _ =>
      if (sample_rate =? 0)%Z then None
      else
        Some (map (fun iw => PrimFloat.div (float_of_Z (Z.of_nat (fst iw)))
                                           (float_of_Z sample_rate))
                  windows,
              map (fun iw => rms (snd iw)) windows)
  end.

End Analysis.

(* ================================================================== *)
(** ** PyAudio / PortAudio as seen by the application *)

Module Pa.

Inductive direction : Type := Input | Output.

(** One row of PortAudio's device table.  [defaultSampleRate] is the
    value after the program's [int(...)] conversion.  [accepts] is
    whether [Pa_OpenStream] succeeds on this device for a direction,
    rate and channel count: the declared capabilities do not decide
    that, which is why the program probes. *)
Record DeviceInfo : Type := {
  name : String.string;
  maxInputChannels : Z;
  defaultSampleRate : Z;
  accepts : direction -> Z -> Z -> bool
}.

(** An open stream. [owner] is the [PyAudio] instance that opened it. *)
Record Stream : Type := {
  handle : nat;
  owner : nat;
  dir : direction;
  device : nat;
  rate : Z;
  channels : Z;
  has_callback : bool
}.

(** One call of [PyAudio.open], kept in call order. *)
Record OpenAttempt : Type := {
  at_dir : direction;
  at_device : nat;
  at_rate : Z;
  at_channels : Z
}.

End Pa.

(** Callbacks handed to [root.after]. *)
Inductive Callback : Type :=
| CbUpdateVisualization
| CbUpdateRecordingDuration
| CbPlaybackFinished.

(** [messagebox.showerror] / [showwarning] calls, by message. *)
Inductive Dialog : Type :=
| ErrNoDeviceSelected
| ErrFailedToStartListening
| ErrFailedToStartRecording
| WarnNoAudioToPlayBack
| ErrFailedToStartPlayback.

(** Texts of [audio_status_var]. *)
Inductive AudioStatus : Type :=
| StReady
| StListeningFrom (device_name : String.string)
| StRecordingFrom (device_name : String.string)
| StRecordingStopped
| StPlaying
| StPlaybackStopped
| StPlaybackFinished.

(** Program counter of the thread running [_playback_thread]. *)
Inductive ThreadPc : Type :=
| ThNone
| ThStart
| ThLoop (audio_bytes : list Z) (i : nat)
| ThWrite (audio_bytes : list Z) (i : nat)
| ThDone.

(** Everything outside [self]. *)
Record Env : Type := {
  devices : list Pa.DeviceInfo;
  default_output : option nat;
  streams : list Pa.Stream;
  next_handle : nat;
  next_instance : nat;
  open_log : list Pa.OpenAttempt;
  played : list (nat * list Z);
  after_queue : list Callback;
  dialogs : list Dialog;
  thread : ThreadPc
}.

(** The attributes of [XVF3800DiagnosticApp] that the audio code uses.
    Widget texts other than the audio status line are not modelled. *)
Record App : Type := {
  audio_listening : bool;
  audio_recording : bool;
  audio_playing : bool;
  audio_paused : bool;
  audio_stream : option nat;
  audio : option nat;
  audio_data_queue : list (list Z);
  audio_buffer : Deque.t Z;
  recording_start_time : option Z;
  time_pattern_buffer : Deque.t Z;
  pattern_start_time : option Z;
  selected_device_index : option nat;
  playback_stream : option nat;
  playback_audio : option nat;
  sample_rate_var : Z;
  channels_var : Z;
  audio_status_var : AudioStatus;
  record_button_enabled : bool;
  playback_button_enabled : bool;
  ax1 : list (list Z);
  ax2 : option (list float * list Z);
  ax3 : option (list float * list float);
  env : Env
}.

(* ------------------------------------------------------------------ *)
(** *** Field updates

    [set_f v r] is [r] with field [f] replaced by [v]; the lemmas of the
    section "Field updates" below check each one against the
    projections. *)

Definition set_streams (v : list Pa.Stream) (e : Env) : Env :=
  Build_Env (devices e) (default_output e) v (next_handle e)
    (next_instance e) (open_log e) (played e) (after_queue e) (dialogs e)
    (thread e).

Definition set_next_handle (v : nat) (e : Env) : Env :=
  Build_Env (devices e) (default_output e) (streams e) v (next_instance e)
    (open_log e) (played e) (after_queue e) (dialogs e) (thread e).

Definition set_next_instance (v : nat) (e : Env) : Env :=
  Build_Env (devices e) (default_output e) (streams e) (next_handle e) v
    (open_log e) (played e) (after_queue e) (dialogs e) (thread e).

Definition set_open_log (v : list Pa.OpenAttempt) (e : Env) : Env :=
  Build_Env (devices e) (default_output e) (streams e) (next_handle e)
    (next_instance e) v (played e) (after_queue e) (dialogs e) (thread e).

Definition set_played (v : list (nat * list Z)) (e : Env) : Env :=
  Build_Env (devices e) (default_output e) (streams e) (next_handle e)
    (next_instance e) (open_log e) v (after_queue e) (dialogs e) (thread e).

Definition set_after_queue (v : list Callback) (e : Env) : Env :=
  Build_Env (devices e) (default_output e) (streams e) (next_handle e)
    (next_instance e) (open_log e) (played e) v (dialogs e) (thread e).

Definition set_dialogs (v : list Dialog) (e : Env) : Env :=
  Build_Env (devices e) (default_output e) (streams e) (next_handle e)
    (next_instance e) (open_log e) (played e) (after_queue e) v (thread e).

Definition set_thread (v : ThreadPc) (e : Env) : Env :=
  Build_Env (devices e) (default_output e) (streams e) (next_handle e)
    (next_instance e) (open_log e) (played e) (after_queue e) (dialogs e) v.

Definition set_audio_listening (v : bool) (st : App) : App :=
  Build_App v (audio_recording st) (audio_playing st) (audio_paused st)
    (audio_stream st) (audio st) (audio_data_queue st) (audio_buffer st)
    (recording_start_time st) (time_pattern_buffer st)
    (pattern_start_time st) (selected_device_index st) (playback_stream st)
    (playback_audio st) (sample_rate_var st) (channels_var st)
    (audio_status_var st) (record_button_enabled st)
    (playback_button_enabled st) (ax1 st) (ax2 st) (ax3 st) (env st).

Definition set_audio_recording (v : bool) (st : App) : App :=
  Build_App (audio_listening st) v (audio_playing st) (audio_paused st)
    (audio_stream st) (audio st) (audio_data_queue st) (audio_buffer st)
    (recording_start_time st) (time_pattern_buffer st)
    (pattern_start_time st) (selected_device_index st) (playback_stream st)
    (playback_audio st) (sample_rate_var st) (channels_var st)
    (audio_status_var st) (record_button_enabled st)
    (playback_button_enabled st) (ax1 st) (ax2 st) (ax3 st) (env st).

Definition set_audio_playing (v : bool) (st : App) : App :=
  Build_App (audio_listening st) (audio_recording st) v (audio_paused st)
    (audio_stream st) (audio st) (audio_data_queue st) (audio_buffer st)
    (recording_start_time st) (time_pattern_buffer st)
    (pattern_start_time st) (selected_device_index st) (playback_stream st)
    (playback_audio st) (sample_rate_var st) (channels_var st)
    (audio_status_var st) (record_button_enabled st)
    (playback_button_enabled st) (ax1 st) (ax2 st) (ax3 st) (env st).

Definition set_audio_stream (v : option nat) (st : App) : App :=
  Build_App (audio_listening st) (audio_recording st) (audio_playing st)
    (audio_paused st) v (audio st) (audio_data_queue st) (audio_buffer st)
    (recording_start_time st) (time_pattern_buffer st)
    (pattern_start_time st) (selected_device_index st) (playback_stream st)
    (playback_audio st) (sample_rate_var st) (channels_var st)
    (audio_status_var st) (record_button_enabled st)
    (playback_button_enabled st) (ax1 st) (ax2 st) (ax3 st) (env st).

Definition set_audio (v : option nat) (st : App) : App :=
  Build_App (audio_listening st) (audio_recording st) (audio_playing st)
    (audio_paused st) (audio_stream st) v (audio_data_queue st)
    (audio_buffer st) (recording_start_time st) (time_pattern_buffer st)
    (pattern_start_time st) (selected_device_index st) (playback_stream st)
    (playback_audio st) (sample_rate_var st) (channels_var st)
    (audio_status_var st) (record_button_enabled st)
    (playback_button_enabled st) (ax1 st) (ax2 st) (ax3 st) (env st).

Definition set_audio_data_queue (v : list (list Z)) (st : App) : App :=
  Build_App (audio_listening st) (audio_recording st) (audio_playing st)
    (audio_paused st) (audio_stream st) (audio st) v (audio_buffer st)
    (recording_start_time st) (time_pattern_buffer st)
    (pattern_start_time st) (selected_device_index st) (playback_stream st)
    (playback_audio st) (sample_rate_var st) (channels_var st)
    (audio_status_var st) (record_button_enabled st)
    (playback_button_enabled st) (ax1 st) (ax2 st) (ax3 st) (env st).

Definition set_audio_buffer (v : Deque.t Z) (st : App) : App :=
  Build_App (audio_listening st) (audio_recording st) (audio_playing st)
    (audio_paused st) (audio_stream st) (audio st) (audio_data_queue st) v
    (recording_start_time st) (time_pattern_buffer st)
    (pattern_start_time st) (selected_device_index st) (playback_stream st)
    (playback_audio st) (sample_rate_var st) (channels_var st)
    (audio_status_var st) (record_button_enabled st)
    (playback_button_enabled st) (ax1 st) (ax2 st) (ax3 st) (env st).

Definition set_recording_start_time (v : option Z) (st : App) : App :=
  Build_App (audio_listening st) (audio_recording st) (audio_playing st)
    (audio_paused st) (audio_stream st) (audio st) (audio_data_queue st)
    (audio_buffer st) v (time_pattern_buffer st) (pattern_start_time st)
    (selected_device_index st) (playback_stream st) (playback_audio st)
    (sample_rate_var st) (channels_var st) (audio_status_var st)
    (record_button_enabled st) (playback_button_enabled st) (ax1 st)
    (ax2 st) (ax3 st) (env st).

Definition set_time_pattern_buffer (v : Deque.t Z) (st : App) : App :=
  Build_App (audio_listening st) (audio_recording st) (audio_playing st)
    (audio_paused st) (audio_stream st) (audio st) (audio_data_queue st)
    (audio_buffer st) (recording_start_time st) v (pattern_start_time st)
    (selected_device_index st) (playback_stream st) (playback_audio st)
    (sample_rate_var st) (channels_var st) (audio_status_var st)
    (record_button_enabled st) (playback_button_enabled st) (ax1 st)
    (ax2 st) (ax3 st) (env st).

Definition set_pattern_start_time (v : option Z) (st : App) : App :=
  Build_App (audio_listening st) (audio_recording st) (audio_playing st)
    (audio_paused st) (audio_stream st) (audio st) (audio_data_queue st)
    (audio_buffer st) (recording_start_time st) (time_pattern_buffer st) v
    (selected_device_index st) (playback_stream st) (playback_audio st)
    (sample_rate_var st) (channels_var st) (audio_status_var st)
    (record_button_enabled st) (playback_button_enabled st) (ax1 st)
    (ax2 st) (ax3 st) (env st).

Definition set_selected_device_index (v : option nat) (st : App) : App :=
  Build_App (audio_listening st) (audio_recording st) (audio_playing st)
    (audio_paused st) (audio_stream st) (audio st) (audio_data_queue st)
    (audio_buffer st) (recording_start_time st) (time_pattern_buffer st)
    (pattern_start_time st) v (playback_stream st) (playback_audio st)
    (sample_rate_var st) (channels_var st) (audio_status_var st)
    (record_button_enabled st) (playback_button_enabled st) (ax1 st)
    (ax2 st) (ax3 st) (env st).

Definition set_playback_stream (v : option nat) (st : App) : App :=
  Build_App (audio_listening st) (audio_recording st) (audio_playing st)
    (audio_paused st) (audio_stream st) (audio st) (audio_data_queue st)
    (audio_buffer st) (recording_start_time st) (time_pattern_buffer st)
    (pattern_start_time st) (selected_device_index st) v (playback_audio st)
    (sample_rate_var st) (channels_var st) (audio_status_var st)
    (record_button_enabled st) (playback_button_enabled st) (ax1 st)
    (ax2 st) (ax3 st) (env st).

Definition set_playback_audio (v : option nat) (st : App) : App :=
  Build_App (audio_listening st) (audio_recording st) (audio_playing st)
    (audio_paused st) (audio_stream st) (audio st) (audio_data_queue st)
    (audio_buffer st) (recording_start_time st) (time_pattern_buffer st)
    (pattern_start_time st) (selected_device_index st) (playback_stream st)
    v (sample_rate_var st) (channels_var st) (audio_status_var st)
    (record_button_enabled st) (playback_button_enabled st) (ax1 st)
    (ax2 st) (ax3 st) (env st).

Definition set_sample_rate_var (v : Z) (st : App) : App :=
  Build_App (audio_listening st) (audio_recording st) (audio_playing st)
    (audio_paused st) (audio_stream st) (audio st) (audio_data_queue st)
    (audio_buffer st) (recording_start_time st) (time_pattern_buffer st)
    (pattern_start_time st) (selected_device_index st) (playback_stream st)
    (playback_audio st) v (channels_var st) (audio_status_var st)
    (record_button_enabled st) (playback_button_enabled st) (ax1 st)
    (ax2 st) (ax3 st) (env st).

Definition set_channels_var (v : Z) (st : App) : App :=
  Build_App (audio_listening st) (audio_recording st) (audio_playing st)
    (audio_paused st) (audio_stream st) (audio st) (audio_data_queue st)
    (audio_buffer st) (recording_start_time st) (time_pattern_buffer st)
    (pattern_start_time st) (selected_device_index st) (playback_stream st)
    (playback_audio st) (sample_rate_var st) v (audio_status_var st)
    (record_button_enabled st) (playback_button_enabled st) (ax1 st)
    (ax2 st) (ax3 st) (env st).

Definition set_audio_status_var (v : AudioStatus) (st : App) : App :=
  Build_App (audio_listening st) (audio_recording st) (audio_playing st)
    (audio_paused st) (audio_stream st) (audio st) (audio_data_queue st)
    (audio_buffer st) (recording_start_time st) (time_pattern_buffer st)
    (pattern_start_time st) (selected_device_index st) (playback_stream st)
    (playback_audio st) (sample_rate_var st) (channels_var st) v
    (record_button_enabled st) (playback_button_enabled st) (ax1 st)
    (ax2 st) (ax3 st) (env st).

Definition set_record_button_enabled (v : bool) (st : App) : App :=
  Build_App (audio_listening st) (audio_recording st) (audio_playing st)
    (audio_paused st) (audio_stream st) (audio st) (audio_data_queue st)
    (audio_buffer st) (recording_start_time st) (time_pattern_buffer st)
    (pattern_start_time st) (selected_device_index st) (playback_stream st)
    (playback_audio st) (sample_rate_var st) (channels_var st)
    (audio_status_var st) v (playback_button_enabled st) (ax1 st) (ax2 st)
    (ax3 st) (env st).

Definition set_playback_button_enabled (v : bool) (st : App) : App :=
  Build_App (audio_listening st) (audio_recording st) (audio_playing st)
    (audio_paused st) (audio_stream st) (audio st) (audio_data_queue st)
    (audio_buffer st) (recording_start_time st) (time_pattern_buffer st)
    (pattern_start_time st) (selected_device_index st) (playback_stream st)
    (playback_audio st) (sample_rate_var st) (channels_var st)
    (audio_status_var st) (record_button_enabled st) v (ax1 st) (ax2 st)
    (ax3 st) (env st).

Definition set_ax1 (v : list (list Z)) (st : App) : App :=
  Build_App (audio_listening st) (audio_recording st) (audio_playing st)
    (audio_paused st) (audio_stream st) (audio st) (audio_data_queue st)
    (audio_buffer st) (recording_start_time st) (time_pattern_buffer st)
    (pattern_start_time st) (selected_device_index st) (playback_stream st)
    (playback_audio st) (sample_rate_var st) (channels_var st)
    (audio_status_var st) (record_button_enabled st)
    (playback_button_enabled st) v (ax2 st) (ax3 st) (env st).

Definition set_ax2 (v : option (list float * list Z)) (st : App) : App :=
  Build_App (audio_listening st) (audio_recording st) (audio_playing st)
    (audio_paused st) (audio_stream st) (audio st) (audio_data_queue st)
    (audio_buffer st) (recording_start_time st) (time_pattern_buffer st)
    (pattern_start_time st) (selected_device_index st) (playback_stream st)
    (playback_audio st) (sample_rate_var st) (channels_var st)
    (audio_status_var st) (record_button_enabled st)
    (playback_button_enabled st) (ax1 st) v (ax3 st) (env st).

Definition set_ax3 (v : option (list float * list float)) (st : App) : App :=
  Build_App (audio_listening st) (audio_recording st) (audio_playing st)
    (audio_paused st) (audio_stream st) (audio st) (audio_data_queue st)
    (audio_buffer st) (recording_start_time st) (time_pattern_buffer st)
    (pattern_start_time st) (selected_device_index st) (playback_stream st)
    (playback_audio st) (sample_rate_var st) (channels_var st)
    (audio_status_var st) (record_button_enabled st)
    (playback_button_enabled st) (ax1 st) (ax2 st) v (env st).

Definition set_env (v : Env) (st : App) : App :=
  Build_App (audio_listening st) (audio_recording st) (audio_playing st)
    (audio_paused st) (audio_stream st) (audio st) (audio_data_queue st)
    (audio_buffer st) (recording_start_time st) (time_pattern_buffer st)
    (pattern_start_time st) (selected_device_index st) (playback_stream st)
    (playback_audio st) (sample_rate_var st) (channels_var st)
    (audio_status_var st) (record_button_enabled st)
    (playback_button_enabled st) (ax1 st) (ax2 st) (ax3 st) v.

(* ================================================================== *)
(** ** The environment's operations *)

Definition upd_env (f : Env -> Env) (st : App) : App :=
  set_env (f (env st)) st.

(** [pyaudio.PyAudio()] *)
Definition pa_new (e : Env) : nat * Env :=
  (next_instance e, set_next_instance (S (next_instance e)) e).

(** [instance.open(format=paInt16, channels=, rate=, input/output=True,
    ..._device_index=, [stream_callback=])]: [None] stands for the
    exception PyAudio raises when PortAudio refuses the configuration. *)
Definition pa_open (inst : nat) (d : Pa.direction) (idx : nat)
    (rate channels : Z) (cb : bool) (e : Env) : option nat * Env :=
  let e1 :=
    set_open_log (open_log e ++ [Pa.Build_OpenAttempt d idx rate channels]) e in
  match nth_error (devices e) idx with
  | Some info =>
      if Pa.accepts info d rate channels then
        let h := next_handle e in
        (Some h,
         set_next_handle (S h)
           (set_streams
              (streams e ++ [Pa.Build_Stream h inst d idx rate channels cb])
              e1))
      else (None, e1)
  | None => (None, e1)
  end.

Definition is_open (h : nat) (e : Env) : bool :=
  existsb (fun s => Pa.handle s =? h) (streams e).

(** [stream.stop_stream(); stream.close()] *)
Definition pa_close (h : nat) (e : Env) : Env :=
  set_streams (filter (fun s => negb (Pa.handle s =? h)) (streams e)) e.

(** [instance.terminate()]: closes the streams the instance still holds. *)
Definition pa_terminate (inst : nat) (e : Env) : Env :=
  set_streams (filter (fun s => negb (Pa.owner s =? inst)) (streams e)) e.

(** [stream.write(chunk)]: [None] when the stream is not open. *)
Definition pa_write (h : nat) (chunk : list Z) (e : Env) : option Env :=
  if is_open h e then Some (set_played (played e ++ [(h, chunk)]) e)
  else None.

(** [messagebox.show...] *)
Definition show (d : Dialog) (st : App) : App :=
  upd_env (fun e => set_dialogs (dialogs e ++ [d]) e) st.

(** [self.root.after(ms, callback)] *)
Definition after (cb : Callback) (st : App) : App :=
  upd_env (fun e => set_after_queue (after_queue e ++ [cb]) e) st.

(* ================================================================== *)
(** ** The application *)

Definition short_capacity : nat := Z.to_nat 10000.
Definition long_capacity : nat := Z.to_nat 50000.

(** [__init__], with the device table the process finds.  The Tk variables
    start at ["16000"] and ["2"]; [refresh_audio_devices], run while the
    tabs are built, creates the first [PyAudio] instance. *)
Definition __init__ (devs : list Pa.DeviceInfo) (dout : option nat) : App :=
  {| audio_listening := false;
     audio_recording := false;
     audio_playing := false;
     audio_paused := false;
     audio_stream := None;
     audio := Some 0;
     audio_data_queue := [];
     audio_buffer := Deque.empty Z short_capacity;
     recording_start_time := None;
     time_pattern_buffer := Deque.empty Z long_capacity;
     pattern_start_time := None;
     selected_device_index := None;
     playback_stream := None;
     playback_audio := None;
     sample_rate_var := 16000;
     channels_var := 2;
     audio_status_var := StReady;
     record_button_enabled := false;
     playback_button_enabled := false;
     ax1 := [];
     ax2 := None;
     ax3 := None;
     env := {| devices := devs;
               default_output := dout;
               streams := [];
               next_handle := 0;
               next_instance := 1;
               open_log := [];
               played := [];
               after_queue := [];
               dialogs := [];
               thread := ThNone |} |}.

(** The effect of [on_device_selected] (or of the automatic selection in
    [refresh_audio_devices]) on [selected_device_index]. *)
Definition on_device_selected (idx : nat) (st : App) : App :=
  Build_App (audio_listening st) (audio_recording st) (audio_playing st)
    (audio_paused st) (audio_stream st) (audio st) (audio_data_queue st)
    (audio_buffer st) (recording_start_time st) (time_pattern_buffer st)
    (pattern_start_time st) (Some idx) (playback_stream st)
    (playback_audio st) (sample_rate_var st) (channels_var st)
    (audio_status_var st) (record_button_enabled st)
    (playback_button_enabled st) (ax1 st) (ax2 st) (ax3 st) (env st).

(* ------------------------------------------------------------------ *)
(** *** Capture callback *)

(** [audio_callback], with [in_data] already decoded by
    [np.frombuffer(in_data, dtype=np.int16)]. *)
Definition audio_callback (in_data : list Z) (now : Z) (st : App) : App :=
  if audio_recording st || audio_listening st then
    let st1 := set_audio_data_queue (audio_data_queue st ++ [in_data]) st in
    let st2 :=
      set_time_pattern_buffer
        (Deque.extend (time_pattern_buffer st1) in_data) st1 in
    match pattern_start_time st2 with
    | None => set_pattern_start_time (Some now) st2
    | Some _ => st2
    end
  else st.

(* ------------------------------------------------------------------ *)
(** *** Plots *)

Definition _plot_realtime_waveform (recent_data : list Z) (channels : Z)
    (st : App) : App :=
  if (channels =? 1)%Z then set_ax1 [recent_data] st
  else if 2 <=? length recent_data then
    let left_channel := Py.slice_step 2 recent_data in
    let right_channel := Py.slice_from_step 1 2 recent_data in
    let min_len := Nat.min (length left_channel) (length right_channel) in
    set_ax1 [firstn min_len left_channel; firstn min_len right_channel] st
  else set_ax1 [recent_data] st.

(** The plot functions below return whether they raised, next to the
    state they leave: [update_visualization] catches the exception. *)
Definition _plot_time_pattern (st : App) : bool * App :=
  let st1 := set_ax2 None st in
  let pattern_data := Deque.items (time_pattern_buffer st1) in
  if length pattern_data <? 100 then (false, st1)
  else
    let '(time_axis, shown) :=
      Analysis.time_pattern pattern_data (sample_rate_var st1) in
    (Analysis.markers_raise time_axis, set_ax2 (Some (time_axis, shown)) st1).

Definition _plot_amplitude_envelope (st : App) : bool * App :=
  let st1 := set_ax3 None st in
  let pattern_data := Deque.items (time_pattern_buffer st1) in
  if length pattern_data <? 100 then (false, st1)
  else
    match Analysis.envelope_points pattern_data (sample_rate_var st1) with
    | None => (true, st1)
    | Some (time_points, envelope) =>
        if 1 <? length envelope
        then (false, set_ax3 (Some (time_points, envelope)) st1)
        else (false, st1)
    end.

(* ------------------------------------------------------------------ *)
(** *** Render tick *)

(** The [while not self.audio_data_queue.empty()] loop: every queued frame
    goes into [audio_buffer]; the last one read stays in [audio_data]. *)
Definition drain_queue (st : App) : option (list Z) * App :=
  let frames := audio_data_queue st in
  let buf := fold_left (fun b f => Deque.extend b f) frames (audio_buffer st) in
  (last (map Some frames) None,
   set_audio_buffer buf (set_audio_data_queue [] st)).

(** The three panels, in order; an exception in one skips the rest. *)
Definition update_panels (st : App) : App :=
  let channels := channels_var st in
  let recent_data := Py.last_n 2000 (Deque.items (audio_buffer st)) in
  let st1 := _plot_realtime_waveform recent_data channels st in
  let '(raised2, st2) :=
    if 1000 <? Deque.len (time_pattern_buffer st1)
    then _plot_time_pattern st1 else (false, st1) in
  if raised2 then st2
  else
    if 100 <? Deque.len (time_pattern_buffer st2)
    then snd (_plot_amplitude_envelope st2) else st2.

(** The condition both [if] statements of [update_visualization] test. *)
Definition capture_active (st : App) : bool :=
  audio_recording st || audio_listening st.

Definition update_visualization (st : App) : App :=
  if negb (audio_recording st || audio_listening st) then st
  else
    let '(audio_data, st1) := drain_queue st in
    let st2 :=
      match audio_data with
      | Some frame =>
          if (0 <? length frame) && (100 <? Deque.len (audio_buffer st1))
          then update_panels st1 else st1
      | None => st1
      end in
    if audio_recording st2 || audio_listening st2
    then after CbUpdateVisualization st2
    else st2.

(** [update_recording_duration]; the duration text is not modelled. *)
Definition update_recording_duration (st : App) : App :=
  match recording_start_time st with
  | Some _ =>
      if audio_recording st && negb (audio_paused st)
      then after CbUpdateRecordingDuration st
      else st
  | None => st
  end.

(* ------------------------------------------------------------------ *)
(** *** Device negotiation *)

(** A test stream: opened without callback and closed at once. *)
Definition probe (inst idx : nat) (rate channels : Z) (e : Env) : bool * Env :=
  match pa_open inst Pa.Input idx rate channels false e with
  | (Some h, e1) => (true, pa_close h e1)
  | (None, e1) => (false, e1)
  end.

Definition fallback_rates : list Z := [44100; 48000; 16000; 8000]%Z.

(** The [for fallback_rate in [...]] loop with its [break] and [continue].
    The local variables [sample_rate] and [channels] are threaded through
    and returned as they stand when the loop is left. *)
Fixpoint fallback_loop (inst idx : nat) (rates : list Z)
    (sample_rate channels : Z) (st : App) : Z * Z * App :=
  match rates with
  | [] => (sample_rate, channels, st)
  | fallback_rate :: rest =>
      match probe inst idx fallback_rate 1 (env st) with
      | (true, e1) =>
          (fallback_rate, 1%Z,
           set_channels_var 1 (set_sample_rate_var fallback_rate (set_env e1 st)))
      | (false, e1) =>
          fallback_loop inst idx rest sample_rate channels (set_env e1 st)
      end
  end.

(** The nested [try] blocks that [start_listening] and [start_recording]
    both run between reading the Tk variables and opening the capture
    stream.  Returns the locals [sample_rate] and [channels]. *)
Definition negotiate (inst idx : nat) (device_info : Pa.DeviceInfo)
    (st : App) : Z * Z * App :=
  let sample_rate := sample_rate_var st in
  let channels := channels_var st in
  match probe inst idx sample_rate channels (env st) with
  | (true, e1) => (sample_rate, channels, set_env e1 st)
  | (false, e1) =>
      let sample_rate := Pa.defaultSampleRate device_info in
      let channels := Z.min (Pa.maxInputChannels device_info) 2 in
      let st1 :=
        set_channels_var channels (set_sample_rate_var sample_rate (set_env e1 st)) in
      match probe inst idx sample_rate channels (env st1) with
      | (true, e2) => (sample_rate, channels, set_env e2 st1)
      | (false, e2) =>
          fallback_loop inst idx fallback_rates sample_rate channels
            (set_env e2 st1)
      end
  end.

(* ------------------------------------------------------------------ *)
(** *** Listening and recording *)

Definition start_listening (st : App) : App :=
  let '(inst, e0) := pa_new (env st) in
  let st0 := set_audio (Some inst) (set_env e0 st) in
  match selected_device_index st0 with
  | None => show ErrNoDeviceSelected st0
  | Some device_index =>
      match nth_error (devices (env st0)) device_index with
      | None => show ErrFailedToStartListening st0
      | Some device_info =>
          let '(sample_rate, channels, st1) :=
            negotiate inst device_index device_info st0 in
          match pa_open inst Pa.Input device_index sample_rate channels true
                        (env st1) with
          | (None, e2) => show ErrFailedToStartListening (set_env e2 st1)
          | (Some h, e2) =>
              let st2 := set_audio_stream (Some h) (set_env e2 st1) in
              let st3 := set_audio_listening true st2 in
              let st4 := set_record_button_enabled true st3 in
              let st5 :=
                set_audio_status_var
                  (StListeningFrom (Pa.name device_info)) st4 in
              update_visualization st5
          end
      end
  end.

Definition stop_listening (st : App) : App :=
  let st1 :=
    match audio_stream st with
    | Some h => set_audio_stream None (upd_env (pa_close h) st)
    | None => st
    end in
  let st2 :=
    match audio st1 with
    | Some inst => upd_env (pa_terminate inst) st1
    | None => st1
    end in
  let st3 := set_audio_listening false st2 in
  let st4 := set_record_button_enabled false st3 in
  let st5 := set_audio_status_var StReady st4 in
  let st6 :=
    set_time_pattern_buffer (Deque.clear (time_pattern_buffer st5)) st5 in
  set_pattern_start_time None st6.

Definition start_recording (now : Z) (st : App) : App :=
  let '(inst, e0) := pa_new (env st) in
  let st0 := set_audio (Some inst) (set_env e0 st) in
  match selected_device_index st0 with
  | None => show ErrNoDeviceSelected st0
  | Some device_index =>
      match nth_error (devices (env st0)) device_index with
      | None => show ErrFailedToStartRecording st0
      | Some device_info =>
          let '(sample_rate, channels, st1) :=
            negotiate inst device_index device_info st0 in
          match pa_open inst Pa.Input device_index sample_rate channels true
                        (env st1) with
          | (None, e2) => show ErrFailedToStartRecording (set_env e2 st1)
          | (Some h, e2) =>
              let st2 := set_audio_stream (Some h) (set_env e2 st1) in
              let st3 := set_audio_recording true st2 in
              let st4 := set_recording_start_time (Some now) st3 in
              let st5 :=
                set_audio_status_var
                  (StRecordingFrom (Pa.name device_info)) st4 in
              let st6 := update_recording_duration st5 in
              update_visualization st6
          end
      end
  end.

Definition stop_recording (st : App) : App :=
  let st1 :=
    match audio_stream st with
    | Some h => set_audio_stream None (upd_env (pa_close h) st)
    | None => st
    end in
  let st2 :=
    match audio st1 with
    | Some inst => upd_env (pa_terminate inst) st1
    | None => st1
    end in
  let st3 := set_audio_recording false st2 in
  let st4 := set_recording_start_time None st3 in
  let st5 := set_record_button_enabled false st4 in
  let st6 := set_audio_status_var StRecordingStopped st5 in
  if 0 <? Deque.len (audio_buffer st6)
  then set_playback_button_enabled true st6
  else st6.

Definition toggle_listening (st : App) : App :=
  if audio_listening st then stop_listening st else start_listening st.

Definition toggle_recording (now : Z) (st : App) : App :=
  if negb (audio_recording st) then start_recording now st
  else stop_recording st.

(** A click reaches the button's command only while the button is
    enabled; the LISTEN button always is. *)
Definition click_listen (st : App) : App := toggle_listening st.

Definition click_record (now : Z) (st : App) : App :=
  if record_button_enabled st then toggle_recording now st else st.

(* ------------------------------------------------------------------ *)
(** *** Playback *)

Definition chunk_size : nat := 1024.

(** The source starts the thread two statements before it sets
    [audio_playing]; here both happen within the one step. *)
Definition start_playback (st : App) : App :=
  if Deque.len (audio_buffer st) =? 0 then show WarnNoAudioToPlayBack st
  else
    let '(inst, e0) := pa_new (env st) in
    let st0 := set_playback_audio (Some inst) (set_env e0 st) in
    match default_output (env st0) with
    | None => show ErrFailedToStartPlayback st0
    | Some output_index =>
        match pa_open inst Pa.Output output_index 16000 1 false (env st0) with
        | (None, e1) => show ErrFailedToStartPlayback (set_env e1 st0)
        | (Some h, e1) =>
            let st1 := set_playback_stream (Some h) (set_env e1 st0) in
            let st2 := upd_env (set_thread ThStart) st1 in
            let st3 := set_audio_playing true st2 in
            set_audio_status_var StPlaying st3
        end
    end.

Definition stop_playback (st : App) : App :=
  let st1 := set_audio_playing false st in
  let st2 :=
    match playback_stream st1 with
    | Some h => set_playback_stream None (upd_env (pa_close h) st1)
    | None => st1
    end in
  let st3 :=
    match playback_audio st2 with
    | Some inst => set_playback_audio None (upd_env (pa_terminate inst) st2)
    | None => st2
    end in
  set_audio_status_var StPlaybackStopped st3.

Definition toggle_playback (st : App) : App :=
  if audio_playing st then stop_playback st else start_playback st.

Definition click_playback (st : App) : App :=
  if playback_button_enabled st then toggle_playback st else st.

Definition _playback_finished (st : App) : App :=
  set_audio_status_var StPlaybackFinished (set_audio_playing false st).

(** Both ways out of [_playback_thread] (loop left, or exception caught)
    end in [self.root.after(0, self._playback_finished)]. *)
Definition thread_exit (st : App) : App :=
  after CbPlaybackFinished (upd_env (set_thread ThDone) st).

(** One step of the thread that runs [_playback_thread].  The steps are
    the points at which the main thread can be scheduled in between:
    - [ThStart]: the buffer is copied and serialised;
    - [ThLoop b i]: the [for] header and the [if not self.audio_playing]
      test for offset [i];
    - [ThWrite b i]: the slice and the [write] for offset [i]. *)
Definition thread_step (st : App) : App :=
  match thread (env st) with
  | ThNone | ThDone => st
  | ThStart =>
      let audio_bytes := Np.tobytes (Deque.items (audio_buffer st)) in
      upd_env (set_thread (ThLoop audio_bytes 0)) st
  | ThLoop audio_bytes i =>
      if i <? length audio_bytes then
        if negb (audio_playing st) then thread_exit st
        else upd_env (set_thread (ThWrite audio_bytes i)) st
      else thread_exit st
  | ThWrite audio_bytes i =>
      let chunk := Py.slice i (i + chunk_size * 2) audio_bytes in
      let next := ThLoop audio_bytes (i + chunk_size * 2) in
      if 0 <? length chunk then
        match playback_stream st with
        | Some h =>
            match pa_write h chunk (env st) with
            | Some e1 => upd_env (set_thread next) (set_env e1 st)
            | None => thread_exit st
            end
        | None => thread_exit st
        end
      else upd_env (set_thread next) st
  end.

(* ------------------------------------------------------------------ *)
(** *** Export *)

(** The file [save_recording] writes through [wave.open(filename, 'wb')]. *)
Record WavFile : Type := {
  nchannels : Z;
  sampwidth : Z;
  framerate : Z;
  frames : list Z
}.

(** [save_recording], reduced to the file it writes.  [filename] is what
    [asksaveasfilename] returned; [if filename:] takes the empty string,
    which Tk returns when the dialog is cancelled, as no name, and so
    does any other false value ([None] here).  Nothing is written for
    an empty buffer either.  The message boxes and the status line are
    left out. *)
Definition save_recording (filename : option String.string) (st : App)
  : option WavFile :=
  if Deque.len (audio_buffer st) =? 0 then None
  else
    match filename with
    | Some (String.String _ _) =>
        Some {| nchannels := channels_var st;
                sampwidth := 2;
                framerate := sample_rate_var st;
                frames := Np.tobytes (Deque.items (audio_buffer st)) |}
    | Some String.EmptyString => None
    | None => None
    end.

(* ------------------------------------------------------------------ *)
(** *** Tk event loop *)

Definition run_callback (cb : Callback) (st : App) : App :=
  match cb with
  | CbUpdateVisualization => update_visualization st
  | CbUpdateRecordingDuration => update_recording_duration st
  | CbPlaybackFinished => _playback_finished st
  end.

Fixpoint remove_nth (A : Type) (i : nat) (l : list A) : list A :=
  match l, i with
  | [], _ => []
  | _ :: r, O => r
  | x :: r, S j => x :: remove_nth j r
  end.

(** The main loop runs the pending callback at position [i] (timers of
    different delays may fire in any order); out of range, nothing runs. *)
Definition dispatch (i : nat) (st : App) : App :=
  match nth_error (after_queue (env st)) i with
  | Some cb =>
      run_callback cb
        (upd_env (fun e => set_after_queue (remove_nth i (after_queue e)) e) st)
  | None => st
  end.

(** The statements of [stop_playback] one by one, as the main thread
    runs them; the playback thread can be scheduled between any two.
    [stop_stream()] and [close()] make one step: a write to a stream
    that is stopped fails as one to a closed stream does. *)
Inductive StopStep : Type :=
| StopFlag
| StopClose
| StopDropStream
| StopTerminate
| StopDropInstance
| StopStatus.

Definition stop_step (s : StopStep) (st : App) : App :=
  match s with
  | StopFlag => set_audio_playing false st
  | StopClose =>
      match playback_stream st with
      | Some h => upd_env (pa_close h) st
      | None => st
      end
  | StopDropStream =>
      match playback_stream st with
      | Some _ => set_playback_stream None st
      | None => st
      end
  | StopTerminate =>
      match playback_audio st with
      | Some inst => upd_env (pa_terminate inst) st
      | None => st
      end
  | StopDropInstance =>
      match playback_audio st with
      | Some _ => set_playback_audio None st
      | None => st
      end
  | StopStatus => set_audio_status_var StPlaybackStopped st
  end.

Definition stop_steps : list StopStep :=
  [StopFlag; StopClose; StopDropStream; StopTerminate; StopDropInstance;
   StopStatus].

(** What can happen, one at a time, while a playback that was started is
    wound down: the playback thread advances, or the main loop runs a
    pending callback, or the main thread runs the next statement of
    [stop_playback]. *)
Inductive Action : Type :=
| ActThread
| ActDispatch (i : nat)
| ActStop (s : StopStep).

Definition act (a : Action) (st : App) : App :=
  match a with
  | ActThread => thread_step st
  | ActDispatch i => dispatch i st
  | ActStop s => stop_step s st
  end.

Definition run (acts : list Action) (st : App) : App :=
  fold_left (fun s a => act a s) acts st.

(** [stop_playback] on the main thread, with the playback thread
    scheduled [g1] times after the flag is cleared, [g2] times after the
    stream is closed, and so on up to the last statement. *)
Definition stop_schedule (g1 g2 g3 g4 g5 : nat) : list Action :=
  ActStop StopFlag :: repeat ActThread g1
  ++ ActStop StopClose :: repeat ActThread g2
  ++ ActStop StopDropStream :: repeat ActThread g3
  ++ ActStop StopTerminate :: repeat ActThread g4
  ++ ActStop StopDropInstance :: repeat ActThread g5
  ++ [ActStop StopStatus].

(* ================================================================== *)
(** ** Vocabulary of the statements *)

(** Ceiling of [a / b] for [b > 0]. *)
Definition ceil_div (a b : nat) : nat := (a + b - 1) / b.

(** The configurations of the negotiation in the order the description
    gives them: the requested pair, the device default, the four fixed
    rates at one channel.  (This list is written from the description;
    [negotiate] above is written from the code.) *)
Definition negotiation_candidates (info : Pa.DeviceInfo) (rate channels : Z)
  : list (Z * Z) :=
  (rate, channels)
  :: (Pa.defaultSampleRate info, Z.min (Pa.maxInputChannels info) 2)
  :: map (fun r => (r, 1%Z)) fallback_rates.

(** The candidates that get tried when each is tried in turn until one
    succeeds: the prefix up to and including the first success. *)
Fixpoint tried (A : Type) (ok : A -> bool) (l : list A) : list A :=
  match l with
  | [] => []
  | x :: r => if ok x then [x] else x :: tried ok r
  end.

Definition input_ok (info : Pa.DeviceInfo) (c : Z * Z) : bool :=
  Pa.accepts info Pa.Input (fst c) (snd c).

Definition input_attempt (idx : nat) (c : Z * Z) : Pa.OpenAttempt :=
  Pa.Build_OpenAttempt Pa.Input idx (fst c) (snd c).

(** First success wins; with no success the locals are left at the
    device default. *)
Definition settled_config (info : Pa.DeviceInfo) (rate channels : Z) : Z * Z :=
  match find (input_ok info) (negotiation_candidates info rate channels) with
  | Some c => c
  | None => (Pa.defaultSampleRate info, Z.min (Pa.maxInputChannels info) 2)
  end.

(** [e'] comes from [e] by opening and closing streams and creating
    instances only; streams of [e] with a handle already handed out are
    still open in [e']. *)
Definition keeps (e e' : Env) : Prop :=
  devices e' = devices e
  /\ default_output e' = default_output e
  /\ played e' = played e
  /\ dialogs e' = dialogs e
  /\ thread e' = thread e
  /\ next_instance e <= next_instance e'
  /\ next_handle e <= next_handle e'
  /\ forall s, In s (streams e) -> Pa.handle s < next_handle e -> In s (streams e').

(** The part of the state that the render tick and its plots never
    write. *)
Definition untouched_by_tick (st : App) :=
  (audio_listening st, audio_recording st, audio_playing st, audio_paused st,
   audio_stream st, audio st, recording_start_time st,
   time_pattern_buffer st, pattern_start_time st, selected_device_index st,
   playback_stream st, playback_audio st, sample_rate_var st, channels_var st,
   audio_status_var st, record_button_enabled st, playback_button_enabled st,
   (devices (env st), default_output (env st), streams (env st),
    next_handle (env st), next_instance (env st), open_log (env st),
    played (env st), dialogs (env st), thread (env st))).

(** Streams opened with the capture callback. *)
Definition capture_streams (e : Env) : list Pa.Stream :=
  filter (fun s => Pa.has_callback s) (streams e).

(** The chunks [_playback_thread] cuts [audio_bytes] into, in order. *)
Definition byte_chunks_from (audio_bytes : list Z) (i : nat) : list (list Z) :=
  map (fun j => Py.slice j (j + chunk_size * 2) audio_bytes)
      (Py.range i (length audio_bytes) (chunk_size * 2)).

Definition byte_chunks (audio_bytes : list Z) : list (list Z) :=
  byte_chunks_from audio_bytes 0.

(** The playback session as [stop_playback] leaves it: flag cleared,
    stream handle and [PyAudio] instance dropped. *)
Definition playback_stopped (st : App) : Prop :=
  audio_playing st = false
  /\ playback_stream st = None
  /\ playback_audio st = None.

(** Where the playback thread can be once it has entered its loop. *)
Definition in_loop (st : App) : Prop :=
  match thread (env st) with
  | ThLoop _ _ | ThDone => True
  | ThWrite b i => i < length b
  | ThNone | ThStart => False
  end.

(** [n] consecutive steps of the playback thread. *)
Definition iter_thread (n : nat) (st : App) : App :=
  run (repeat ActThread n) st.

(** The one output format [start_playback] asks for. *)
Definition playback_format (a : Pa.OpenAttempt) : Prop :=
  Pa.at_dir a = Pa.Output /\ Pa.at_rate a = 16000%Z /\ Pa.at_channels a = 1%Z.

(** [stop_playback] has cleared the flag and not yet closed the stream
    [h], which it still holds. *)
Definition flag_down (h : nat) (st : App) : Prop :=
  audio_playing st = false
  /\ playback_stream st = Some h
  /\ is_open h (env st) = true
  /\ in_loop st.

(** The thread has tested the flag for a chunk it has not written yet. *)
Definition tested (st : App) : bool :=
  match thread (env st) with ThWrite _ _ => true | _ => false end.

(** The chunk that the thread writes, if it has tested the flag for it
    and is scheduled at least once ([0 < g]) before the stream is
    closed. *)
Definition overrun (h : nat) (g : nat) (st : App) : list (nat * list Z) :=
  match thread (env st) with
  | ThWrite b i =>
      if 0 <? g then [(h, Py.slice i (i + chunk_size * 2) b)] else []
  | _ => []
  end.

(** [stop_playback] has cleared the flag and closed the stream [h]; the
    output device has received [out]. *)
Definition quiet (h : nat) (out : list (nat * list Z)) (st : App) : Prop :=
  audio_playing st = false
  /\ is_open h (env st) = false
  /\ played (env st) = out
  /\ (playback_stream st = None \/ playback_stream st = Some h)
  /\ in_loop st.

(* ------------------------------------------------------------------ *)
(** *** Concrete devices and runs used as examples *)

(** A device that takes 16 kHz input on up to two channels, and 16 kHz
    mono output. *)
Definition array_device : Pa.DeviceInfo :=
  {| Pa.name := "reSpeaker XVF3800"%string;
     Pa.maxInputChannels := 2;
     Pa.defaultSampleRate := 16000;
     Pa.accepts := fun d rate channels =>
       match d with
       | Pa.Input => (rate =? 16000)%Z && (channels <=? 2)%Z
       | Pa.Output => (rate =? 16000)%Z && (channels =? 1)%Z
       end |}.

(** A device that takes its own default (44.1 kHz mono) and nothing
    else. *)
Definition default_only_device : Pa.DeviceInfo :=
  {| Pa.name := "Microphone"%string;
     Pa.maxInputChannels := 1;
     Pa.defaultSampleRate := 44100;
     Pa.accepts := fun d rate channels =>
       match d with
       | Pa.Input => (rate =? 44100)%Z && (channels =? 1)%Z
       | Pa.Output => false
       end |}.

(** The application right after start-up with the array selected, after
    a click on LISTEN, and after a further click on RECORD. *)
Definition st_ready : App :=
  on_device_selected 0 (__init__ [array_device] (Some 0)).
Definition st_listening : App := click_listen st_ready.
Definition st_both : App := click_record 7 st_listening.

(** The driver then delivers one frame and the pending tick runs. *)
Definition st_fed : App :=
  dispatch 0 (audio_callback [3; -4; 5]%Z 100 st_both).

(** Recording and listening are stopped again; three samples are in the
    short-term buffer. *)
Definition st_clip : App := stop_listening (stop_recording st_fed).

(** A longer clip: the driver delivers 1500 samples, the tick runs, then
    recording and listening are stopped and PLAYBACK is clicked. *)
Definition st_fed_long : App :=
  dispatch 0 (audio_callback (repeat 1000%Z 1500) 100 st_both).
Definition st_long_clip : App := stop_listening (stop_recording st_fed_long).
Definition st_playing : App := click_playback st_long_clip.

(** Start-up with only the second device present and selected. *)
Definition st_default_only : App :=
  on_device_selected 0 (__init__ [default_only_device] None).

(** A long-term history holding 20,001 samples. *)
Definition st_long_pattern : App :=
  set_time_pattern_buffer
    (Deque.mk long_capacity (repeat 7%Z (Z.to_nat 20001))) st_ready.

(* ================================================================== *)
(** ** Further operations of the application *)

(** [np.frombuffer(in_data, dtype=np.int16)], the decoding in
    [audio_callback]: two bytes per sample, low byte first, two's
    complement; a buffer of odd size raises ([None]). *)
Fixpoint frombuffer (in_data : list Z) : option (list Z) :=
  match in_data with
  | [] => Some []
  | [_] => None
  | lo :: hi :: rest =>
      match frombuffer rest with
      | Some a => Some (Np.wrap16 (lo + 256 * hi) :: a)
      | None => None
      end
  end.

(** [np.abs] on [int16] data: the result is [int16] too, so the
    magnitude of -32768 wraps back to -32768. *)
Definition np_abs (a : list Z) : list Z := map (fun x => Np.wrap16 (Z.abs x)) a.

(** [np.max] of a non-empty integer array ([None] stands for the
    [ValueError] on an empty one). *)
Definition np_max (a : list Z) : option Z :=
  match a with
  | [] => None
  | x :: r => Some (fold_left Z.max r x)
  end.

(** [np.max(np.abs(audio_data))]: the "Max" figure of the info line in
    [update_visualization] and the "Max Amplitude" of
    [generate_histogram]. *)
Definition max_amplitude (audio_data : list Z) : option Z :=
  np_max (np_abs audio_data).

(** [clear_audio_data], as far as the audio state goes; the histogram
    axes it also clears are not part of [App]. *)
Definition clear_audio_data (st : App) : App :=
  set_audio_buffer (Deque.clear (audio_buffer st)) st.

(** [clear_recording]: [confirmed] is the answer to the yes/no box. *)
Definition clear_recording (confirmed : bool) (st : App) : App :=
  if confirmed then set_audio_buffer (Deque.clear (audio_buffer st)) st
  else st.

(* ------------------------------------------------------------------ *)
(** *** The Refresh button *)

(** [needle in hay] on strings. *)
Fixpoint contains (needle hay : String.string) : bool :=
  String.prefix needle hay
  || match hay with
     | String.EmptyString => false
     | String.String _ rest => contains needle rest
     end.

(** ['reSpeaker' in device or 'XVF3800' in device].  The text tested is
    the name followed by [" (Channels: n, Rate: r)"]; no match can lie
    in or reach into that suffix, which begins with a blank and has
    none of the letters [S], [p], [k], [X], so the test is one on the
    name. *)
Definition is_respeaker (info : Pa.DeviceInfo) : bool :=
  contains "reSpeaker"%string (Pa.name info)
  || contains "XVF3800"%string (Pa.name info).

(** [self.device_list]: the devices with input channels, each with its
    PortAudio index. *)
Definition device_list (e : Env) : list (nat * Pa.DeviceInfo) :=
  filter (fun d => (0 <? Pa.maxInputChannels (snd d))%Z)
         (combine (seq 0 (length (devices e))) (devices e)).

(** [refresh_audio_devices] as the class ends up defining it (the second
    definition of that name replaces the first): the current [PyAudio]
    instance is terminated and a new one created, then the first device
    that looks like the array is selected; the selection is dropped when
    there is no input device at all and kept otherwise.  PortAudio's
    enumeration is taken not to fail, so the [except] branch is left
    out. *)
Definition refresh_audio_devices (st : App) : App :=
  let st1 :=
    match audio st with
    | Some inst => upd_env (pa_terminate inst) st
    | None => st
    end in
  let '(inst, e0) := pa_new (env st1) in
  let st2 := set_audio (Some inst) (set_env e0 st1) in
  let st3 :=
    match find (fun d => is_respeaker (snd d)) (device_list (env st2)) with
    | Some d => set_selected_device_index (Some (fst d)) st2
    | None => st2
    end in
  match device_list (env st2) with
  | [] => set_selected_device_index None st3
  | _ :: _ => st3
  end.

(* ------------------------------------------------------------------ *)
(** *** What can happen to the audio state

    The controls of the audio tab and of the visualisation tab that
    write the audio state, the capture callback, the Tk timers and the
    playback thread.  [EvClearRecording] stands for [clear_recording],
    which no control is bound to. *)

Inductive Event : Type :=
| EvSelect (idx : nat)
| EvRefresh
| EvListen
| EvRecord (now : Z)
| EvPlayback
| EvFrame (in_data : list Z) (now : Z)
| EvTimer (i : nat)
| EvThread
| EvClearData
| EvClearRecording (confirmed : bool).

Definition handle_event (ev : Event) (st : App) : App :=
  match ev with
  | EvSelect idx => on_device_selected idx st
  | EvRefresh => refresh_audio_devices st
  | EvListen => click_listen st
  | EvRecord now => click_record now st
  | EvPlayback => click_playback st
  | EvFrame in_data now => audio_callback in_data now st
  | EvTimer i => dispatch i st
  | EvThread => thread_step st
  | EvClearData => clear_audio_data st
  | EvClearRecording confirmed => clear_recording confirmed st
  end.


Definition run_events (evs : list Event) (st : App) : App :=
  fold_left (fun s ev => handle_event ev s) evs st.

(** The driver calls back with the frames [frames], each with the time
    of its call, in this order. *)
Definition feed (frames : list (list Z * Z)) (st : App) : App :=
  fold_left (fun s f => audio_callback (fst f) (snd f) s) frames st.

(* ------------------------------------------------------------------ *)
(** *** The command layer *)

Module Xvf.

(** What [subprocess.run(cmd, capture_output=True, text=True, timeout=10)]
    can do. *)
Inductive Outcome : Type :=
| Completed (returncode : Z) (stdout stderr : String.string)
| TimeoutExpired
| OtherException.

(** [str.isspace] on the characters of Latin-1, to which the output text
    is restricted here. *)
Definition isspace (c : Ascii.ascii) : bool :=
  let n := Ascii.nat_of_ascii c in
  ((9 <=? n) && (n <=? 13)) || ((28 <=? n) && (n <=? 32))
  || (n =? 133) || (n =? 160).

Fixpoint lstrip (s : String.string) : String.string :=
  match s with
  | String.EmptyString => String.EmptyString
  | String.String c r => if isspace c then lstrip r else s
  end.

Fixpoint rev_string (s acc : String.string) : String.string :=
  match s with
  | String.EmptyString => acc
  | String.String c r => rev_string r (String.String c acc)
  end.

(** [str.strip()] *)
Definition strip (s : String.string) : String.string :=
  rev_string (lstrip (rev_string (lstrip s) String.EmptyString))
             String.EmptyString.

(** Truth value of an optional string as [if result:] takes it. *)
Definition truthy (r : option String.string) : bool :=
  match r with
  | Some (String.String _ _) => true
  | _ => false
  end.

(** [run_xvf_command]: [xvf_host_path] is what [find_xvf_host] returned,
    [outcome] what running the executable does. *)
Definition run_xvf_command (xvf_host_path : option String.string)
    (outcome : Outcome) : option String.string :=
  if negb (truthy xvf_host_path) then None
  else
    match outcome with
    | Completed returncode stdout _ =>
        if (returncode =? 0)%Z then Some (strip stdout) else None
    | TimeoutExpired => None
    | OtherException => None
    end.

Inductive Box : Type :=
| ErrDeviceNotConnected
| InfoConfigurationSaved
| ErrFailedToSaveConfiguration.

(** [save_configuration]: the message box it shows, and whether the
    executable was run at all. *)
Definition save_configuration (device_connected : bool)
    (xvf_host_path : option String.string) (outcome : Outcome)
    : Box * bool :=
  if negb device_connected then (ErrDeviceNotConnected, false)
  else
    let result := run_xvf_command xvf_host_path outcome in
    if truthy result then (InfoConfigurationSaved, truthy xvf_host_path)
    else (ErrFailedToSaveConfiguration, truthy xvf_host_path).

(** The first part of [check_device_connection]: the value
    [device_connected] gets from the answer to ["VERSION"]. *)
Definition check_connection (xvf_host_path : option String.string)
    (version : Outcome) : bool :=
  truthy (run_xvf_command xvf_host_path version).

End Xvf.

(* ------------------------------------------------------------------ *)
(** *** More vocabulary *)

Definition int16 (x : Z) : Prop := (-32768 <= x < 32768)%Z.

(** Pending render ticks. *)
Definition pending_ticks (q : list Callback) : nat :=
  length (filter (fun cb => match cb with CbUpdateVisualization => true | _ => false end) q).

(** The two histories have the capacities they were built with and are
    not over-full. *)
Definition histories_bounded (st : App) : Prop :=
  Deque.maxlen (audio_buffer st) = short_capacity
  /\ Deque.maxlen (time_pattern_buffer st) = long_capacity
  /\ Deque.len (audio_buffer st) <= short_capacity
  /\ Deque.len (time_pattern_buffer st) <= long_capacity.

(** Every character of [s] is white space. *)
Fixpoint blank (s : String.string) : bool :=
  match s with
  | String.EmptyString => true
  | String.String c r => Xvf.isspace c && blank r
  end.

Definition handles_fresh (e : Env) : Prop :=
  Forall (fun s => Pa.handle s < next_handle e) (streams e).

(** [e'] comes from [e] by test streams only. *)
Definition probed (e e' : Env) : Prop :=
  keeps e e'
  /\ after_queue e' = after_queue e
  /\ next_instance e' = next_instance e
  /\ (handles_fresh e -> streams e' = streams e).

(** The environment after the capture stream has been asked for with
    configuration [c] on behalf of instance [inst], and after it has
    been refused. *)
Definition capture_opened (inst idx : nat) (c : Z * Z) (e : Env) : Env :=
  set_next_handle (S (next_handle e))
    (set_streams
       (streams e
        ++ [Pa.Build_Stream (next_handle e) inst Pa.Input idx (fst c) (snd c) true])
       (set_open_log (open_log e ++ [input_attempt idx c]) e)).

Definition capture_refused (idx : nat) (c : Z * Z) (e : Env) : Env :=
  set_open_log (open_log e ++ [input_attempt idx c]) e.

(** The stream table after [stream.close()] on the handle in [h] and
    after [terminate()] on the instance in [i], when there is one. *)
Definition close_opt (h : option nat) (ss : list Pa.Stream) : list Pa.Stream :=
  match h with
  | Some n => filter (fun s => negb (Pa.handle s =? n)) ss
  | None => ss
  end.

Definition terminate_opt (i : option nat) (ss : list Pa.Stream) : list Pa.Stream :=
  match i with
  | Some n => filter (fun s => negb (Pa.owner s =? n)) ss
  | None => ss
  end.

(** The handle in [h], if any, has been handed out, and every open
    stream that has it was opened with ([cb = true]) or without the
    capture callback. *)
Definition kind_of (cb : bool) (h : option nat) (nh : nat)
    (ss : list Pa.Stream) : Prop :=
  forall n, h = Some n ->
    n < nh /\ forall s, In s ss -> Pa.handle s = n -> Pa.has_callback s = cb.

(** The handle in [h], if any, names an open stream. *)
Definition live (h : option nat) (ss : list Pa.Stream) : Prop :=
  forall n, h = Some n -> exists s, In s ss /\ Pa.handle s = n.

(** The instance in [i], if any, has been created, and the streams it
    still holds are all of the one kind. *)
Definition owns_only (cb : bool) (i : option nat) (ni : nat)
    (ss : list Pa.Stream) : Prop :=
  forall n, i = Some n ->
    n < ni /\ forall s, In s ss -> Pa.owner s = n -> Pa.has_callback s = cb.

Definition sound (ss : list Pa.Stream) (nh ni : nat)
    (a_s p_s a p : option nat) : Prop :=
  Forall (fun s => Pa.handle s < nh /\ Pa.owner s < ni) ss
  /\ kind_of true a_s nh ss
  /\ kind_of false p_s nh ss
  /\ live p_s ss
  /\ owns_only true a ni ss
  /\ owns_only false p ni ss
  /\ (forall n, a = Some n -> p <> Some n).

(** No handle or instance number is handed out twice; the capture
    session and the playback session keep to streams of their own kind,
    on instances that are distinct; the playback stream held is open. *)
Definition sessions_sound (st : App) : Prop :=
  sound (streams (env st)) (next_handle (env st)) (next_instance (env st))
        (audio_stream st) (playback_stream st) (audio st) (playback_audio st).


(** A device that lists an input but refuses every configuration, as a
    device in use by another program does; [st_busy] has it selected. *)
Definition busy_device : Pa.DeviceInfo :=
  {| Pa.name := "Line In"%string;
     Pa.maxInputChannels := 2;
     Pa.defaultSampleRate := 22050;
     Pa.accepts := fun _ _ _ => false |}.

Definition st_busy : App := run_events [EvSelect 0] (__init__ [busy_device] None).

(** The pause flag is down, and the start time of the recording is set
    exactly while the recording flag is up. *)
Definition clock_consistent (st : App) : Prop :=
  audio_paused st = false
  /\ (recording_start_time st = None <-> audio_recording st = false).

(* ================================================================== *)
(** * Properties *)

(** ** Field updates

    Each update writes its own field and, given the field's old value,
    gives the record back: so it touches nothing else. *)

Section FieldUpdates.

Ltac setter_ok :=
  intros; split;
  [ reflexivity
  | repeat match goal with
      | r : Env |- _ => destruct r
      | r : App |- _ => destruct r
      end; reflexivity ].

Lemma set_streams_ok v (e : Env) :
  streams (set_streams v e) = v /\ set_streams (streams e) e = e.
Proof. setter_ok. Qed.

Lemma set_next_handle_ok v (e : Env) :
  next_handle (set_next_handle v e) = v /\ set_next_handle (next_handle e) e = e.
Proof. setter_ok. Qed.

Lemma set_next_instance_ok v (e : Env) :
  next_instance (set_next_instance v e) = v /\ set_next_instance (next_instance e) e = e.
Proof. setter_ok. Qed.

Lemma set_open_log_ok v (e : Env) :
  open_log (set_open_log v e) = v /\ set_open_log (open_log e) e = e.
Proof. setter_ok. Qed.

Lemma set_played_ok v (e : Env) :
  played (set_played v e) = v /\ set_played (played e) e = e.
Proof. setter_ok. Qed.

Lemma set_after_queue_ok v (e : Env) :
  after_queue (set_after_queue v e) = v /\ set_after_queue (after_queue e) e = e.
Proof. setter_ok. Qed.

Lemma set_dialogs_ok v (e : Env) :
  dialogs (set_dialogs v e) = v /\ set_dialogs (dialogs e) e = e.
Proof. setter_ok. Qed.

Lemma set_thread_ok v (e : Env) :
  thread (set_thread v e) = v /\ set_thread (thread e) e = e.
Proof. setter_ok. Qed.

Lemma set_audio_listening_ok v (st : App) :
  audio_listening (set_audio_listening v st) = v /\ set_audio_listening (audio_listening st) st = st.
Proof. setter_ok. Qed.

Lemma set_audio_recording_ok v (st : App) :
  audio_recording (set_audio_recording v st) = v /\ set_audio_recording (audio_recording st) st = st.
Proof. setter_ok. Qed.

Lemma set_audio_playing_ok v (st : App) :
  audio_playing (set_audio_playing v st) = v /\ set_audio_playing (audio_playing st) st = st.
Proof. setter_ok. Qed.

Lemma set_audio_stream_ok v (st : App) :
  audio_stream (set_audio_stream v st) = v /\ set_audio_stream (audio_stream st) st = st.
Proof. setter_ok. Qed.

Lemma set_audio_ok v (st : App) :
  audio (set_audio v st) = v /\ set_audio (audio st) st = st.
Proof. setter_ok. Qed.

Lemma set_audio_data_queue_ok v (st : App) :
  audio_data_queue (set_audio_data_queue v st) = v /\ set_audio_data_queue (audio_data_queue st) st = st.
Proof. setter_ok. Qed.

Lemma set_audio_buffer_ok v (st : App) :
  audio_buffer (set_audio_buffer v st) = v /\ set_audio_buffer (audio_buffer st) st = st.
Proof. setter_ok. Qed.

Lemma set_recording_start_time_ok v (st : App) :
  recording_start_time (set_recording_start_time v st) = v /\ set_recording_start_time (recording_start_time st) st = st.
Proof. setter_ok. Qed.

Lemma set_time_pattern_buffer_ok v (st : App) :
  time_pattern_buffer (set_time_pattern_buffer v st) = v /\ set_time_pattern_buffer (time_pattern_buffer st) st = st.
Proof. setter_ok. Qed.

Lemma set_pattern_start_time_ok v (st : App) :
  pattern_start_time (set_pattern_start_time v st) = v /\ set_pattern_start_time (pattern_start_time st) st = st.
Proof. setter_ok. Qed.

Lemma set_playback_stream_ok v (st : App) :
  playback_stream (set_playback_stream v st) = v /\ set_playback_stream (playback_stream st) st = st.
Proof. setter_ok. Qed.

Lemma set_playback_audio_ok v (st : App) :
  playback_audio (set_playback_audio v st) = v /\ set_playback_audio (playback_audio st) st = st.
Proof. setter_ok. Qed.

Lemma set_sample_rate_var_ok v (st : App) :
  sample_rate_var (set_sample_rate_var v st) = v /\ set_sample_rate_var (sample_rate_var st) st = st.
Proof. setter_ok. Qed.

Lemma set_channels_var_ok v (st : App) :
  channels_var (set_channels_var v st) = v /\ set_channels_var (channels_var st) st = st.
Proof. setter_ok. Qed.

Lemma set_audio_status_var_ok v (st : App) :
  audio_status_var (set_audio_status_var v st) = v /\ set_audio_status_var (audio_status_var st) st = st.
Proof. setter_ok. Qed.

Lemma set_record_button_enabled_ok v (st : App) :
  record_button_enabled (set_record_button_enabled v st) = v /\ set_record_button_enabled (record_button_enabled st) st = st.
Proof. setter_ok. Qed.

Lemma set_playback_button_enabled_ok v (st : App) :
  playback_button_enabled (set_playback_button_enabled v st) = v /\ set_playback_button_enabled (playback_button_enabled st) st = st.
Proof. setter_ok. Qed.

Lemma set_ax1_ok v (st : App) :
  ax1 (set_ax1 v st) = v /\ set_ax1 (ax1 st) st = st.
Proof. setter_ok. Qed.

Lemma set_ax2_ok v (st : App) :
  ax2 (set_ax2 v st) = v /\ set_ax2 (ax2 st) st = st.
Proof. setter_ok. Qed.

Lemma set_ax3_ok v (st : App) :
  ax3 (set_ax3 v st) = v /\ set_ax3 (ax3 st) st = st.
Proof. setter_ok. Qed.

Lemma set_env_ok v (st : App) :
  env (set_env v st) = v /\ set_env (env st) st = st.
Proof. setter_ok. Qed.

Lemma on_device_selected_ok idx (st : App) :
  selected_device_index (on_device_selected idx st) = Some idx
  /\ (selected_device_index st = Some idx -> on_device_selected idx st = st).
Proof.
  split; [reflexivity | destruct st; simpl; intros ->; reflexivity].
Qed.

End FieldUpdates.

(** ** Ring histories *)

Section RingHistory.
Variable A : Type.
Implicit Types (d : Deque.t A) (l xs : list A) (x : A).

Lemma last_n_all n l : length l <= n -> Py.last_n n l = l.
Proof.
  intros H. unfold Py.last_n.
  replace (length l - n) with 0 by lia. reflexivity.
Qed.

Lemma last_n_length n l : length (Py.last_n n l) = Nat.min n (length l).
Proof. unfold Py.last_n. rewrite length_skipn. lia. Qed.

(** Keeping the last [n] is insensitive to an earlier trimming. *)
Lemma last_n_app_last_n n l xs :
  Py.last_n n (Py.last_n n l ++ xs) = Py.last_n n (l ++ xs).
Proof.
  destruct (Nat.le_gt_cases (length l) n) as [Hle | Hgt].
  - now rewrite (last_n_all _ Hle).
  - unfold Py.last_n at 1 3.
    rewrite !length_app, last_n_length, Nat.min_l by lia.
    unfold Py.last_n.
    replace (length l + length xs - n)
      with ((n + length xs - n) + (length l - n)) by lia.
    rewrite <- skipn_skipn.
    f_equal. rewrite skipn_app.
    replace (length l - n - length l) with 0 by lia.
    reflexivity.
Qed.

Lemma append_items x d :
  Deque.wf d ->
  Deque.items (Deque.append x d) = Py.last_n (Deque.maxlen d) (Deque.items d ++ [x]).
Proof.
  unfold Deque.wf, Deque.append; simpl. intros Hwf.
  destruct (Nat.ltb_spec (Deque.maxlen d) (length (Deque.items d ++ [x]))) as [Hlt | Hge].
  - rewrite length_app in Hlt; simpl in Hlt.
    unfold Py.last_n. rewrite length_app; simpl.
    replace (length (Deque.items d) + 1 - Deque.maxlen d) with 1 by lia.
    reflexivity.
  - now rewrite last_n_all.
Qed.

Lemma append_wf x d : Deque.wf d -> Deque.wf (Deque.append x d).
Proof.
  intros Hwf. unfold Deque.wf. rewrite append_items by assumption.
  rewrite last_n_length. unfold Deque.append; simpl. lia.
Qed.

Lemma extend_spec xs : forall d,
  Deque.wf d ->
  Deque.items (Deque.extend d xs) = Py.last_n (Deque.maxlen d) (Deque.items d ++ xs)
  /\ Deque.maxlen (Deque.extend d xs) = Deque.maxlen d
  /\ Deque.wf (Deque.extend d xs).
Proof.
  induction xs as [| x xs IH]; intros d Hwf.
  - simpl. rewrite app_nil_r, last_n_all by exact Hwf. auto.
  - change (Deque.extend d (x :: xs)) with (Deque.extend (Deque.append x d) xs).
    destruct (IH (Deque.append x d) (append_wf x Hwf)) as (Hi & Hm & Hw).
    rewrite Hi, Hm, append_items by assumption.
    change (Deque.maxlen (Deque.append x d)) with (Deque.maxlen d) in *.
    rewrite last_n_app_last_n, <- app_assoc. simpl. auto.
Qed.

(** C3.  A ring history never holds more than its capacity, and once
    [maxlen + 1] or more samples have been pushed it holds exactly the
    last [maxlen] of them, oldest first.  Stated for any bounded deque,
    so for the short-term history (capacity 10,000, see [init_buffers])
    and the long-term one (capacity 50,000) alike. *)
Theorem ring_overwrite d xs :
  Deque.wf d ->
  Deque.maxlen (Deque.extend d xs) = Deque.maxlen d
  /\ length (Deque.items (Deque.extend d xs)) <= Deque.maxlen d
  /\ (Deque.maxlen d + 1 <= length xs ->
      Deque.items (Deque.extend d xs) = skipn (length xs - Deque.maxlen d) xs
      /\ length (Deque.items (Deque.extend d xs)) = Deque.maxlen d).
Proof.
  intros Hwf. destruct (extend_spec xs Hwf) as (Hi & Hm & Hw).
  split; [exact Hm |]. split; [unfold Deque.wf in Hw; lia |].
  intros Hlen. rewrite Hi. unfold Py.last_n.
  rewrite length_app, skipn_app.
  rewrite (skipn_all2 (Deque.items d)) by lia.
  simpl.
  replace (length (Deque.items d) + length xs - Deque.maxlen d
           - length (Deque.items d)) with (length xs - Deque.maxlen d) by lia.
  split; [reflexivity |].
  rewrite length_skipn. lia.
Qed.
End RingHistory.

Section RingInApp.

Lemma extend_app (A : Type) (d : Deque.t A) xs ys :
  Deque.extend (Deque.extend d xs) ys = Deque.extend d (xs ++ ys).
Proof. unfold Deque.extend. now rewrite fold_left_app. Qed.

Lemma init_buffers devs dout :
  let st := __init__ devs dout in
  Deque.maxlen (audio_buffer st) = Z.to_nat 10000
  /\ Deque.maxlen (time_pattern_buffer st) = Z.to_nat 50000
  /\ Deque.wf (audio_buffer st) /\ Deque.wf (time_pattern_buffer st).
Proof. cbn. unfold Deque.wf. cbn. repeat split; apply Nat.le_0_l. Qed.

(** The callback pushes the frame into the long-term history. *)
Lemma audio_callback_pushes frame now st :
  capture_active st = true ->
  time_pattern_buffer (audio_callback frame now st)
  = Deque.extend (time_pattern_buffer st) frame
  /\ audio_data_queue (audio_callback frame now st) = audio_data_queue st ++ [frame].
Proof.
  unfold capture_active, audio_callback. intros ->.
  cbn [pattern_start_time set_time_pattern_buffer set_audio_data_queue].
  destruct (pattern_start_time st); cbn; auto.
Qed.

(** The tick pushes the queued frames, in order, into the short-term
    history. *)
Lemma drain_queue_pushes st :
  audio_buffer (snd (drain_queue st))
  = Deque.extend (audio_buffer st) (concat (audio_data_queue st))
  /\ audio_data_queue (snd (drain_queue st)) = [].
Proof.
  unfold drain_queue. cbn. split; [| reflexivity].
  generalize (audio_buffer st).
  induction (audio_data_queue st) as [| f fs IH]; intros b; [reflexivity |].
  cbn [fold_left concat]. rewrite IH, extend_app. reflexivity.
Qed.
End RingInApp.

(** The short-term history of a fresh application, after 10,001 samples. *)
Lemma ring_overwrite_witness :
  let d := audio_buffer (__init__ [] None) in
  let xs := Np.arange (S short_capacity) in
  Deque.wf d
  /\ Deque.maxlen d + 1 <= length xs
  /\ Deque.items (Deque.extend d xs) = skipn (length xs - Deque.maxlen d) xs
  /\ length (Deque.items (Deque.extend d xs)) = Deque.maxlen d.
Proof.
  intros d xs.
  assert (Hwf : Deque.wf d) by apply Nat.le_0_l.
  assert (Hlen : Deque.maxlen d + 1 <= length xs).
  { unfold xs, Np.arange. rewrite length_map, length_seq.
    change (Deque.maxlen d) with short_capacity. lia. }
  destruct (ring_overwrite xs Hwf) as (_ & _ & H).
  destruct (H Hlen) as (Hi & Hl). auto.
Defined.

(** ** Strided slices and the pattern view *)

Section Stride.
Variables A B : Type.
Implicit Types (l : list A) (s c j : nat).

Lemma every_length s : forall l c,
  c <= s ->
  length (Py.every (S s) c l) = (length l + s - c) / S s.
Proof.
  induction l as [| x r IH]; intros c Hc; cbn [Py.every length].
  - symmetry. apply Nat.div_small. lia.
  - destruct c as [| c']; cbn [length].
    + replace (S s - 1) with s by lia. rewrite IH by lia.
      replace (S (length r) + s - 0) with (length r + s - s + 1 * S s) by lia.
      rewrite Nat.div_add by lia.
      now rewrite Nat.add_1_r.
    + rewrite IH by lia. reflexivity.
Qed.

Lemma every_nth_error s : forall l c j,
  nth_error (Py.every (S s) c l) j = nth_error l (c + j * S s).
Proof.
  induction l as [| x r IH]; intros c j; cbn [Py.every].
  - now rewrite !nth_error_nil.
  - destruct c as [| c'].
    + destruct j as [| j']; [reflexivity |].
      replace (S s - 1) with s by lia.
      replace (0 + S j' * S s) with (S (s + j' * S s)) by lia.
      cbn [nth_error]. apply IH.
    + replace (S c' + j * S s) with (S (c' + j * S s)) by lia.
      cbn [nth_error]. apply IH.
Qed.

Lemma every_map (f : A -> B) step : forall l c,
  Py.every step c (map f l) = map f (Py.every step c l).
Proof.
  induction l as [| x r IH]; intros c; simpl; [reflexivity |].
  destruct c; simpl; now rewrite IH.
Qed.
End Stride.

Section PatternView.
Import Analysis.

Lemma arange_nth_error n j :
  j < n -> nth_error (Np.arange n) j = Some (Z.of_nat j).
Proof.
  intros H. unfold Np.arange.
  rewrite nth_error_map, nth_error_seq.
  apply Nat.ltb_lt in H. rewrite H. reflexivity.
Qed.

Lemma decimation (pattern_data : list Z) (sample_rate : Z) :
  display_budget < length pattern_data ->
  let L := length pattern_data in
  let step := L / display_budget in
  let '(time_axis, shown) := time_pattern pattern_data sample_rate in
  1 <= step
  /\ shown = Py.slice_step step pattern_data
  /\ length shown = (L + step - 1) / step
  /\ length time_axis = length shown
  /\ forall j, j < length shown ->
       nth_error shown j = nth_error pattern_data (j * step)
       /\ nth_error time_axis j =
            Some (PrimFloat.div (Np.float_of_Z (Z.of_nat (j * step)))
                                (Np.float_of_Z sample_rate)).
Proof.
  intros Hlen L step. unfold time_pattern.
  apply Nat.ltb_lt in Hlen as Hb. rewrite Hb. fold L. fold step.
  assert (Hstep : 1 <= step).
  { unfold step. apply Nat.div_le_lower_bound; unfold display_budget in *; lia. }
  destruct step as [| s] eqn:Es; [lia |].
  unfold Py.slice_step.
  rewrite every_map.
  rewrite length_map, !every_length by lia.
  unfold Np.arange at 1. rewrite length_map, length_seq.
  fold L.
  replace (L + S s - 1) with (L + s - 0) by lia.
  repeat split; try lia.
  - apply every_nth_error.
  - rewrite nth_error_map, every_nth_error. simpl.
    rewrite arange_nth_error; [reflexivity |].
    (* the index read stays inside the series *)
    assert (Hdm := Nat.div_mod_eq (L + s - 0) (S s)).
    assert (Hm := Nat.mod_upper_bound (L + s - 0) (S s)).
    nia.
Qed.
End PatternView.

Lemma ceil_div_spec a b :
  0 < b -> 0 < a -> (ceil_div a b - 1) * b < a /\ a <= ceil_div a b * b.
Proof.
  intros Hb Ha. unfold ceil_div.
  assert (D := Nat.div_mod_eq (a + b - 1) b).
  assert (M := Nat.mod_upper_bound (a + b - 1) b ltac:(lia)).
  nia.
Qed.

(** C4.  When the long-term history is longer than the display budget of
    10,000 points, [_plot_time_pattern] plots every [step]-th sample with
    [step = L // 10000] and nothing else (no filtering): the plotted
    series has [ceil (L / step)] points, the time axis is cut with the
    same stride, and point [j] of the plot is sample [j * step] at time
    [(j * step) / sample_rate]. *)
Theorem pattern_view_decimation st :
  let pattern_data := Deque.items (time_pattern_buffer st) in
  let L := length pattern_data in
  let step := L / Analysis.display_budget in
  let time_of := fun i : Z =>
    PrimFloat.div (Np.float_of_Z i) (Np.float_of_Z (sample_rate_var st)) in
  Analysis.display_budget < L ->
  exists time_axis shown,
    ax2 (snd (_plot_time_pattern st)) = Some (time_axis, shown)
    /\ shown = Py.slice_step step pattern_data
    /\ time_axis = Py.slice_step step (map time_of (Np.arange L))
    /\ length shown = ceil_div L step
    /\ length time_axis = ceil_div L step
    /\ forall j, j < ceil_div L step ->
         nth_error shown j = nth_error pattern_data (j * step)
         /\ nth_error time_axis j = Some (time_of (Z.of_nat (j * step))).
Proof.
  intros pattern_data L step time_of Hlen.
  assert (D := @decimation pattern_data (sample_rate_var st) Hlen).
  unfold _plot_time_pattern.
  cbn [time_pattern_buffer set_ax2 sample_rate_var]. fold pattern_data.
  assert (H100 : (length pattern_data <? 100) = false).
  { apply Nat.ltb_ge. unfold Analysis.display_budget in Hlen. fold L in Hlen |- *. lia. }
  rewrite H100.
  assert (E : Analysis.time_pattern pattern_data (sample_rate_var st)
              = (Py.slice_step step (map time_of (Np.arange L)),
                 Py.slice_step step pattern_data)).
  { unfold Analysis.time_pattern. apply Nat.ltb_lt in Hlen. fold L. rewrite Hlen.
    reflexivity. }
  rewrite E in D |- *. cbv zeta in D. fold L in D. fold step in D.
  destruct D as (Hstep & _ & Hsh & Hta & Hnth).
  unfold ceil_div.
  exists (Py.slice_step step (map time_of (Np.arange L))), (Py.slice_step step pattern_data).
  cbn [snd ax2 set_ax2].
  split; [reflexivity |]. split; [reflexivity |]. split; [reflexivity |].
  split; [exact Hsh |]. split; [rewrite Hta; exact Hsh |].
  intros j Hj. apply Hnth. rewrite Hsh. exact Hj.
Qed.

(** A history of 20,001 samples: stride 2. *)
Lemma pattern_view_decimation_witness :
  Analysis.display_budget < length (Deque.items (time_pattern_buffer st_long_pattern))
  /\ exists time_axis shown,
       ax2 (snd (_plot_time_pattern st_long_pattern)) = Some (time_axis, shown)
       /\ length shown
          = ceil_div (length (Deque.items (time_pattern_buffer st_long_pattern)))
                     (length (Deque.items (time_pattern_buffer st_long_pattern))
                      / Analysis.display_budget).
Proof.
  assert (H : Analysis.display_budget
              < length (Deque.items (time_pattern_buffer st_long_pattern))).
  { apply Nat.ltb_lt. vm_compute. reflexivity. }
  split; [exact H |].
  destruct (pattern_view_decimation st_long_pattern H)
    as (ta & sh & Hax & _ & _ & Hl & _).
  exists ta, sh. split; [exact Hax | exact Hl].
Defined.

(** ** Device negotiation *)

Section Negotiation.
Variables (inst idx : nat) (info : Pa.DeviceInfo).

Lemma keeps_refl e : keeps e e.
Proof. unfold keeps; auto 10. Qed.

Lemma keeps_trans e1 e2 e3 : keeps e1 e2 -> keeps e2 e3 -> keeps e1 e3.
Proof.
  intros (Hd1 & Ho1 & Hp1 & Hg1 & Ht1 & Hi1 & Hn1 & Hs1)
         (Hd2 & Ho2 & Hp2 & Hg2 & Ht2 & Hi2 & Hn2 & Hs2).
  unfold keeps. repeat split; try congruence; try lia.
  intros s Hin Hlt. apply Hs2; [auto | lia].
Qed.

Lemma keeps_devices e e' : keeps e e' -> devices e' = devices e.
Proof. now intros (H & _). Qed.

Lemma pa_open_keeps d r c cb e : keeps e (snd (pa_open inst d idx r c cb e)).
Proof.
  unfold pa_open, keeps.
  destruct (nth_error (devices e) idx) as [i |]; [| simpl; auto 10].
  destruct (Pa.accepts i d r c); simpl; repeat split; auto.
  intros s Hin _. apply in_or_app; auto.
Qed.

Lemma pa_open_spec d r c cb e :
  nth_error (devices e) idx = Some info ->
  let e1 := snd (pa_open inst d idx r c cb e) in
  fst (pa_open inst d idx r c cb e)
    = (if Pa.accepts info d r c then Some (next_handle e) else None)
  /\ open_log e1 = open_log e ++ [Pa.Build_OpenAttempt d idx r c]
  /\ streams e1
     = (if Pa.accepts info d r c
        then streams e ++ [Pa.Build_Stream (next_handle e) inst d idx r c cb]
        else streams e)
  /\ next_handle e1
     = (if Pa.accepts info d r c then S (next_handle e) else next_handle e)
  /\ devices e1 = devices e.
Proof.
  intros Hdev. unfold pa_open. rewrite Hdev.
  destruct (Pa.accepts info d r c); simpl; auto.
Qed.

Lemma probe_spec r c e :
  nth_error (devices e) idx = Some info ->
  let e1 := snd (probe inst idx r c e) in
  fst (probe inst idx r c e) = input_ok info (r, c)
  /\ open_log e1 = open_log e ++ [input_attempt idx (r, c)]
  /\ keeps e e1.
Proof.
  intros Hdev. unfold probe, input_ok, input_attempt, pa_open, keeps. rewrite Hdev.
  simpl. destruct (Pa.accepts info Pa.Input r c); simpl.
  - repeat split; auto.
    intros s Hin Hlt. apply filter_In. split.
    + apply in_or_app; auto.
    + apply negb_true_iff, Nat.eqb_neq. lia.
  - repeat split; auto.
Qed.

Lemma fallback_loop_spec rates : forall sr ch st,
  nth_error (devices (env st)) idx = Some info ->
  let res := fallback_loop inst idx rates sr ch st in
  let cands := map (fun r => (r, 1%Z)) rates in
  (fst (fst res), snd (fst res))
    = match find (input_ok info) cands with Some c => c | None => (sr, ch) end
  /\ open_log (env (snd res))
     = open_log (env st) ++ map (input_attempt idx) (tried (input_ok info) cands)
  /\ keeps (env st) (env (snd res)).
Proof.
  induction rates as [| r rest IH]; intros sr ch st Hdev; simpl.
  - rewrite app_nil_r. auto using keeps_refl.
  - destruct (probe_spec r 1 (env st) Hdev) as (Hok & Hlog & Hk).
    destruct (probe inst idx r 1 (env st)) as [b e1]. simpl in Hok, Hlog, Hk.
    subst b. destruct (input_ok info (r, 1%Z)) eqn:E; simpl.
    + auto.
    + assert (Hdev1 : nth_error (devices (env (set_env e1 st))) idx = Some info).
      { simpl. rewrite (keeps_devices Hk). exact Hdev. }
      destruct (IH sr ch (set_env e1 st) Hdev1) as (Hc & Hl & Hk').
      split; [exact Hc |]. split.
      * rewrite Hl. simpl. rewrite Hlog, <- app_assoc. reflexivity.
      * eapply keeps_trans; [exact Hk | exact Hk'].
Qed.

Lemma negotiate_spec st :
  nth_error (devices (env st)) idx = Some info ->
  let res := negotiate inst idx info st in
  let cands := negotiation_candidates info (sample_rate_var st) (channels_var st) in
  let dflt := (Pa.defaultSampleRate info, Z.min (Pa.maxInputChannels info) 2) in
  (fst (fst res), snd (fst res))
    = match find (input_ok info) cands with Some c => c | None => dflt end
  /\ open_log (env (snd res))
     = open_log (env st) ++ map (input_attempt idx) (tried (input_ok info) cands)
  /\ keeps (env st) (env (snd res)).
Proof.
  intros Hdev. unfold negotiate, negotiation_candidates.
  destruct (probe_spec (sample_rate_var st) (channels_var st) (env st) Hdev)
    as (Hok & Hlog & Hk).
  destruct (probe inst idx (sample_rate_var st) (channels_var st) (env st)) as [b e1].
  simpl in Hok, Hlog, Hk. subst b. cbn [find tried].
  destruct (input_ok info (sample_rate_var st, channels_var st)); [simpl; auto |].
  set (sr := Pa.defaultSampleRate info).
  set (ch := Z.min (Pa.maxInputChannels info) 2).
  set (st1 := set_channels_var ch (set_sample_rate_var sr (set_env e1 st))).
  assert (Hdev1 : nth_error (devices (env st1)) idx = Some info).
  { simpl. rewrite (keeps_devices Hk). exact Hdev. }
  destruct (probe_spec sr ch (env st1) Hdev1) as (Hok2 & Hlog2 & Hk2).
  destruct (probe inst idx sr ch (env st1)) as [b2 e2].
  simpl in Hok2, Hlog2, Hk2. subst b2.
  destruct (input_ok info (sr, ch)).
  - simpl. split; [reflexivity |]. split.
    + rewrite Hlog2, Hlog, <- app_assoc. reflexivity.
    + eapply keeps_trans; eassumption.
  - assert (Hdev2 : nth_error (devices (env (set_env e2 st1))) idx = Some info).
    { simpl. rewrite (keeps_devices Hk2). exact Hdev1. }
    destruct (fallback_loop_spec fallback_rates sr ch (set_env e2 st1) Hdev2)
      as (Hc & Hl & Hk3).
    split; [exact Hc |]. split.
    + rewrite Hl. simpl env. rewrite Hlog2. simpl env. rewrite Hlog.
      simpl. rewrite <- !app_assoc. reflexivity.
    + eapply keeps_trans; [exact Hk |].
      eapply keeps_trans; [exact Hk2 | exact Hk3].
Qed.

(** Negotiation leaves the session flags alone. *)
Lemma fallback_loop_listening rates : forall sr ch st,
  audio_listening (snd (fallback_loop inst idx rates sr ch st)) = audio_listening st.
Proof.
  induction rates as [| r rest IH]; intros sr ch st; cbn [fallback_loop];
    [reflexivity |].
  destruct (probe inst idx r 1 (env st)) as [[|] e1]; [reflexivity |].
  rewrite IH. reflexivity.
Qed.

Lemma negotiate_listening st :
  audio_listening (snd (negotiate inst idx info st)) = audio_listening st.
Proof.
  unfold negotiate.
  destruct (probe inst idx (sample_rate_var st) (channels_var st) (env st))
    as [[|] e1]; [reflexivity |].
  match goal with
  | |- context [probe inst idx ?r ?c ?e] =>
      destruct (probe inst idx r c e) as [[|] e2]; [reflexivity |]
  end.
  rewrite fallback_loop_listening. reflexivity.
Qed.
End Negotiation.

(** ** What the render tick leaves alone *)

Lemma untouched_inv a b :
  untouched_by_tick a = untouched_by_tick b ->
  audio_listening a = audio_listening b
  /\ audio_recording a = audio_recording b
  /\ audio_playing a = audio_playing b
  /\ audio_paused a = audio_paused b
  /\ audio_stream a = audio_stream b
  /\ audio a = audio b
  /\ recording_start_time a = recording_start_time b
  /\ time_pattern_buffer a = time_pattern_buffer b
  /\ pattern_start_time a = pattern_start_time b
  /\ selected_device_index a = selected_device_index b
  /\ playback_stream a = playback_stream b
  /\ playback_audio a = playback_audio b
  /\ sample_rate_var a = sample_rate_var b
  /\ channels_var a = channels_var b
  /\ audio_status_var a = audio_status_var b
  /\ record_button_enabled a = record_button_enabled b
  /\ playback_button_enabled a = playback_button_enabled b
  /\ devices (env a) = devices (env b)
  /\ default_output (env a) = default_output (env b)
  /\ streams (env a) = streams (env b)
  /\ next_handle (env a) = next_handle (env b)
  /\ next_instance (env a) = next_instance (env b)
  /\ open_log (env a) = open_log (env b)
  /\ played (env a) = played (env b)
  /\ dialogs (env a) = dialogs (env b)
  /\ thread (env a) = thread (env b).
Proof.
  unfold untouched_by_tick. intros H. inversion H. repeat split; assumption.
Qed.

Ltac use_frame F :=
  let I := fresh "I" in
  pose proof (untouched_inv F) as I; decompose [and] I; clear I.

(** Rewrites every projection the tick leaves alone. *)
Ltac frame_rw F :=
  let I := fresh "I" in
  pose proof (untouched_inv F) as I;
  repeat match type of I with
    | _ /\ _ => let E := fresh "E" in destruct I as [E I]; rewrite ?E; clear E
    end;
  rewrite ?I; clear I.

Section Tick.

Lemma plot_realtime_waveform_frame recent channels st :
  untouched_by_tick (_plot_realtime_waveform recent channels st) = untouched_by_tick st
  /\ after_queue (env (_plot_realtime_waveform recent channels st)) = after_queue (env st)
  /\ audio_buffer (_plot_realtime_waveform recent channels st) = audio_buffer st.
Proof.
  unfold _plot_realtime_waveform.
  destruct (channels =? 1)%Z; [now auto |].
  destruct (2 <=? length recent); now auto.
Qed.

Lemma plot_time_pattern_frame st :
  untouched_by_tick (snd (_plot_time_pattern st)) = untouched_by_tick st
  /\ after_queue (env (snd (_plot_time_pattern st))) = after_queue (env st)
  /\ audio_buffer (snd (_plot_time_pattern st)) = audio_buffer st.
Proof.
  unfold _plot_time_pattern. cbn [time_pattern_buffer set_ax2 sample_rate_var].
  destruct (length _ <? 100); [now auto |].
  destruct (Analysis.time_pattern _ _); now auto.
Qed.

Lemma plot_amplitude_envelope_frame st :
  untouched_by_tick (snd (_plot_amplitude_envelope st)) = untouched_by_tick st
  /\ after_queue (env (snd (_plot_amplitude_envelope st))) = after_queue (env st)
  /\ audio_buffer (snd (_plot_amplitude_envelope st)) = audio_buffer st.
Proof.
  unfold _plot_amplitude_envelope. cbn [time_pattern_buffer set_ax3 sample_rate_var].
  destruct (length _ <? 100); [now auto |].
  destruct (Analysis.envelope_points _ _) as [[tp ev] |]; [| now auto].
  destruct (1 <? length ev); now auto.
Qed.

Lemma update_panels_frame st :
  untouched_by_tick (update_panels st) = untouched_by_tick st
  /\ after_queue (env (update_panels st)) = after_queue (env st)
  /\ audio_buffer (update_panels st) = audio_buffer st.
Proof.
  unfold update_panels.
  set (st1 := _plot_realtime_waveform _ _ st).
  destruct (plot_realtime_waveform_frame
              (Py.last_n 2000 (Deque.items (audio_buffer st))) (channels_var st) st)
    as (F1 & Q1 & B1). fold st1 in F1, Q1, B1.
  destruct (1000 <? Deque.len (time_pattern_buffer st1)).
  - destruct (plot_time_pattern_frame st1) as (F2 & Q2 & B2).
    destruct (_plot_time_pattern st1) as [raised2 st2]. simpl in F2, Q2, B2.
    destruct raised2; [repeat split; congruence |].
    destruct (100 <? Deque.len (time_pattern_buffer st2)).
    + destruct (plot_amplitude_envelope_frame st2) as (F3 & Q3 & B3).
      repeat split; congruence.
    + repeat split; congruence.
  - destruct (100 <? Deque.len (time_pattern_buffer st1)).
    + destruct (plot_amplitude_envelope_frame st1) as (F3 & Q3 & B3).
      repeat split; congruence.
    + repeat split; congruence.
Qed.

(** The tick writes the queue, the short-term buffer and the three
    axes, and appends at most itself to the timer queue. *)
Lemma update_visualization_frame st :
  untouched_by_tick (update_visualization st) = untouched_by_tick st
  /\ after_queue (env (update_visualization st))
     = after_queue (env st)
       ++ (if capture_active st then [CbUpdateVisualization] else []).
Proof.
  unfold update_visualization, capture_active.
  destruct (audio_recording st || audio_listening st) eqn:Hact; simpl negb; cbv iota.
  2:{ now rewrite app_nil_r. }
  unfold drain_queue.
  set (st1 := set_audio_buffer _ (set_audio_data_queue [] st)).
  assert (F1 : untouched_by_tick st1 = untouched_by_tick st) by reflexivity.
  assert (Q1 : after_queue (env st1) = after_queue (env st)) by reflexivity.
  set (st2 := match last (map Some (audio_data_queue st)) None with
              | Some frame => _ | None => st1 end).
  assert (F2 : untouched_by_tick st2 = untouched_by_tick st1
               /\ after_queue (env st2) = after_queue (env st1)).
  { unfold st2. destruct (last _ _) as [frame |]; [| now auto].
    destruct (_ && _); [| now auto].
    destruct (update_panels_frame st1) as (F & Q & _). auto. }
  destruct F2 as (F2 & Q2).
  assert (Hact2 : audio_recording st2 || audio_listening st2 = true).
  { use_frame F1. use_frame F2. congruence. }
  rewrite Hact2. simpl. split; [| congruence].
  rewrite <- F1, <- F2. reflexivity.
Qed.

Lemma update_recording_duration_frame st :
  untouched_by_tick (update_recording_duration st) = untouched_by_tick st.
Proof.
  unfold update_recording_duration.
  destruct (recording_start_time st); [| reflexivity].
  destruct (_ && _); reflexivity.
Qed.
End Tick.

(** ** Starting a capture *)

Section StartCapture.
Variables (idx : nat) (info : Pa.DeviceInfo).

Lemma start_listening_spec st :
  selected_device_index st = Some idx ->
  nth_error (devices (env st)) idx = Some info ->
  let c := settled_config info (sample_rate_var st) (channels_var st) in
  let st' := start_listening st in
  open_log (env st')
    = open_log (env st)
      ++ map (input_attempt idx)
             (tried (input_ok info)
                (negotiation_candidates info (sample_rate_var st) (channels_var st)))
      ++ [input_attempt idx c]
  /\ (forall s, In s (streams (env st)) -> Pa.handle s < next_handle (env st) ->
                In s (streams (env st')))
  /\ (input_ok info c = true ->
      audio_listening st' = true
      /\ dialogs (env st') = dialogs (env st)
      /\ exists h, audio_stream st' = Some h
           /\ next_handle (env st) <= h
           /\ In (Pa.Build_Stream h (next_instance (env st)) Pa.Input idx
                                  (fst c) (snd c) true)
                 (streams (env st'))).
Proof.
  intros Hsel Hdev c st'. subst st'. unfold start_listening.
  cbn [pa_new]. cbn [selected_device_index set_audio set_env env devices set_next_instance].
  rewrite Hsel, Hdev.
  set (inst := next_instance (env st)).
  set (st0 := set_audio (Some inst) (set_env (set_next_instance (S inst) (env st)) st)).
  assert (Hdev0 : nth_error (devices (env st0)) idx = Some info) by exact Hdev.
  assert (Hk0 : keeps (env st) (env st0)).
  { unfold keeps; simpl; repeat split; auto. }
  destruct (@negotiate_spec inst idx info st0 Hdev0) as (Hcfg & Hlog & Hk).
  change (sample_rate_var st0) with (sample_rate_var st) in Hcfg, Hlog.
  change (channels_var st0) with (channels_var st) in Hcfg, Hlog.
  fold (settled_config info (sample_rate_var st) (channels_var st)) in Hcfg.
  fold c in Hcfg.
  destruct (negotiate inst idx info st0) as [[sr ch] st1]. cbn [fst snd] in Hcfg, Hlog, Hk.
  assert (Hdev1 : nth_error (devices (env st1)) idx = Some info).
  { rewrite (keeps_devices Hk). exact Hdev0. }
  destruct (@pa_open_spec inst idx info Pa.Input sr ch true (env st1) Hdev1)
    as (Hh & Hl2 & Hs2 & Hn2 & Hd2).
  assert (Hk2 := @pa_open_keeps inst idx Pa.Input sr ch true (env st1)).
  destruct (pa_open inst Pa.Input idx sr ch true (env st1)) as [oh e2].
  cbn [fst snd] in Hh, Hl2, Hs2, Hn2, Hd2, Hk2.
  assert (Hc : c = (sr, ch)) by (symmetry; exact Hcfg).
  assert (Hk02 : keeps (env st) e2).
  { eapply keeps_trans; [exact Hk0 |]. eapply keeps_trans; eassumption. }
  unfold input_ok. rewrite Hc. cbn [fst snd].
  destruct (Pa.accepts info Pa.Input sr ch) eqn:Hacc; subst oh.
  - match goal with |- context [update_visualization ?s] => set (st5 := s) end.
    destruct (update_visualization_frame st5) as (F & _).
    split; [| split].
    + frame_rw F. cbn. rewrite Hl2, Hlog. unfold input_attempt at 3. cbn [fst snd].
      rewrite <- app_assoc. reflexivity.
    + frame_rw F. cbn. apply Hk02.
    + intros _. frame_rw F. cbn. split; [reflexivity |].
      split; [destruct Hk02 as (_ & _ & _ & Hg & _); exact Hg |].
      exists (next_handle (env st1)). split; [reflexivity |].
      split.
      { destruct Hk0 as (_ & _ & _ & _ & _ & _ & Hn0 & _).
        destruct Hk as (_ & _ & _ & _ & _ & _ & Hn1 & _). cbn in Hn1. lia. }
      rewrite Hs2. apply in_or_app. right. left. reflexivity.
  - split; [| split].
    + cbn. rewrite Hl2, Hlog. unfold input_attempt at 3. cbn [fst snd].
      rewrite <- app_assoc. reflexivity.
    + cbn. apply Hk02.
    + discriminate.
Qed.
End StartCapture.

Section StartRecording.
Variables (idx : nat) (info : Pa.DeviceInfo).

Lemma start_recording_spec now st :
  selected_device_index st = Some idx ->
  nth_error (devices (env st)) idx = Some info ->
  let c := settled_config info (sample_rate_var st) (channels_var st) in
  let st' := start_recording now st in
  open_log (env st')
    = open_log (env st)
      ++ map (input_attempt idx)
             (tried (input_ok info)
                (negotiation_candidates info (sample_rate_var st) (channels_var st)))
      ++ [input_attempt idx c]
  /\ (forall s, In s (streams (env st)) -> Pa.handle s < next_handle (env st) ->
                In s (streams (env st')))
  /\ (input_ok info c = true ->
      audio_recording st' = true
      /\ audio_listening st' = audio_listening st
      /\ dialogs (env st') = dialogs (env st)
      /\ exists h, audio_stream st' = Some h
           /\ next_handle (env st) <= h
           /\ In (Pa.Build_Stream h (next_instance (env st)) Pa.Input idx
                                  (fst c) (snd c) true)
                 (streams (env st'))).
Proof.
  intros Hsel Hdev c st'. subst st'. unfold start_recording.
  cbn [pa_new]. cbn [selected_device_index set_audio set_env env devices set_next_instance].
  rewrite Hsel, Hdev.
  set (inst := next_instance (env st)).
  set (st0 := set_audio (Some inst) (set_env (set_next_instance (S inst) (env st)) st)).
  assert (Hdev0 : nth_error (devices (env st0)) idx = Some info) by exact Hdev.
  assert (Hk0 : keeps (env st) (env st0)).
  { unfold keeps; simpl; repeat split; auto. }
  destruct (@negotiate_spec inst idx info st0 Hdev0) as (Hcfg & Hlog & Hk).
  change (sample_rate_var st0) with (sample_rate_var st) in Hcfg, Hlog.
  change (channels_var st0) with (channels_var st) in Hcfg, Hlog.
  fold (settled_config info (sample_rate_var st) (channels_var st)) in Hcfg.
  fold c in Hcfg.
  assert (Hlis := negotiate_listening inst idx info st0).
  destruct (negotiate inst idx info st0) as [[sr ch] st1].
  cbn [fst snd] in Hcfg, Hlog, Hk, Hlis.
  assert (Hdev1 : nth_error (devices (env st1)) idx = Some info).
  { rewrite (keeps_devices Hk). exact Hdev0. }
  destruct (@pa_open_spec inst idx info Pa.Input sr ch true (env st1) Hdev1)
    as (Hh & Hl2 & Hs2 & Hn2 & Hd2).
  assert (Hk2 := @pa_open_keeps inst idx Pa.Input sr ch true (env st1)).
  destruct (pa_open inst Pa.Input idx sr ch true (env st1)) as [oh e2].
  cbn [fst snd] in Hh, Hl2, Hs2, Hn2, Hd2, Hk2.
  assert (Hc : c = (sr, ch)) by (symmetry; exact Hcfg).
  assert (Hk02 : keeps (env st) e2).
  { eapply keeps_trans; [exact Hk0 |]. eapply keeps_trans; eassumption. }
  unfold input_ok. rewrite Hc. cbn [fst snd].
  destruct (Pa.accepts info Pa.Input sr ch) eqn:Hacc; subst oh.
  - match goal with |- context [update_recording_duration ?s] => set (st5 := s) end.
    destruct (update_visualization_frame (update_recording_duration st5)) as (F & _).
    assert (G := update_recording_duration_frame st5).
    split; [| split].
    + frame_rw F. frame_rw G. cbn. rewrite Hl2, Hlog. unfold input_attempt at 3.
      cbn [fst snd]. rewrite <- app_assoc. reflexivity.
    + frame_rw F. frame_rw G. cbn. apply Hk02.
    + intros _. frame_rw F. frame_rw G. cbn. split; [reflexivity |].
      split; [exact Hlis |].
      split; [destruct Hk02 as (_ & _ & _ & Hg & _); exact Hg |].
      exists (next_handle (env st1)). split; [reflexivity |].
      split.
      { destruct Hk0 as (_ & _ & _ & _ & _ & _ & Hn0 & _).
        destruct Hk as (_ & _ & _ & _ & _ & _ & Hn1 & _). cbn in Hn1. lia. }
      rewrite Hs2. apply in_or_app. right. left. reflexivity.
  - split; [| split].
    + cbn. rewrite Hl2, Hlog. unfold input_attempt at 3. cbn [fst snd].
      rewrite <- app_assoc. reflexivity.
    + cbn. apply Hk02.
    + discriminate.
Qed.
End StartRecording.

(** C2.  [start_listening] and [start_recording] try the requested pair,
    then the device default [(defaultSampleRate, min maxInputChannels 2)],
    then 44100, 48000, 16000 and 8000 Hz at one channel, in that order and
    stopping at the first that opens; the capture stream is then opened
    with the configuration that won.  In particular a device that rejects
    the requested pair and accepts its default gets a capture stream with
    the default. *)
Theorem negotiation_first_success_wins st idx info now :
  selected_device_index st = Some idx ->
  nth_error (devices (env st)) idx = Some info ->
  let requested := (sample_rate_var st, channels_var st) in
  let dflt := (Pa.defaultSampleRate info, Z.min (Pa.maxInputChannels info) 2) in
  let cands := negotiation_candidates info (fst requested) (snd requested) in
  let settled := settled_config info (fst requested) (snd requested) in
  let log :=
    open_log (env st)
    ++ map (input_attempt idx) (tried (input_ok info) cands)
    ++ [input_attempt idx settled] in
  cands = [requested; dflt; (44100, 1); (48000, 1); (16000, 1); (8000, 1)]%Z
  /\ settled = match find (input_ok info) cands with Some c => c | None => dflt end
  /\ open_log (env (start_listening st)) = log
  /\ open_log (env (start_recording now st)) = log
  /\ (input_ok info requested = false -> input_ok info dflt = true ->
      settled = dflt
      /\ (exists h i, audio_stream (start_listening st) = Some h
            /\ In (Pa.Build_Stream h i Pa.Input idx (fst dflt) (snd dflt) true)
                  (streams (env (start_listening st))))
      /\ (exists h i, audio_stream (start_recording now st) = Some h
            /\ In (Pa.Build_Stream h i Pa.Input idx (fst dflt) (snd dflt) true)
                  (streams (env (start_recording now st))))).
Proof.
  intros Hsel Hdev requested dflt cands settled log.
  destruct (@start_listening_spec idx info st Hsel Hdev) as (HL & _ & HLs).
  destruct (@start_recording_spec idx info now st Hsel Hdev) as (HR & _ & HRs).
  split; [reflexivity |]. split; [reflexivity |].
  split; [exact HL |]. split; [exact HR |].
  intros Hreq Hdef.
  assert (Hset : settled = dflt).
  { unfold settled, settled_config, negotiation_candidates.
    cbn [find fst snd requested]. unfold requested in Hreq. rewrite Hreq.
    unfold dflt in Hdef. rewrite Hdef. reflexivity. }
  split; [exact Hset |].
  unfold settled in Hset. cbn [fst snd requested] in Hset.
  rewrite Hset in HLs, HRs.
  destruct (HLs Hdef) as (_ & _ & h & Hh & _ & Hin).
  destruct (HRs Hdef) as (_ & _ & _ & h' & Hh' & _ & Hin').
  split; eauto.
Qed.

(** A device that takes only 44.1 kHz mono, asked for 16 kHz stereo. *)
Lemma negotiation_first_success_wins_witness :
  selected_device_index st_default_only = Some 0
  /\ input_ok default_only_device (16000, 2)%Z = false
  /\ input_ok default_only_device (44100, 1)%Z = true
  /\ settled_config default_only_device 16000 2 = (44100, 1)%Z
  /\ open_log (env (start_listening st_default_only))
     = map (input_attempt 0) [(16000, 2); (44100, 1); (44100, 1)]%Z.
Proof.
  destruct (@negotiation_first_success_wins st_default_only 0 default_only_device 0
              eq_refl eq_refl) as (_ & _ & HL & _ & H).
  destruct (H eq_refl eq_refl) as (Hs & _).
  split; [reflexivity |]. split; [reflexivity |]. split; [reflexivity |].
  split; [exact Hs | exact HL].
Defined.

(** ** Stopping a capture *)

Section Stopping.

Lemma stop_listening_log st :
  open_log (env (stop_listening st)) = open_log (env st).
Proof.
  unfold stop_listening.
  destruct (audio_stream st); cbn [audio set_audio_stream upd_env set_env env];
    destruct (audio st); reflexivity.
Qed.

Lemma stop_recording_log st :
  open_log (env (stop_recording st)) = open_log (env st).
Proof.
  unfold stop_recording.
  destruct (audio_stream st); cbn [audio set_audio_stream upd_env set_env env];
    destruct (audio st); cbn;
    match goal with |- context [if ?b then _ else _] => destruct b end;
    reflexivity.
Qed.

Lemma stop_listening_buffers st :
  audio_buffer (stop_listening st) = audio_buffer st
  /\ Deque.items (time_pattern_buffer (stop_listening st)) = []
  /\ Deque.maxlen (time_pattern_buffer (stop_listening st))
     = Deque.maxlen (time_pattern_buffer st)
  /\ pattern_start_time (stop_listening st) = None.
Proof.
  unfold stop_listening.
  destruct (audio_stream st); cbn [audio set_audio_stream upd_env set_env env];
    destruct (audio st); cbn; auto.
Qed.

Lemma stop_recording_buffers st :
  audio_buffer (stop_recording st) = audio_buffer st
  /\ time_pattern_buffer (stop_recording st) = time_pattern_buffer st
  /\ pattern_start_time (stop_recording st) = pattern_start_time st.
Proof.
  unfold stop_recording.
  destruct (audio_stream st); cbn [audio set_audio_stream upd_env set_env env];
    destruct (audio st); cbn;
    match goal with |- context [if ?b then _ else _] => destruct b end;
    cbn; auto.
Qed.
End Stopping.

(** C5, counterexample.  LISTEN then RECORD: recording starts while the
    listening stream is running.  It is not refused (no dialog), a second
    capture stream is open next to the first, and [audio_stream] now
    holds the second handle only. *)
Lemma recording_starts_while_listening_streams :
  audio_listening st_listening = true
  /\ map Pa.handle (capture_streams (env st_listening)) = [1]
  /\ audio_stream st_listening = Some 1
  /\ record_button_enabled st_listening = true
  /\ audio_recording st_both = true
  /\ audio_listening st_both = true
  /\ map Pa.handle (capture_streams (env st_both)) = [1; 3]
  /\ audio_stream st_both = Some 3
  /\ dialogs (env st_both) = [].
Proof. vm_compute. repeat split; reflexivity. Qed.

(** C5, as amended.  Nothing refuses a start because a capture is
    already active.  Each toggle stops a running session of its own kind
    instead of starting another one, and opens nothing.  [start_recording]
    makes no check of its own: whenever its stream opens it is performed,
    also while listening is active, which stays active; the stream it
    stores is one it has just opened. *)
Theorem capture_start_is_unguarded now st :
  (audio_listening st = true ->
   toggle_listening st = stop_listening st
   /\ open_log (env (toggle_listening st)) = open_log (env st))
  /\ (audio_recording st = true ->
      toggle_recording now st = stop_recording st
      /\ open_log (env (toggle_recording now st)) = open_log (env st))
  /\ (forall idx info,
        selected_device_index st = Some idx ->
        nth_error (devices (env st)) idx = Some info ->
        input_ok info (settled_config info (sample_rate_var st) (channels_var st)) = true ->
        let st' := start_recording now st in
        audio_recording st' = true
        /\ audio_listening st' = audio_listening st
        /\ dialogs (env st') = dialogs (env st)
        /\ exists s', In s' (capture_streams (env st'))
             /\ audio_stream st' = Some (Pa.handle s')
             /\ next_handle (env st) <= Pa.handle s').
Proof.
  split; [| split].
  - intros H. unfold toggle_listening. rewrite H.
    split; [reflexivity | apply stop_listening_log].
  - intros H. unfold toggle_recording. rewrite H.
    split; [reflexivity | apply stop_recording_log].
  - intros idx info Hsel Hdev Hok st'.
    destruct (@start_recording_spec idx info now st Hsel Hdev) as (_ & _ & Hsucc).
    destruct (Hsucc Hok) as (Hrec & Hlis & Hdlg & h & Hh & Hge & Hnew).
    split; [exact Hrec |]. split; [exact Hlis |]. split; [exact Hdlg |].
    eexists. split; [apply filter_In; split; [exact Hnew | reflexivity] |].
    split; [exact Hh | exact Hge].
Qed.

(** The run LISTEN, RECORD again, and the toggles in the states it
    reaches. *)
Lemma capture_start_is_unguarded_witness :
  audio_listening st_listening = true
  /\ toggle_listening st_listening = stop_listening st_listening
  /\ audio_recording st_both = true
  /\ toggle_recording 8 st_both = stop_recording st_both
  /\ audio_recording (start_recording 7 st_listening) = true
  /\ audio_listening (start_recording 7 st_listening) = true
  /\ dialogs (env (start_recording 7 st_listening)) = [].
Proof.
  destruct (capture_start_is_unguarded 7 st_listening) as (HL & _ & H).
  destruct (capture_start_is_unguarded 8 st_both) as (_ & HR & _).
  destruct (HL eq_refl) as (HL1 & _).
  destruct (HR eq_refl) as (HR1 & _).
  destruct (H 0 array_device eq_refl eq_refl eq_refl) as (Hr & Hl & Hd & _).
  repeat split; assumption || reflexivity.
Defined.

(** C9, counterexample.  After one frame has been drawn, stopping the
    recording, the listening, or both leaves the three samples in the
    short-term buffer. *)
Lemma stop_keeps_short_term_history :
  Deque.items (audio_buffer st_fed) = [3; -4; 5]%Z
  /\ Deque.items (audio_buffer (stop_recording st_fed)) = [3; -4; 5]%Z
  /\ Deque.items (audio_buffer (stop_listening st_fed)) = [3; -4; 5]%Z
  /\ Deque.items (audio_buffer st_clip) = [3; -4; 5]%Z.
Proof. vm_compute. repeat split; reflexivity. Qed.

(** C9, as amended.  Neither [stop_listening] nor [stop_recording]
    touches the short-term buffer (it is the clip that playback and export
    read afterwards).  [stop_listening] empties the long-term history and
    resets its start time; [stop_recording] leaves both as they are. *)
Theorem stop_clears_long_term_only st :
  audio_buffer (stop_listening st) = audio_buffer st
  /\ audio_buffer (stop_recording st) = audio_buffer st
  /\ Deque.items (time_pattern_buffer (stop_listening st)) = []
  /\ pattern_start_time (stop_listening st) = None
  /\ time_pattern_buffer (stop_recording st) = time_pattern_buffer st
  /\ pattern_start_time (stop_recording st) = pattern_start_time st.
Proof.
  destruct (stop_listening_buffers st) as (A1 & A2 & _ & A3).
  destruct (stop_recording_buffers st) as (B1 & B2 & B3).
  auto 10.
Qed.


(** ** Starting playback *)

(** C6.  With an empty short-term buffer [start_playback] only shows the
    warning "No audio recorded to play back!": no stream is opened or
    asked for, no thread is started, and flag, handles and status line of
    the playback session are what they were. *)
Theorem empty_clip_playback_refused st :
  Deque.len (audio_buffer st) = 0 ->
  let st' := start_playback st in
  st' = show WarnNoAudioToPlayBack st
  /\ dialogs (env st') = dialogs (env st) ++ [WarnNoAudioToPlayBack]
  /\ open_log (env st') = open_log (env st)
  /\ streams (env st') = streams (env st)
  /\ thread (env st') = thread (env st)
  /\ audio_playing st' = audio_playing st
  /\ playback_stream st' = playback_stream st
  /\ playback_audio st' = playback_audio st
  /\ audio_status_var st' = audio_status_var st.
Proof.
  intros Hlen st'. subst st'. unfold start_playback. rewrite Hlen.
  cbn. auto 10.
Qed.

(** PLAYBACK's command on a fresh application. *)
Lemma empty_clip_playback_refused_witness :
  Deque.len (audio_buffer st_ready) = 0
  /\ dialogs (env (start_playback st_ready)) = [WarnNoAudioToPlayBack]
  /\ open_log (env (start_playback st_ready)) = [].
Proof.
  split; [reflexivity |].
  destruct (@empty_clip_playback_refused st_ready eq_refl) as (_ & Hd & Hl & _).
  split; [exact Hd | exact Hl].
Defined.

Section PlaybackStart.

(** What a successful [start_playback] leaves. *)
Lemma start_playback_cases st :
  let st' := start_playback st in
  (open_log (env st') = open_log (env st)
   /\ streams (env st') = streams (env st)
   /\ playback_stream st' = playback_stream st
   /\ audio_playing st' = audio_playing st)
  \/ (exists a, open_log (env st') = open_log (env st) ++ [a]
        /\ playback_format a
        /\ streams (env st') = streams (env st)
        /\ playback_stream st' = playback_stream st
        /\ audio_playing st' = audio_playing st)
  \/ (exists a idx,
        open_log (env st') = open_log (env st) ++ [a]
        /\ playback_format a
        /\ streams (env st')
           = streams (env st)
             ++ [Pa.Build_Stream (next_handle (env st)) (next_instance (env st))
                                 Pa.Output idx 16000 1 false]
        /\ playback_stream st' = Some (next_handle (env st))
        /\ playback_audio st' = Some (next_instance (env st))
        /\ audio_playing st' = true
        /\ thread (env st') = ThStart
        /\ played (env st') = played (env st)
        /\ audio_buffer st' = audio_buffer st).
Proof.
  unfold start_playback.
  destruct (Deque.len (audio_buffer st) =? 0); [left; cbn; auto |].
  cbn [pa_new]. cbn [default_output env set_playback_audio set_env set_next_instance].
  destruct (default_output (env st)) as [oidx |]; [| left; cbn; auto].
  unfold pa_open. cbn [devices env set_playback_audio set_env set_next_instance].
  destruct (nth_error (devices (env st)) oidx) as [info |].
  - destruct (Pa.accepts info Pa.Output 16000 1).
    + right; right. eexists; exists oidx. cbn. unfold playback_format. cbn. auto 12.
    + right; left. eexists. cbn. unfold playback_format. cbn. auto 10.
  - right; left. eexists. cbn. unfold playback_format. cbn. auto 10.
Qed.

Lemma start_playback_ignores_clip_format r c st :
  start_playback (set_sample_rate_var r (set_channels_var c st))
  = set_sample_rate_var r (set_channels_var c (start_playback st)).
Proof.
  unfold start_playback. cbn [audio_buffer set_sample_rate_var set_channels_var].
  destruct (Deque.len (audio_buffer st) =? 0); [reflexivity |].
  cbn [pa_new]. cbn [default_output env set_playback_audio set_env set_next_instance
                     set_sample_rate_var set_channels_var].
  destruct (default_output (env st)) as [oidx |]; [| reflexivity].
  unfold pa_open. cbn [devices env set_playback_audio set_env set_next_instance].
  destruct (nth_error (devices (env st)) oidx) as [info |]; [| reflexivity].
  destruct (Pa.accepts info Pa.Output 16000 1); reflexivity.
Qed.
End PlaybackStart.

(** C10.  For a clip that is not empty, with a default output device,
    [start_playback] asks PortAudio for exactly one stream: an output
    stream on that device with 1 channel at 16000 Hz.  When the device
    takes that format the stream is opened with it, its handle is held,
    the thread is started and the flag set; when it does not, nothing is
    opened and the error dialog is shown.  In no case is anything else
    asked for or opened.  The rate and channel count the capture was
    negotiated with (the Tk variables, which [save_recording] writes
    into the file header) play no part: changing them commutes with
    [start_playback]. *)
Theorem playback_format_is_fixed st :
  (forall oidx info,
     Deque.len (audio_buffer st) <> 0 ->
     default_output (env st) = Some oidx ->
     nth_error (devices (env st)) oidx = Some info ->
     let st' := start_playback st in
     open_log (env st')
     = open_log (env st) ++ [Pa.Build_OpenAttempt Pa.Output oidx 16000 1]
     /\ (Pa.accepts info Pa.Output 16000 1 = true ->
         streams (env st')
         = streams (env st)
           ++ [Pa.Build_Stream (next_handle (env st)) (next_instance (env st))
                               Pa.Output oidx 16000 1 false]
         /\ playback_stream st' = Some (next_handle (env st))
         /\ audio_playing st' = true
         /\ thread (env st') = ThStart
         /\ dialogs (env st') = dialogs (env st))
     /\ (Pa.accepts info Pa.Output 16000 1 = false ->
         streams (env st') = streams (env st)
         /\ playback_stream st' = playback_stream st
         /\ audio_playing st' = audio_playing st
         /\ dialogs (env st') = dialogs (env st) ++ [ErrFailedToStartPlayback]))
  /\ (forall a, In a (open_log (env (start_playback st))) ->
                In a (open_log (env st)) \/ playback_format a)
  /\ (forall s, In s (streams (env (start_playback st))) ->
                In s (streams (env st))
                \/ (Pa.dir s = Pa.Output /\ Pa.rate s = 16000%Z /\ Pa.channels s = 1%Z
                    /\ playback_stream (start_playback st) = Some (Pa.handle s)))
  /\ (forall r c,
        start_playback (set_sample_rate_var r (set_channels_var c st))
        = set_sample_rate_var r (set_channels_var c (start_playback st)))
  /\ (forall name w, save_recording (Some name) st = Some w ->
        nchannels w = channels_var st /\ framerate w = sample_rate_var st).
Proof.
  split; [| split; [| split; [| split]]].
  - intros oidx info Hlen Hout Hdev st'. subst st'. unfold start_playback.
    apply Nat.eqb_neq in Hlen. rewrite Hlen.
    cbn [pa_new]. cbn [default_output env set_playback_audio set_env set_next_instance].
    rewrite Hout.
    unfold pa_open. cbn [devices env set_playback_audio set_env set_next_instance].
    rewrite Hdev.
    destruct (Pa.accepts info Pa.Output 16000 1).
    + split; [reflexivity |]. split; [| discriminate].
      intros _. repeat split; reflexivity.
    + split; [reflexivity |]. split; [discriminate |].
      intros _. repeat split; reflexivity.
  - intros a Hin.
    destruct (start_playback_cases st) as [(Hl & _) | [(a' & Hl & Hf & _) | (a' & i & Hl & Hf & _)]];
      rewrite Hl in Hin; auto;
      apply in_app_or in Hin as [Hin | [<- | []]]; auto.
  - intros s Hin.
    destruct (start_playback_cases st)
      as [(_ & Hs & _) | [(a' & _ & _ & Hs & _) | (a' & i & _ & _ & Hs & Hp & _)]];
      rewrite Hs in Hin; auto.
    apply in_app_or in Hin as [Hin | [<- | []]]; auto.
  - intros r c. apply start_playback_ignores_clip_format.
  - intros name w. unfold save_recording.
    destruct (Deque.len (audio_buffer st) =? 0); [discriminate |].
    destruct name; [discriminate |].
    intros [= <-]. auto.
Qed.

(** A clip captured at 2 channels is played back at 1: PLAYBACK opens
    an output stream of 1 channel at 16000 Hz and holds its handle. *)
Lemma playback_format_is_fixed_witness :
  channels_var st_long_clip = 2%Z
  /\ open_log (env (start_playback st_long_clip))
     = open_log (env st_long_clip) ++ [Pa.Build_OpenAttempt Pa.Output 0 16000 1]
  /\ streams (env (start_playback st_long_clip))
     = streams (env st_long_clip)
       ++ [Pa.Build_Stream (next_handle (env st_long_clip))
             (next_instance (env st_long_clip)) Pa.Output 0 16000 1 false]
  /\ playback_stream (start_playback st_long_clip)
     = Some (next_handle (env st_long_clip))
  /\ audio_playing (start_playback st_long_clip) = true
  /\ In (Pa.Build_OpenAttempt Pa.Output 0 16000 1)
        (open_log (env (start_playback st_long_clip)))
  /\ ~ In (Pa.Build_OpenAttempt Pa.Output 0 16000 1) (open_log (env st_long_clip))
  /\ playback_format (Pa.Build_OpenAttempt Pa.Output 0 16000 1)
  /\ (forall w, save_recording (Some "clip.wav"%string) st_long_clip = Some w ->
                nchannels w = channels_var st_long_clip
                /\ framerate w = sample_rate_var st_long_clip).
Proof.
  destruct (playback_format_is_fixed st_long_clip) as (Hopen & Hlog & _ & _ & Hsave).
  assert (Hc : channels_var st_long_clip = 2%Z) by (vm_compute; reflexivity).
  assert (Hlen : Deque.len (audio_buffer st_long_clip) <> 0)
    by (vm_compute; discriminate).
  assert (Hout : default_output (env st_long_clip) = Some 0)
    by (vm_compute; reflexivity).
  assert (Hdev : nth_error (devices (env st_long_clip)) 0 = Some array_device)
    by (vm_compute; reflexivity).
  assert (Hacc : Pa.accepts array_device Pa.Output 16000 1 = true)
    by (vm_compute; reflexivity).
  destruct (Hopen 0 array_device Hlen Hout Hdev) as (Hl & Hyes & _).
  destruct (Hyes Hacc) as (Hst & Hps & Hap & _).
  assert (Hin : In (Pa.Build_OpenAttempt Pa.Output 0 16000 1)
                   (open_log (env (start_playback st_long_clip)))).
  { rewrite Hl. apply in_or_app. right. left. reflexivity. }
  assert (Hnot : ~ In (Pa.Build_OpenAttempt Pa.Output 0 16000 1)
                      (open_log (env st_long_clip))).
  { vm_compute. intros [H | [H | [H | [H | []]]]]; discriminate H. }
  split; [exact Hc |]. split; [exact Hl |]. split; [exact Hst |].
  split; [exact Hps |]. split; [exact Hap |].
  split; [exact Hin |]. split; [exact Hnot |].
  split.
  - destruct (Hlog _ Hin) as [H | H]; [exfalso; exact (Hnot H) | exact H].
  - intros w Hw. exact (Hsave _ w Hw).
Defined.


(** ** The playback thread *)

Section Range.
Variable step : nat.
Hypothesis step_pos : 0 < step.

Lemma range_fuel_enough stop : forall f f' start,
  stop - start <= f -> stop - start <= f' ->
  Py.range_fuel f start stop step = Py.range_fuel f' start stop step.
Proof.
  induction f as [| f IH]; intros f' start Hf Hf'.
  - destruct f' as [| f']; [reflexivity |]. simpl.
    destruct (Nat.ltb_spec start stop); [lia | reflexivity].
  - destruct f' as [| f']; simpl.
    + destruct (Nat.ltb_spec start stop); [lia | reflexivity].
    + destruct (Nat.ltb_spec start stop); [| reflexivity].
      f_equal. apply IH; lia.
Qed.

(** One turn of the [for] header. *)
Lemma range_unfold start stop :
  Py.range start stop step
  = if start <? stop then start :: Py.range (start + step) stop step else [].
Proof.
  unfold Py.range.
  destruct (Nat.ltb_spec start stop) as [Hlt | Hge].
  - destruct (stop - start) as [| f] eqn:E; [lia |]. simpl.
    apply Nat.ltb_lt in Hlt. rewrite Hlt. f_equal.
    apply range_fuel_enough; lia.
  - replace (stop - start) with 0 by lia. reflexivity.
Qed.
End Range.

Section PlaybackThread.

Lemma chunk_bytes_pos : 0 < chunk_size * 2.
Proof. unfold chunk_size. lia. Qed.

Lemma byte_chunks_unfold b i :
  byte_chunks_from b i
  = if i <? length b
    then Py.slice i (i + chunk_size * 2) b :: byte_chunks_from b (i + chunk_size * 2)
    else [].
Proof.
  unfold byte_chunks_from. rewrite (range_unfold chunk_bytes_pos).
  destruct (i <? length b); reflexivity.
Qed.

Lemma slice_nonempty (b : list Z) i j : i < length b -> i < j ->
  0 < length (Py.slice i j b).
Proof.
  intros Hi Hj. unfold Py.slice. rewrite length_firstn, length_skipn. lia.
Qed.

Lemma is_open_filter h p e :
  is_open h e = false ->
  is_open h (set_streams (filter p (streams e)) e) = false.
Proof.
  unfold is_open. cbn [streams set_streams]. intros H.
  induction (streams e) as [| s l IH]; [reflexivity |].
  simpl in H. apply orb_false_iff in H as [Hs Hl].
  simpl. destruct (p s); simpl; [rewrite Hs |]; auto.
Qed.

Lemma is_open_close h e : is_open h (pa_close h e) = false.
Proof.
  unfold is_open, pa_close. cbn [streams set_streams].
  induction (streams e) as [| s l IH]; [reflexivity |].
  simpl. destruct (Pa.handle s =? h) eqn:E; simpl; [exact IH |].
  rewrite E. exact IH.
Qed.

Lemma run_app a b st : run (a ++ b) st = run b (run a st).
Proof. unfold run. apply fold_left_app. Qed.

(** Two thread steps write one chunk while the flag is set and the
    stream is open. *)
Lemma thread_writes_chunk st b i h :
  thread (env st) = ThLoop b i ->
  audio_playing st = true ->
  playback_stream st = Some h ->
  is_open h (env st) = true ->
  i < length b ->
  let st1 := thread_step st in
  let st2 := thread_step st1 in
  thread (env st1) = ThWrite b i
  /\ played (env st1) = played (env st)
  /\ audio_playing st1 = true /\ playback_stream st1 = Some h
  /\ is_open h (env st1) = true
  /\ thread (env st2) = ThLoop b (i + chunk_size * 2)
  /\ played (env st2) = played (env st) ++ [(h, Py.slice i (i + chunk_size * 2) b)]
  /\ audio_playing st2 = true /\ playback_stream st2 = Some h
  /\ is_open h (env st2) = true
  /\ after_queue (env st2) = after_queue (env st).
Proof.
  intros Hth Hplay Hps Hopen Hi st1 st2.
  assert (E1 : st1 = upd_env (set_thread (ThWrite b i)) st).
  { unfold st1, thread_step. rewrite Hth.
    apply Nat.ltb_lt in Hi. rewrite Hi, Hplay. reflexivity. }
  assert (Hne := @slice_nonempty b i (i + chunk_size * 2) Hi
                   ltac:(pose proof chunk_bytes_pos; lia)).
  apply Nat.ltb_lt in Hne.
  assert (E2 : st2 = upd_env (set_thread (ThLoop b (i + chunk_size * 2)))
                       (set_env (set_played
                          (played (env st) ++ [(h, Py.slice i (i + chunk_size * 2) b)])
                          (env st1)) st1)).
  { unfold st2, thread_step. rewrite E1 at 1 2 3. cbn [thread env upd_env set_env set_thread].
    rewrite Hne. rewrite E1 at 1. cbn [playback_stream upd_env set_env].
    rewrite Hps. unfold pa_write. rewrite E1 at 1.
    change (is_open h (env (upd_env (set_thread (ThWrite b i)) st)))
      with (is_open h (env st)).
    rewrite Hopen. rewrite E1. reflexivity. }
  rewrite E2, E1. cbn. auto 12.
Qed.

Lemma thread_writes_chunks k : forall st b i h,
  thread (env st) = ThLoop b i ->
  audio_playing st = true ->
  playback_stream st = Some h ->
  is_open h (env st) = true ->
  k <= length (byte_chunks_from b i) ->
  let st' := iter_thread (2 * k) st in
  thread (env st') = ThLoop b (i + k * (chunk_size * 2))
  /\ played (env st')
     = played (env st) ++ map (pair h) (firstn k (byte_chunks_from b i))
  /\ audio_playing st' = true /\ playback_stream st' = Some h
  /\ is_open h (env st') = true
  /\ after_queue (env st') = after_queue (env st).
Proof.
  induction k as [| k IH]; intros st b i h Hth Hplay Hps Hopen Hk st'.
  - subst st'. cbn. rewrite Nat.add_0_r, app_nil_r. auto 10.
  - rewrite byte_chunks_unfold in Hk |- *.
    destruct (Nat.ltb_spec i (length b)) as [Hi | Hi]; [| cbn [length] in Hk; lia].
    cbn [length] in Hk.
    destruct (@thread_writes_chunk st b i h Hth Hplay Hps Hopen Hi)
      as (_ & _ & _ & _ & _ & T2 & P2 & A2 & S2 & O2 & Q2).
    specialize (IH _ _ _ _ T2 A2 S2 O2 ltac:(lia)).
    destruct IH as (T & P & A & S' & O & Q).
    subst st'.
    replace (2 * S k) with (2 + 2 * k) by lia.
    unfold iter_thread in *. rewrite repeat_app, run_app.
    change (run (repeat ActThread 2) st) with (thread_step (thread_step st)).
    split; [rewrite T; f_equal; lia |].
    split; [rewrite P, P2, <- app_assoc; reflexivity |].
    rewrite Q, Q2. auto.
Qed.
End PlaybackThread.

Section Cancellation.
Variables (h : nat) (out : list (nat * list Z)).

Lemma stop_playback_steps st :
  stop_playback st = fold_left (fun s x => stop_step x s) stop_steps st.
Proof.
  destruct st as [? ? ? ? ? ? ? ? ? ? ? ? ps pa ? ? ? ? ? ? ? ? e].
  destruct e. destruct ps, pa; cbv; reflexivity.
Qed.

(** Run without the playback thread in between, the statements make up
    [stop_playback]. *)
Lemma stop_schedule_atomic st :
  run (stop_schedule 0 0 0 0 0) st = stop_playback st.
Proof. rewrite stop_playback_steps. reflexivity. Qed.

(** The thread writes to the environment only. *)
Lemma thread_step_frame st :
  audio_playing (thread_step st) = audio_playing st
  /\ playback_stream (thread_step st) = playback_stream st
  /\ playback_audio (thread_step st) = playback_audio st
  /\ streams (env (thread_step st)) = streams (env st).
Proof.
  unfold thread_step, thread_exit.
  destruct (thread (env st)) as [| | b i | b i |]; try (repeat split; reflexivity).
  - destruct (i <? length b); [| repeat split; reflexivity].
    destruct (negb (audio_playing st)); repeat split; reflexivity.
  - destruct (0 <? length _); [| repeat split; reflexivity].
    destruct (playback_stream st) as [n |] eqn:Es;
      [| repeat split; try reflexivity; exact Es].
    unfold pa_write.
    destruct (is_open n (env st)); repeat split; try reflexivity; exact Es.
Qed.

(** *** Between the clearing of the flag and the closing of the stream *)

(** A thread that is past its test writes the chunk it tested for. *)
Lemma thread_step_overrun st b i :
  flag_down h st -> thread (env st) = ThWrite b i ->
  flag_down h (thread_step st)
  /\ tested (thread_step st) = false
  /\ played (env (thread_step st))
     = played (env st) ++ [(h, Py.slice i (i + chunk_size * 2) b)]
  /\ playback_audio (thread_step st) = playback_audio st.
Proof.
  intros (Hp & Hs & Ho & Hin) Hth. unfold in_loop in Hin. rewrite Hth in Hin.
  assert (Hne := @slice_nonempty b i (i + chunk_size * 2) Hin
                   ltac:(pose proof chunk_bytes_pos; lia)).
  apply Nat.ltb_lt in Hne.
  assert (E : thread_step st
              = upd_env (set_thread (ThLoop b (i + chunk_size * 2)))
                  (set_env (set_played
                     (played (env st) ++ [(h, Py.slice i (i + chunk_size * 2) b)])
                     (env st)) st)).
  { unfold thread_step. rewrite Hth, Hne, Hs. unfold pa_write. rewrite Ho.
    reflexivity. }
  rewrite E. unfold flag_down.
  split; [split; [exact Hp | split; [exact Hs | split; [exact Ho | exact I]]] |].
  split; [reflexivity |]. split; reflexivity.
Qed.

(** A thread that comes to its test leaves the loop. *)
Lemma thread_step_leaves st :
  flag_down h st -> tested st = false ->
  flag_down h (thread_step st)
  /\ thread (env (thread_step st)) = ThDone
  /\ played (env (thread_step st)) = played (env st)
  /\ playback_audio (thread_step st) = playback_audio st.
Proof.
  intros (Hp & Hs & Ho & Hin) Ht. unfold in_loop in Hin. unfold tested in Ht.
  unfold flag_down, in_loop, thread_step, thread_exit.
  destruct (thread (env st)) as [| | b i | b i |] eqn:E;
    try contradiction; try discriminate.
  - rewrite Hp. cbn [negb].
    destruct (i <? length b);
      (split; [split; [exact Hp | split; [exact Hs | split; [exact Ho | exact I]]] |]);
      (split; [reflexivity |]); split; reflexivity.
  - rewrite E.
    split; [split; [exact Hp | split; [exact Hs | split; [exact Ho | exact I]]] |].
    split; [reflexivity |]. split; reflexivity.
Qed.

Lemma flag_down_idle g : forall st,
  flag_down h st -> tested st = false ->
  flag_down h (iter_thread g st)
  /\ tested (iter_thread g st) = false
  /\ played (env (iter_thread g st)) = played (env st)
  /\ playback_audio (iter_thread g st) = playback_audio st.
Proof.
  induction g as [| g IH]; intros st H Ht; [cbn; auto |].
  change (iter_thread (S g) st) with (iter_thread g (thread_step st)).
  destruct (thread_step_leaves H Ht) as (H1 & T1 & P1 & A1).
  assert (Ht1 : tested (thread_step st) = false) by (unfold tested; now rewrite T1).
  destruct (IH _ H1 Ht1) as (H2 & T2 & P2 & A2).
  repeat split; try apply H2; congruence.
Qed.

Lemma flag_down_steps g st :
  flag_down h st ->
  flag_down h (iter_thread g st)
  /\ playback_audio (iter_thread g st) = playback_audio st
  /\ played (env (iter_thread g st)) = played (env st) ++ overrun h g st.
Proof.
  intros H. destruct g as [| g].
  - unfold overrun. cbn [Nat.ltb Nat.leb].
    change (iter_thread 0 st) with st.
    destruct (thread (env st)); rewrite app_nil_r; auto.
  - change (iter_thread (S g) st) with (iter_thread g (thread_step st)).
    destruct (thread (env st)) as [| | b i | b i |] eqn:E.
    1,2,3,5:
      (assert (Ht : tested st = false) by (unfold tested; now rewrite E);
       destruct (thread_step_leaves H Ht) as (H1 & T1 & P1 & A1);
       assert (Ht1 : tested (thread_step st) = false)
         by (unfold tested; now rewrite T1);
       destruct (flag_down_idle g H1 Ht1) as (H2 & _ & P2 & A2);
       unfold overrun; rewrite E, app_nil_r;
       split; [exact H2 |]; split; congruence).
    destruct (thread_step_overrun H E) as (H1 & Ht1 & P1 & A1).
    destruct (flag_down_idle g H1 Ht1) as (H2 & _ & P2 & A2).
    unfold overrun. rewrite E. change (0 <? S g) with true.
    split; [exact H2 |]. split; congruence.
Qed.

(** *** After the stream has been closed *)

Lemma quiet_thread_step st :
  quiet h out st ->
  quiet h out (thread_step st) /\ thread (env (thread_step st)) = ThDone.
Proof.
  intros (Hp & Ho & Hout & Hs & Hin). unfold in_loop in Hin.
  unfold quiet, in_loop, thread_step, thread_exit.
  destruct (thread (env st)) as [| | b i | b i |] eqn:E; try contradiction.
  - rewrite Hp. cbn [negb].
    destruct (i <? length b);
      (split; [split; [exact Hp | split; [exact Ho | split; [exact Hout |
               split; [exact Hs | exact I]]]] | reflexivity]).
  - assert (Hne := @slice_nonempty b i (i + chunk_size * 2) Hin
                     ltac:(pose proof chunk_bytes_pos; lia)).
    apply Nat.ltb_lt in Hne. rewrite Hne.
    destruct Hs as [Hs | Hs]; rewrite Hs.
    + split; [split; [exact Hp | split; [exact Ho | split; [exact Hout |
              split; [left; exact Hs | exact I]]]] | reflexivity].
    + unfold pa_write. rewrite Ho.
      split; [split; [exact Hp | split; [exact Ho | split; [exact Hout |
              split; [right; exact Hs | exact I]]]] | reflexivity].
  - rewrite E.
    split; [split; [exact Hp | split; [exact Ho | split; [exact Hout |
            split; [exact Hs | exact I]]]] | reflexivity].
Qed.

Lemma quiet_run_callback cb st :
  quiet h out st ->
  quiet h out (run_callback cb st)
  /\ thread (env (run_callback cb st)) = thread (env st).
Proof.
  intros (Hp & Ho & Hout & Hs & Hin). unfold quiet, in_loop, is_open in *.
  destruct cb; cbn [run_callback].
  - destruct (update_visualization_frame st) as (F & _). frame_rw F. auto 10.
  - assert (F := update_recording_duration_frame st). frame_rw F. auto 10.
  - split; [split; [reflexivity | split; [exact Ho | split; [exact Hout |
            split; [exact Hs | exact Hin]]]] | reflexivity].
Qed.

Lemma quiet_dispatch i st :
  quiet h out st ->
  quiet h out (dispatch i st)
  /\ thread (env (dispatch i st)) = thread (env st).
Proof.
  intros H. unfold dispatch.
  destruct (nth_error (after_queue (env st)) i) as [cb |]; [| auto].
  set (st1 := upd_env _ st).
  exact (@quiet_run_callback cb st1 H).
Qed.

Lemma quiet_stop_step s st :
  quiet h out st ->
  quiet h out (stop_step s st)
  /\ thread (env (stop_step s st)) = thread (env st).
Proof.
  intros (Hp & Ho & Hout & Hs & Hin). unfold quiet, in_loop.
  destruct s; cbn [stop_step].
  - split; [split; [reflexivity | split; [exact Ho | split; [exact Hout |
            split; [exact Hs | exact Hin]]]] | reflexivity].
  - destruct (playback_stream st) as [n |] eqn:En.
    + split; [| reflexivity].
      split; [exact Hp |].
      split; [apply (@is_open_filter h _ (env st)); exact Ho |].
      split; [exact Hout |].
      split; [destruct Hs as [Hs | Hs];
              [discriminate | right; injection Hs as ->; exact En] | exact Hin].
    + split; [split; [exact Hp | split; [exact Ho | split; [exact Hout |
              split; [left; exact En | exact Hin]]]] | reflexivity].
  - destruct (playback_stream st) as [n |] eqn:En.
    + split; [split; [exact Hp | split; [exact Ho | split; [exact Hout |
              split; [left; reflexivity | exact Hin]]]] | reflexivity].
    + split; [split; [exact Hp | split; [exact Ho | split; [exact Hout |
              split; [left; exact En | exact Hin]]]] | reflexivity].
  - destruct (playback_audio st) as [n |].
    + split; [| reflexivity].
      split; [exact Hp |].
      split; [apply (@is_open_filter h _ (env st)); exact Ho |].
      split; [exact Hout |]. split; [exact Hs | exact Hin].
    + split; [split; [exact Hp | split; [exact Ho | split; [exact Hout |
              split; [exact Hs | exact Hin]]]] | reflexivity].
  - destruct (playback_audio st) as [n |];
      (split; [split; [exact Hp | split; [exact Ho | split; [exact Hout |
               split; [exact Hs | exact Hin]]]] | reflexivity]).
  - split; [split; [exact Hp | split; [exact Ho | split; [exact Hout |
            split; [exact Hs | exact Hin]]]] | reflexivity].
Qed.

Lemma quiet_act a st :
  quiet h out st ->
  quiet h out (act a st)
  /\ (a = ActThread \/ thread (env st) = ThDone -> thread (env (act a st)) = ThDone).
Proof.
  intros H. destruct a as [| i | s]; cbn [act].
  - destruct (quiet_thread_step H) as (H' & E). auto.
  - destruct (quiet_dispatch i H) as (H' & E).
    split; [exact H' |]. rewrite E. intros [[=] | Hd]. exact Hd.
  - destruct (quiet_stop_step s H) as (H' & E).
    split; [exact H' |]. rewrite E. intros [[=] | Hd]. exact Hd.
Qed.

Lemma quiet_run acts : forall st,
  quiet h out st ->
  quiet h out (run acts st)
  /\ (In ActThread acts \/ thread (env st) = ThDone ->
      thread (env (run acts st)) = ThDone).
Proof.
  induction acts as [| a acts IH]; intros st H.
  - cbn. split; [exact H |]. intros [[] | Hd]. exact Hd.
  - change (run (a :: acts) st) with (run acts (act a st)).
    destruct (quiet_act a H) as (H' & Hd').
    destruct (IH _ H') as (H'' & Hd'').
    split; [exact H'' |].
    intros [[-> | Hr] | Hd]; auto.
Qed.
End Cancellation.

Section Dropped.

Lemma run_cons a acts st : run (a :: acts) st = run acts (act a st).
Proof. reflexivity. Qed.

Lemma run_nil st : run [] st = st.
Proof. reflexivity. Qed.

(** A handle or an instance that has been dropped stays dropped. *)
Lemma act_keeps_dropped a st :
  (playback_stream st = None -> playback_stream (act a st) = None)
  /\ (playback_audio st = None -> playback_audio (act a st) = None).
Proof.
  destruct a as [| i | s]; cbn [act].
  - destruct (thread_step_frame st) as (_ & -> & -> & _). auto.
  - unfold dispatch.
    destruct (nth_error (after_queue (env st)) i) as [cb |]; [| auto].
    destruct cb; cbn [run_callback].
    + match goal with |- context [update_visualization ?s] =>
        destruct (update_visualization_frame s) as (F & _); frame_rw F
      end. split; intros H; exact H.
    + match goal with |- context [update_recording_duration ?s] =>
        assert (F := update_recording_duration_frame s); frame_rw F
      end. split; intros H; exact H.
    + split; intros H; exact H.
  - destruct s; cbn [stop_step].
    + split; intros H; exact H.
    + destruct (playback_stream st) eqn:E; split; intros H;
        try discriminate; try reflexivity; try exact H; exact E.
    + destruct (playback_stream st) eqn:E; split; intros H;
        try discriminate; try reflexivity; try exact H; exact E.
    + destruct (playback_audio st) eqn:E; split; intros H;
        try discriminate; try reflexivity; try exact H; exact E.
    + destruct (playback_audio st) eqn:E; split; intros H;
        try discriminate; try reflexivity; try exact H; exact E.
    + split; intros H; exact H.
Qed.

Lemma run_keeps_dropped acts : forall st,
  (playback_stream st = None -> playback_stream (run acts st) = None)
  /\ (playback_audio st = None -> playback_audio (run acts st) = None).
Proof.
  induction acts as [| a acts IH]; intros st; [auto |].
  change (run (a :: acts) st) with (run acts (act a st)).
  destruct (act_keeps_dropped a st) as (Hs & Ha).
  destruct (IH (act a st)) as (Hs' & Ha'). auto.
Qed.

Lemma stop_step_drops st :
  playback_stream (stop_step StopDropStream st) = None
  /\ playback_audio (stop_step StopDropInstance st) = None.
Proof.
  cbn [stop_step].
  destruct (playback_stream st) eqn:Es, (playback_audio st) eqn:Ea; auto.
Qed.

Lemma firstn_succ_chunks b k : forall i,
  k < length (byte_chunks_from b i) ->
  i + k * (chunk_size * 2) < length b
  /\ firstn (S k) (byte_chunks_from b i)
     = firstn k (byte_chunks_from b i)
       ++ [Py.slice (i + k * (chunk_size * 2))
                    (i + k * (chunk_size * 2) + chunk_size * 2) b].
Proof.
  induction k as [| k IH]; intros i Hk;
    rewrite byte_chunks_unfold in Hk |- *;
    destruct (Nat.ltb_spec i (length b)) as [Hi | Hi]; cbn [length] in Hk; try lia.
  - rewrite Nat.mul_0_l, Nat.add_0_r. split; [exact Hi | reflexivity].
  - destruct (IH (i + chunk_size * 2) ltac:(lia)) as (Hlt & Hf).
    replace (i + S k * (chunk_size * 2))
      with (i + chunk_size * 2 + k * (chunk_size * 2)) by lia.
    split; [exact Hlt |].
    change (firstn (S (S k)) (?x :: ?l)) with (x :: firstn (S k) l).
    rewrite Hf. reflexivity.
Qed.
End Dropped.

(** A stop request that comes between the thread's flag test and its
    write does not hold the write back.  The clip has two chunks (2048
    and 952 bytes).  The thread writes the first and tests the flag for
    the second; [stop_playback] clears the flag; the thread, scheduled
    before [stop_playback] reaches [stop_stream()], writes the second
    chunk.  When the stop is complete the device has received both. *)
Lemma stop_request_can_be_overrun :
  let chunks := byte_chunks (Np.tobytes (Deque.items (audio_buffer st_playing))) in
  let requested := run (repeat ActThread 4 ++ [ActStop StopFlag]) st_playing in
  let st' := run (repeat ActThread 4 ++ stop_schedule 1 0 0 0 0) st_playing in
  map (@length Z) chunks = [2048; 952]
  /\ audio_playing requested = false
  /\ played (env requested) = map (pair 4) (firstn 1 chunks)
  /\ played (env st') = map (pair 4) (firstn 2 chunks)
  /\ playback_stopped st'
  /\ is_open 4 (env st') = false.
Proof. vm_compute. repeat split; reflexivity. Qed.

(** C7, as amended.  The thread tests [audio_playing] before every
    chunk, but the test and the write are two steps, and so are the
    clearing of the flag and the closing of the stream in
    [stop_playback].  Take a playback that has just been started on a
    clip of [n] chunks and let the thread write [k < n] of them and
    then either stand before its next test ([m = 1 + 2k] thread steps)
    or between that test and the write ([m = 2 + 2k]).  Let
    [stop_playback] run from there, statement by statement, with the
    thread scheduled any number of times in between.  Then chunk [k+1]
    is written exactly when the thread had passed its test and runs
    before the stream is closed ([0 < g1]); no later chunk ever is.  In
    every case the session ends stopped (flag cleared, stream handle and
    instance dropped) with the stream closed, whatever the thread and
    the main loop do afterwards ([rest]), and the thread has ended as
    soon as it has run once more. *)
Theorem playback_cancellation st h k m g1 g2 g3 g4 g5 rest :
  thread (env st) = ThStart ->
  audio_playing st = true ->
  playback_stream st = Some h ->
  is_open h (env st) = true ->
  let chunks := byte_chunks (Np.tobytes (Deque.items (audio_buffer st))) in
  k < length chunks ->
  m = 1 + 2 * k \/ m = 2 + 2 * k ->
  let late := if (m =? 2 + 2 * k) && (0 <? g1) then 1 else 0 in
  let st' :=
    run (repeat ActThread m ++ stop_schedule g1 g2 g3 g4 g5 ++ rest) st in
  played (env st') = played (env st) ++ map (pair h) (firstn (k + late) chunks)
  /\ playback_stopped st'
  /\ is_open h (env st') = false
  /\ (In ActThread rest -> thread (env st') = ThDone).
Proof.
  intros Hth Hplay Hps Hopen chunks Hk Hm late st'.
  set (b := Np.tobytes (Deque.items (audio_buffer st))) in *.
  set (st1 := thread_step st).
  assert (E1 : st1 = upd_env (set_thread (ThLoop b 0)) st).
  { unfold st1, thread_step. rewrite Hth. reflexivity. }
  assert (T1 : thread (env st1) = ThLoop b 0) by (rewrite E1; reflexivity).
  assert (A1 : audio_playing st1 = true) by (rewrite E1; exact Hplay).
  assert (S1 : playback_stream st1 = Some h) by (rewrite E1; exact Hps).
  assert (O1 : is_open h (env st1) = true) by (rewrite E1; exact Hopen).
  assert (P1 : played (env st1) = played (env st)) by (rewrite E1; reflexivity).
  destruct (@thread_writes_chunks k st1 b 0 h T1 A1 S1 O1 ltac:(unfold chunks, byte_chunks in Hk; lia))
    as (T & P & A & S' & O & _).
  fold (byte_chunks b) in P. fold chunks in P. rewrite P1 in P.
  set (stk := iter_thread (2 * k) st1) in *.
  destruct (@firstn_succ_chunks b k 0 Hk) as (Hi & Hnext).
  fold (byte_chunks b) in Hnext. fold chunks in Hnext.
  (* the state when the flag has just been cleared *)
  assert (Hflag : exists sf,
             run (repeat ActThread m ++ [ActStop StopFlag]) st = sf
             /\ flag_down h sf
             /\ played (env sf) ++ overrun h g1 sf
                = played (env st) ++ map (pair h) (firstn (k + late) chunks)).
  { destruct Hm as [-> | ->].
    - exists (stop_step StopFlag stk). split.
      + rewrite run_app, repeat_app, run_app. reflexivity.
      + split.
        * split; [reflexivity |]. split; [exact S' |]. split; [exact O |].
          unfold in_loop. cbn [stop_step].
          change (thread (env (set_audio_playing false stk))) with (thread (env stk)).
          rewrite T. exact I.
        * unfold overrun. cbn [stop_step].
          change (thread (env (set_audio_playing false stk))) with (thread (env stk)).
          rewrite T, app_nil_r.
          change (played (env (set_audio_playing false stk))) with (played (env stk)).
          unfold late. replace (1 + 2 * k =? 2 + 2 * k) with false
            by (symmetry; apply Nat.eqb_neq; lia).
          cbn [andb]. rewrite Nat.add_0_r. exact P.
    - destruct (@thread_writes_chunk stk b _ h T A S' O Hi)
        as (T2 & P2 & A2 & S2 & O2 & _).
      exists (stop_step StopFlag (thread_step stk)). split.
      + replace (2 + 2 * k) with (1 + 2 * k + 1) by lia.
        rewrite run_app, !repeat_app, !run_app. reflexivity.
      + split.
        * split; [reflexivity |]. split; [exact S2 |]. split; [exact O2 |].
          unfold in_loop. cbn [stop_step].
          change (thread (env (set_audio_playing false (thread_step stk))))
            with (thread (env (thread_step stk))).
          rewrite T2. exact Hi.
        * unfold overrun. cbn [stop_step].
          change (thread (env (set_audio_playing false (thread_step stk))))
            with (thread (env (thread_step stk))).
          change (played (env (set_audio_playing false (thread_step stk))))
            with (played (env (thread_step stk))).
          rewrite T2, P2, P. unfold late. rewrite Nat.eqb_refl. cbn [andb].
          destruct (0 <? g1).
          -- rewrite Nat.add_1_r, Hnext, map_app, app_assoc. reflexivity.
          -- now rewrite Nat.add_0_r, app_nil_r. }
  destruct Hflag as (sf & Hrun & Hfd & Hpl).
  destruct (flag_down_steps g1 Hfd) as (Hfd1 & _ & Hpl1).
  rewrite Hpl in Hpl1.
  set (sg := iter_thread g1 sf) in *.
  (* the stream is closed *)
  assert (Hq : quiet h (played (env st) ++ map (pair h) (firstn (k + late) chunks))
                 (stop_step StopClose sg)).
  { destruct Hfd1 as (Fp & Fs & Fo & Fin). unfold quiet. cbn [stop_step].
    rewrite Fs.
    split; [exact Fp |]. split; [apply is_open_close |].
    split; [exact Hpl1 |]. split; [right; exact Fs | exact Fin]. }
  (* the handle is dropped, then the instance *)
  set (s2 := stop_step StopClose sg) in *.
  set (s4 := run (repeat ActThread g2 ++ [ActStop StopDropStream]) s2).
  set (s8 := run ((repeat ActThread g3 ++ ActStop StopTerminate :: repeat ActThread g4)
                  ++ [ActStop StopDropInstance]) s4).
  assert (Hst : st' = run (repeat ActThread g5 ++ ActStop StopStatus :: rest) s8).
  { unfold st', s8, s4, s2, sg, iter_thread, stop_schedule. rewrite <- Hrun.
    repeat (rewrite run_app || rewrite run_cons || rewrite run_nil).
    reflexivity. }
  destruct (quiet_run (repeat ActThread g2 ++ [ActStop StopDropStream]) Hq)
    as (Q4 & _). fold s4 in Q4.
  assert (D4 : playback_stream s4 = None).
  { unfold s4. rewrite run_app, run_cons, run_nil. apply stop_step_drops. }
  destruct (quiet_run ((repeat ActThread g3 ++ ActStop StopTerminate :: repeat ActThread g4)
                       ++ [ActStop StopDropInstance]) Q4) as (Q8 & _).
  fold s8 in Q8.
  assert (D8 : playback_stream s8 = None /\ playback_audio s8 = None).
  { split.
    - unfold s8. apply run_keeps_dropped, D4.
    - unfold s8. rewrite run_app, run_cons, run_nil. apply stop_step_drops. }
  destruct D8 as (D8s & D8a).
  destruct (quiet_run (repeat ActThread g5 ++ ActStop StopStatus :: rest) Q8)
    as (Q' & Hdone).
  rewrite <- Hst in Q', Hdone.
  destruct Q' as (Qp & Qo & Qout & _ & _).
  split; [exact Qout |].
  split; [| split; [exact Qo |]].
  - split; [exact Qp |]. rewrite Hst.
    split; apply run_keeps_dropped; assumption.
  - intros Hr. apply Hdone. left.
    apply in_or_app. right. right. exact Hr.
Qed.

(** A clip of two chunks, stopped after the first; the thread stands at
    its test, and at its write. *)
Lemma playback_cancellation_witness :
  thread (env st_playing) = ThStart
  /\ audio_playing st_playing = true
  /\ playback_stream st_playing = Some 4
  /\ is_open 4 (env st_playing) = true
  /\ 1 < length (byte_chunks (Np.tobytes (Deque.items (audio_buffer st_playing))))
  /\ played (env (run (repeat ActThread 3 ++ stop_schedule 2 0 1 0 0
                       ++ [ActThread; ActDispatch 0]) st_playing))
     = played (env st_playing)
       ++ map (pair 4)
              (firstn 1 (byte_chunks (Np.tobytes (Deque.items (audio_buffer st_playing)))))
  /\ played (env (run (repeat ActThread 4 ++ stop_schedule 0 1 0 0 0
                       ++ [ActThread; ActDispatch 0]) st_playing))
     = played (env st_playing)
       ++ map (pair 4)
              (firstn 1 (byte_chunks (Np.tobytes (Deque.items (audio_buffer st_playing)))))
  /\ playback_stopped
       (run (repeat ActThread 3 ++ stop_schedule 2 0 1 0 0
             ++ [ActThread; ActDispatch 0]) st_playing)
  /\ thread (env (run (repeat ActThread 3 ++ stop_schedule 2 0 1 0 0
                       ++ [ActThread; ActDispatch 0]) st_playing)) = ThDone.
Proof.
  assert (H1 : thread (env st_playing) = ThStart) by (vm_compute; reflexivity).
  assert (H2 : audio_playing st_playing = true) by (vm_compute; reflexivity).
  assert (H3 : playback_stream st_playing = Some 4) by (vm_compute; reflexivity).
  assert (H4 : is_open 4 (env st_playing) = true) by (vm_compute; reflexivity).
  assert (Hk : 1 < length (byte_chunks (Np.tobytes (Deque.items (audio_buffer st_playing))))).
  { apply Nat.ltb_lt. vm_compute. reflexivity. }
  destruct (@playback_cancellation st_playing 4 1 3 2 0 1 0 0 [ActThread; ActDispatch 0]
              H1 H2 H3 H4 Hk (or_introl eq_refl))
    as (Hp & Hs & Ho & Hd).
  destruct (@playback_cancellation st_playing 4 1 4 0 1 0 0 0 [ActThread; ActDispatch 0]
              H1 H2 H3 H4 Hk (or_intror eq_refl))
    as (Hp' & _).
  split; [exact H1 |]. split; [exact H2 |]. split; [exact H3 |].
  split; [exact H4 |]. split; [exact Hk |]. split; [exact Hp |].
  split; [exact Hp' |].
  split; [exact Hs |]. apply Hd. left. reflexivity.
Defined.

Section Completion.

Lemma byte_chunks_cover b : forall f i,
  length b - i <= f ->
  length b <= i + length (byte_chunks_from b i) * (chunk_size * 2).
Proof.
  induction f as [| f IH]; intros i Hf; rewrite byte_chunks_unfold;
    destruct (Nat.ltb_spec i (length b)) as [Hi | Hi]; cbn [length]; try lia.
  assert (P := chunk_bytes_pos).
  specialize (IH (i + chunk_size * 2) ltac:(lia)). lia.
Qed.

(** Left alone, the thread writes every chunk and then asks the main
    loop to run [_playback_finished]; the stream stays open. *)
Lemma playback_runs_to_completion st h :
  thread (env st) = ThStart ->
  audio_playing st = true ->
  playback_stream st = Some h ->
  is_open h (env st) = true ->
  let chunks := byte_chunks (Np.tobytes (Deque.items (audio_buffer st))) in
  let st' := iter_thread (1 + 2 * length chunks + 1) st in
  played (env st') = played (env st) ++ map (pair h) chunks
  /\ thread (env st') = ThDone
  /\ after_queue (env st') = after_queue (env st) ++ [CbPlaybackFinished]
  /\ playback_stream st' = Some h
  /\ is_open h (env st') = true.
Proof.
  intros Hth Hplay Hps Hopen chunks st'.
  set (b := Np.tobytes (Deque.items (audio_buffer st))) in *.
  set (st1 := thread_step st).
  assert (E1 : st1 = upd_env (set_thread (ThLoop b 0)) st).
  { unfold st1, thread_step. rewrite Hth. reflexivity. }
  assert (T1 : thread (env st1) = ThLoop b 0) by (rewrite E1; reflexivity).
  assert (A1 : audio_playing st1 = true) by (rewrite E1; exact Hplay).
  assert (S1 : playback_stream st1 = Some h) by (rewrite E1; exact Hps).
  assert (O1 : is_open h (env st1) = true) by (rewrite E1; exact Hopen).
  destruct (@thread_writes_chunks (length chunks) st1 b 0 h T1 A1 S1 O1 (le_n _))
    as (T & P & A & S' & O & Q).
  fold (byte_chunks b) in P. fold chunks in P, T.
  rewrite firstn_all in P.
  set (stn := iter_thread (2 * length chunks) st1) in *.
  assert (Hrun : st' = thread_step stn).
  { unfold st', stn, st1, iter_thread. rewrite !repeat_app, !run_app. reflexivity. }
  assert (Hend := @byte_chunks_cover b (length b) 0 ltac:(lia)).
  fold (byte_chunks b) in Hend. fold chunks in Hend.
  assert (Hx : thread_step stn = thread_exit stn).
  { unfold thread_step. rewrite T.
    destruct (Nat.ltb_spec (0 + length chunks * (chunk_size * 2)) (length b)); [lia |].
    reflexivity. }
  rewrite Hrun, Hx. unfold thread_exit, after, upd_env.
  cbn [env set_env played after_queue thread set_thread set_after_queue
       playback_stream is_open streams].
  rewrite P, Q, E1. cbn. auto 10.
Qed.
End Completion.

(** The status line after a stop.  [stop_playback] writes "Playback
    stopped"; the thread, on leaving its loop, still queues
    [_playback_finished], and once the main loop runs it the line reads
    "Playback finished".  The flag and the handles stay as the stop left
    them. *)
Example status_line_after_stop :
  let stopped := run (repeat ActThread 3 ++ stop_schedule 0 0 0 0 0) st_playing in
  let exited := run [ActThread] stopped in
  let settled := run [ActDispatch 3] exited in
  audio_status_var stopped = StPlaybackStopped
  /\ nth_error (after_queue (env exited)) 3 = Some CbPlaybackFinished
  /\ audio_status_var settled = StPlaybackFinished
  /\ audio_playing settled = false
  /\ playback_stream settled = None.
Proof. vm_compute. repeat split; reflexivity. Qed.


(** ** The timer chain *)

Section TimerChain.

Lemma remove_nth_length (A : Type) (l : list A) : forall i,
  i < length l -> length (remove_nth i l) = length l - 1.
Proof.
  induction l as [| x r IH]; intros i Hi; [simpl in Hi; lia |].
  destruct i as [| j]; cbn [remove_nth length]; [lia |].
  cbn [length] in Hi. rewrite IH by lia. lia.
Qed.

Lemma update_visualization_idle st :
  capture_active st = false -> update_visualization st = st.
Proof.
  unfold capture_active, update_visualization. intros ->. reflexivity.
Qed.

Lemma run_callback_idle cb st :
  capture_active st = false ->
  capture_active (run_callback cb st) = false
  /\ after_queue (env (run_callback cb st)) = after_queue (env st).
Proof.
  intros H. destruct cb; cbn [run_callback].
  - rewrite update_visualization_idle by exact H. auto.
  - unfold update_recording_duration.
    unfold capture_active in H. apply orb_false_iff in H as [Hr Hl].
    rewrite Hr. cbn [andb].
    destruct (recording_start_time st); unfold capture_active; rewrite Hr, Hl; auto.
  - unfold capture_active in *. cbn. auto.
Qed.

Lemma dispatch_idle i st :
  capture_active st = false ->
  capture_active (dispatch i st) = false
  /\ after_queue (env (dispatch i st)) = remove_nth i (after_queue (env st)).
Proof.
  intros H. unfold dispatch.
  destruct (nth_error (after_queue (env st)) i) as [cb |] eqn:E.
  - set (st1 := upd_env _ st).
    destruct (@run_callback_idle cb st1 H) as (Hc & Hq). auto.
  - split; [exact H |].
    apply nth_error_None in E. revert i E.
    induction (after_queue (env st)) as [| x r IH]; intros i E; [now destruct i |].
    destruct i as [| j]; cbn [length] in E; [lia |].
    cbn [remove_nth]. f_equal. apply IH. lia.
Qed.

Lemma drain_idle n : forall st,
  capture_active st = false ->
  length (after_queue (env st)) = n ->
  let st' := Nat.iter n (dispatch 0) st in
  after_queue (env st') = [] /\ capture_active st' = false.
Proof.
  induction n as [| n IH]; intros st H Hlen.
  - cbn. split; [| exact H]. now apply length_zero_iff_nil.
  - cbv zeta. rewrite Nat.iter_succ_r.
    destruct (dispatch_idle 0 st H) as (Hc & Hq).
    apply IH; [exact Hc |].
    rewrite Hq, remove_nth_length by lia. lia.
Qed.
End TimerChain.

(** C8.  [update_visualization] queues itself again exactly when a
    capture is active at that point.  With none active it changes
    nothing; every callback the main loop then runs leaves the capture
    inactive and only shortens the timer queue, which is empty after as
    many dispatches as it had entries. *)
Theorem render_tick_reschedules_only_while_active st :
  after_queue (env (update_visualization st))
  = after_queue (env st)
    ++ (if capture_active st then [CbUpdateVisualization] else [])
  /\ (capture_active st = false ->
      update_visualization st = st
      /\ (forall i,
            capture_active (dispatch i st) = false
            /\ after_queue (env (dispatch i st)) = remove_nth i (after_queue (env st)))
      /\ let st' := Nat.iter (length (after_queue (env st))) (dispatch 0) st in
         after_queue (env st') = [] /\ capture_active st' = false).
Proof.
  split; [apply update_visualization_frame |].
  intros H. split; [apply update_visualization_idle; exact H |].
  split; [intros i; apply dispatch_idle; exact H |].
  apply drain_idle; [exact H | reflexivity].
Qed.

(** The queue left behind by LISTEN, RECORD, stop, stop. *)
Lemma render_tick_witness :
  capture_active st_clip = false
  /\ after_queue (env st_clip)
     = [CbUpdateRecordingDuration; CbUpdateVisualization; CbUpdateVisualization]
  /\ update_visualization st_clip = st_clip
  /\ after_queue (env (Nat.iter 3 (dispatch 0) st_clip)) = [].
Proof.
  destruct (render_tick_reschedules_only_while_active st_clip) as (_ & H).
  destruct (H eq_refl) as (Hid & _ & Hq & _).
  split; [reflexivity |]. split; [reflexivity |]. split; [exact Hid | exact Hq].
Defined.

(** ** The amplitude envelope *)

Section Envelope.
Import Analysis.
Local Open Scope Z_scope.

Lemma sum_square_const (A : Z) n :
  Np.sum (Np.square (repeat A n)) = Z.of_nat n * Np.wrap16 (A * A).
Proof.
  induction n as [| n IH]; [reflexivity |].
  cbn [repeat Np.square map Np.sum fold_right].
  change (fold_right Z.add 0 (map (fun x => Np.wrap16 (x * x)) (repeat A n)))
    with (Np.sum (Np.square (repeat A n))).
  rewrite IH. lia.
Qed.

Lemma wrap16_small z : -32768 <= z < 32768 -> Np.wrap16 z = z.
Proof. intros H. unfold Np.wrap16. rewrite Z.mod_small; lia. Qed.

Lemma wrap16_range z : -32768 <= Np.wrap16 z < 32768.
Proof.
  unfold Np.wrap16. assert (H := Z.mod_pos_bound (z + 32768) 65536). lia.
Qed.

(** Squares stay exact only up to |A| = 181. *)
Lemma square_exact_iff (A : Z) :
  -32768 <= A < 32768 ->
  (Np.wrap16 (A * A) = A * A <-> -181 <= A <= 181).
Proof.
  intros HA. split.
  - intros H. assert (R := wrap16_range (A * A)). rewrite H in R. nia.
  - intros H. apply wrap16_small. nia.
Qed.

(** A silent window of any length up to the window size gives 0. *)
Lemma rms_silence n :
  (1 <= n <= window_size)%nat ->
  PrimFloat.eqb (rms (repeat 0 n)) 0%float = true.
Proof.
  intros Hn.
  assert (H : forallb (fun n => PrimFloat.eqb (rms (repeat 0 n)) 0%float)
                      (seq 1 window_size) = true) by (vm_compute; reflexivity).
  rewrite forallb_forall in H. apply H. apply in_seq. unfold window_size in *. lia.
Qed.

(** C1.  [np.square] is applied to [int16] data and wraps: the envelope
    is not the RMS of the window.  A window of 1000 samples all equal to
    1000 gives 0x1.04760c95db31p+7 (130.2305...), all equal to 256 or to -32768 gives 0, and all
    equal to 200 gives NaN. *)
Theorem envelope_squares_wrap_in_int16 :
  Np.square [1000; 200; 256; -32768] = [16960; -25536; 0; 0]
  /\ rms (repeat 1000 1000) = 0x1.04760c95db31p+7%float
  /\ rms (repeat 256 1000) = 0%float
  /\ rms (repeat (-32768) 1000) = 0%float
  /\ PrimFloat.is_nan (rms (repeat 200 1000)) = true
  /\ envelope_points (repeat 256 1000 ++ repeat 200 1000) 16000
     = Some ([0%float; 0.0625%float], [0%float; PrimFloat.nan]).
Proof. vm_compute. repeat split; reflexivity. Qed.
End Envelope.

(* ================================================================== *)
(** * Further properties *)

(** ** Negotiation as a state change *)

Section NegotiationFrame.
Variables (inst idx : nat) (info : Pa.DeviceInfo).

Lemma set_env_set_env e e' st : set_env e' (set_env e st) = set_env e' st.
Proof. destruct st; reflexivity. Qed.

(** The fallback loop writes the environment and, when a rate is taken,
    the two Tk variables, which then equal the locals it returns. *)
Lemma fallback_loop_frame rates : forall sr ch st,
  sample_rate_var st = sr -> channels_var st = ch ->
  let res := fallback_loop inst idx rates sr ch st in
  snd res
  = set_channels_var (snd (fst res))
      (set_sample_rate_var (fst (fst res)) (set_env (env (snd res)) st)).
Proof.
  induction rates as [| r rest IH]; intros sr ch st Hsr Hch; cbn [fallback_loop].
  - cbn [fst snd]. subst sr ch. destruct st; reflexivity.
  - destruct (probe inst idx r 1 (env st)) as [[|] e1].
    + cbn [fst snd]. destruct st; reflexivity.
    + specialize (IH sr ch (set_env e1 st) Hsr Hch). cbv zeta in IH.
      rewrite IH at 1. rewrite set_env_set_env. reflexivity.
Qed.

Lemma negotiate_frame st :
  let res := negotiate inst idx info st in
  snd res
  = set_channels_var (snd (fst res))
      (set_sample_rate_var (fst (fst res)) (set_env (env (snd res)) st)).
Proof.
  unfold negotiate.
  destruct (probe inst idx (sample_rate_var st) (channels_var st) (env st))
    as [[|] e1].
  - cbn [fst snd]. destruct st; reflexivity.
  - match goal with
    | |- context [probe inst idx ?r ?c ?e] =>
        destruct (probe inst idx r c e) as [[|] e2]
    end.
    + cbn [fst snd]. destruct st; reflexivity.
    + match goal with
      | |- context [fallback_loop inst idx ?rs ?sr ?ch ?s] =>
          assert (F := @fallback_loop_frame rs sr ch s eq_refl eq_refl);
          cbv zeta in F; cbv zeta; rewrite F at 1
      end.
      destruct st; reflexivity.
Qed.
End NegotiationFrame.

Section Probed.
Variables (inst idx : nat) (info : Pa.DeviceInfo).

Lemma probed_refl e : probed e e.
Proof. unfold probed. auto using keeps_refl. Qed.

Lemma probed_fresh e e' : probed e e' -> handles_fresh e -> handles_fresh e'.
Proof.
  intros (Hk & _ & _ & Hs) Hf. unfold handles_fresh. rewrite (Hs Hf).
  destruct Hk as (_ & _ & _ & _ & _ & _ & Hn & _).
  eapply Forall_impl; [| exact Hf]. intros s Hlt. simpl in Hlt. lia.
Qed.

Lemma probed_trans e1 e2 e3 : probed e1 e2 -> probed e2 e3 -> probed e1 e3.
Proof.
  intros H12 H23.
  assert (Hf := probed_fresh H12).
  destruct H12 as (Hk1 & Hq1 & Hi1 & Hs1), H23 as (Hk2 & Hq2 & Hi2 & Hs2).
  unfold probed. split; [eapply keeps_trans; eassumption |].
  split; [congruence |]. split; [congruence |].
  intros H. rewrite Hs2 by auto. auto.
Qed.

Lemma filter_fresh_handle (l : list Pa.Stream) h s' :
  Forall (fun s => Pa.handle s < h) l -> Pa.handle s' = h ->
  filter (fun s => negb (Pa.handle s =? h)) (l ++ [s']) = l.
Proof.
  intros Hl Hs'. rewrite filter_app. cbn [filter]. rewrite Hs', Nat.eqb_refl.
  cbn [negb]. rewrite app_nil_r.
  induction Hl as [| s l Hs Hl IH]; [reflexivity |].
  cbn [filter]. destruct (Nat.eqb_spec (Pa.handle s) h); [lia |].
  cbn [negb]. now rewrite IH.
Qed.

Lemma probe_probed r c e : probed e (snd (probe inst idx r c e)).
Proof.
  unfold probe, pa_open, probed, keeps.
  destruct (nth_error (devices e) idx) as [i |]; cbn [fst snd].
  2:{ cbn. repeat split; auto. }
  destruct (Pa.accepts i Pa.Input r c); cbn.
  - repeat split; auto.
    + intros s Hin Hlt. apply filter_In. split; [apply in_or_app; auto |].
      apply negb_true_iff, Nat.eqb_neq. lia.
    + intros Hf. apply filter_fresh_handle; [exact Hf | reflexivity].
  - repeat split; auto.
Qed.

Lemma fallback_loop_probed rates : forall sr ch st,
  probed (env st) (env (snd (fallback_loop inst idx rates sr ch st))).
Proof.
  induction rates as [| r rest IH]; intros sr ch st; cbn [fallback_loop].
  - apply probed_refl.
  - assert (P := probe_probed r 1 (env st)).
    destruct (probe inst idx r 1 (env st)) as [[|] e1]; cbn [snd] in P.
    + exact P.
    + eapply probed_trans; [exact P |]. apply (IH sr ch (set_env e1 st)).
Qed.

Lemma negotiate_probed st :
  probed (env st) (env (snd (negotiate inst idx info st))).
Proof.
  unfold negotiate.
  assert (P := probe_probed (sample_rate_var st) (channels_var st) (env st)).
  destruct (probe inst idx (sample_rate_var st) (channels_var st) (env st))
    as [[|] e1]; cbn [snd] in P; [exact P |].
  eapply probed_trans; [exact P |].
  match goal with
  | |- context [probe inst idx ?r ?c ?e] =>
      assert (P2 := probe_probed r c e);
      destruct (probe inst idx r c e) as [[|] e2]; cbn [snd] in P2
  end; [exact P2 |].
  eapply probed_trans; [exact P2 |].
  match goal with
  | |- context [fallback_loop inst idx ?rs ?sr ?ch ?s] =>
      exact (@fallback_loop_probed rs sr ch s)
  end.
Qed.
End Probed.

(** ** What a start does, in one equation *)

Section StartEquations.
Variables (idx : nat) (info : Pa.DeviceInfo).

Lemma start_listening_eq st :
  selected_device_index st = Some idx ->
  nth_error (devices (env st)) idx = Some info ->
  let inst := next_instance (env st) in
  let c := settled_config info (sample_rate_var st) (channels_var st) in
  exists e1,
    probed (set_next_instance (S inst) (env st)) e1
    /\ open_log e1
       = open_log (env st)
         ++ map (input_attempt idx)
              (tried (input_ok info)
                 (negotiation_candidates info (sample_rate_var st) (channels_var st)))
    /\ start_listening st
       = if input_ok info c
         then update_visualization
                (set_audio_status_var (StListeningFrom (Pa.name info))
                   (set_record_button_enabled true
                      (set_audio_listening true
                         (set_audio_stream (Some (next_handle e1))
                            (set_channels_var (snd c)
                               (set_sample_rate_var (fst c)
                                  (set_audio (Some inst)
                                     (set_env (capture_opened inst idx c e1) st))))))))
         else show ErrFailedToStartListening
                (set_channels_var (snd c)
                   (set_sample_rate_var (fst c)
                      (set_audio (Some inst)
                         (set_env (capture_refused idx c e1) st)))).
Proof.
  intros Hsel Hdev inst c. unfold start_listening.
  cbn [pa_new]. cbn [selected_device_index set_audio set_env env devices set_next_instance].
  rewrite Hsel, Hdev. fold inst.
  set (st0 := set_audio (Some inst) (set_env (set_next_instance (S inst) (env st)) st)).
  assert (Hdev0 : nth_error (devices (env st0)) idx = Some info) by exact Hdev.
  destruct (@negotiate_spec inst idx info st0 Hdev0) as (Hcfg & Hlog & Hk).
  assert (Hp := @negotiate_probed inst idx info st0).
  assert (Hf := @negotiate_frame inst idx info st0). cbv zeta in Hf.
  change (sample_rate_var st0) with (sample_rate_var st) in Hcfg, Hlog.
  change (channels_var st0) with (channels_var st) in Hcfg, Hlog.
  fold (settled_config info (sample_rate_var st) (channels_var st)) in Hcfg.
  fold c in Hcfg.
  destruct (negotiate inst idx info st0) as [[sr ch] st1].
  cbn [fst snd] in Hcfg, Hlog, Hk, Hp, Hf.
  assert (Hc : c = (sr, ch)) by (symmetry; exact Hcfg).
  assert (Hdev1 : nth_error (devices (env st1)) idx = Some info).
  { rewrite (keeps_devices Hk). exact Hdev0. }
  exists (env st1). split; [exact Hp |]. split; [exact Hlog |].
  unfold pa_open. rewrite Hdev1.
  unfold input_ok. rewrite Hc. cbn [fst snd].
  clear Hcfg Hlog Hk Hp Hdev1 Hc.
  remember (env st1) as e1 eqn:He1. clear He1. subst st1.
  destruct (Pa.accepts info Pa.Input sr ch).
  - unfold capture_opened, input_attempt, st0. destruct st; reflexivity.
  - unfold capture_refused, input_attempt, st0. destruct st; reflexivity.
Qed.
End StartEquations.

Section StartRecordingEquation.
Variables (idx : nat) (info : Pa.DeviceInfo).

Lemma start_recording_eq now st :
  selected_device_index st = Some idx ->
  nth_error (devices (env st)) idx = Some info ->
  let inst := next_instance (env st) in
  let c := settled_config info (sample_rate_var st) (channels_var st) in
  exists e1,
    probed (set_next_instance (S inst) (env st)) e1
    /\ open_log e1
       = open_log (env st)
         ++ map (input_attempt idx)
              (tried (input_ok info)
                 (negotiation_candidates info (sample_rate_var st) (channels_var st)))
    /\ start_recording now st
       = if input_ok info c
         then update_visualization
                (update_recording_duration
                   (set_audio_status_var (StRecordingFrom (Pa.name info))
                      (set_recording_start_time (Some now)
                         (set_audio_recording true
                            (set_audio_stream (Some (next_handle e1))
                               (set_channels_var (snd c)
                                  (set_sample_rate_var (fst c)
                                     (set_audio (Some inst)
                                        (set_env (capture_opened inst idx c e1) st)))))))))
         else show ErrFailedToStartRecording
                (set_channels_var (snd c)
                   (set_sample_rate_var (fst c)
                      (set_audio (Some inst)
                         (set_env (capture_refused idx c e1) st)))).
Proof.
  intros Hsel Hdev inst c. unfold start_recording.
  cbn [pa_new]. cbn [selected_device_index set_audio set_env env devices set_next_instance].
  rewrite Hsel, Hdev. fold inst.
  set (st0 := set_audio (Some inst) (set_env (set_next_instance (S inst) (env st)) st)).
  assert (Hdev0 : nth_error (devices (env st0)) idx = Some info) by exact Hdev.
  destruct (@negotiate_spec inst idx info st0 Hdev0) as (Hcfg & Hlog & Hk).
  assert (Hp := @negotiate_probed inst idx info st0).
  assert (Hf := @negotiate_frame inst idx info st0). cbv zeta in Hf.
  change (sample_rate_var st0) with (sample_rate_var st) in Hcfg, Hlog.
  change (channels_var st0) with (channels_var st) in Hcfg, Hlog.
  fold (settled_config info (sample_rate_var st) (channels_var st)) in Hcfg.
  fold c in Hcfg.
  destruct (negotiate inst idx info st0) as [[sr ch] st1].
  cbn [fst snd] in Hcfg, Hlog, Hk, Hp, Hf.
  assert (Hc : c = (sr, ch)) by (symmetry; exact Hcfg).
  assert (Hdev1 : nth_error (devices (env st1)) idx = Some info).
  { rewrite (keeps_devices Hk). exact Hdev0. }
  exists (env st1). split; [exact Hp |]. split; [exact Hlog |].
  unfold pa_open. rewrite Hdev1.
  unfold input_ok. rewrite Hc. cbn [fst snd].
  clear Hcfg Hlog Hk Hp Hdev1 Hc.
  remember (env st1) as e1 eqn:He1. clear He1. subst st1.
  destruct (Pa.accepts info Pa.Input sr ch).
  - unfold capture_opened, input_attempt, st0. destruct st; reflexivity.
  - unfold capture_refused, input_attempt, st0. destruct st; reflexivity.
Qed.
End StartRecordingEquation.

(** ** The render tick and the two histories *)

Section Pipeline.

Lemma plot_realtime_waveform_queue recent channels st :
  audio_data_queue (_plot_realtime_waveform recent channels st) = audio_data_queue st.
Proof.
  unfold _plot_realtime_waveform.
  destruct (channels =? 1)%Z; [reflexivity |].
  destruct (2 <=? length recent); reflexivity.
Qed.

Lemma plot_time_pattern_queue st :
  audio_data_queue (snd (_plot_time_pattern st)) = audio_data_queue st.
Proof.
  unfold _plot_time_pattern. cbn [time_pattern_buffer set_ax2 sample_rate_var].
  destruct (length _ <? 100); [reflexivity |].
  destruct (Analysis.time_pattern _ _); reflexivity.
Qed.

Lemma plot_amplitude_envelope_queue st :
  audio_data_queue (snd (_plot_amplitude_envelope st)) = audio_data_queue st.
Proof.
  unfold _plot_amplitude_envelope. cbn [time_pattern_buffer set_ax3 sample_rate_var].
  destruct (length _ <? 100); [reflexivity |].
  destruct (Analysis.envelope_points _ _) as [[tp ev] |]; [| reflexivity].
  destruct (1 <? length ev); reflexivity.
Qed.

Lemma update_panels_queue st :
  audio_data_queue (update_panels st) = audio_data_queue st.
Proof.
  unfold update_panels.
  set (st1 := _plot_realtime_waveform _ _ st).
  assert (Q1 : audio_data_queue st1 = audio_data_queue st)
    by apply plot_realtime_waveform_queue.
  destruct (1000 <? Deque.len (time_pattern_buffer st1)).
  - assert (Q2 := plot_time_pattern_queue st1).
    destruct (_plot_time_pattern st1) as [raised2 st2]. cbn [snd] in Q2.
    destruct raised2; [congruence |].
    destruct (100 <? Deque.len (time_pattern_buffer st2)); [| congruence].
    rewrite plot_amplitude_envelope_queue. congruence.
  - destruct (100 <? Deque.len (time_pattern_buffer st1)); [| congruence].
    rewrite plot_amplitude_envelope_queue. congruence.
Qed.

(** What a tick does to the queue and the short-term history. *)
Lemma update_visualization_drains st :
  capture_active st = true ->
  audio_buffer (update_visualization st)
  = Deque.extend (audio_buffer st) (concat (audio_data_queue st))
  /\ audio_data_queue (update_visualization st) = [].
Proof.
  unfold capture_active, update_visualization. intros Hact. rewrite Hact.
  cbn [negb].
  destruct (drain_queue_pushes st) as (Hb & Hq).
  destruct (drain_queue st) as [audio_data st1]. cbn [snd] in Hb, Hq.
  set (st2 := match audio_data with Some frame => _ | None => st1 end).
  assert (H2 : audio_buffer st2 = audio_buffer st1
               /\ audio_data_queue st2 = audio_data_queue st1).
  { unfold st2. destruct audio_data as [frame |]; [| auto].
    destruct (_ && _); [| auto].
    destruct (update_panels_frame st1) as (_ & _ & B).
    split; [exact B | apply update_panels_queue]. }
  destruct H2 as (B2 & Q2).
  destruct (audio_recording st2 || audio_listening st2); cbn; split; congruence.
Qed.

Lemma audio_callback_idle frame now st :
  capture_active st = false -> audio_callback frame now st = st.
Proof. unfold capture_active, audio_callback. intros ->. reflexivity. Qed.

Lemma audio_callback_active frame now st :
  capture_active st = true ->
  capture_active (audio_callback frame now st) = true
  /\ audio_buffer (audio_callback frame now st) = audio_buffer st
  /\ pattern_start_time (audio_callback frame now st)
     = match pattern_start_time st with Some t => Some t | None => Some now end.
Proof.
  unfold capture_active, audio_callback. intros H. rewrite H.
  destruct st as [? ? ? ? ? ? ? ? ? ? ? ? ? ? ? ? ? ? ? ? ? ? ?]; cbn in *.
  match goal with |- context [match ?p with Some _ => _ | None => _ end] =>
    destruct p end; cbn; auto.
Qed.

Lemma feed_active frames : forall st,
  capture_active st = true ->
  capture_active (feed frames st) = true
  /\ audio_buffer (feed frames st) = audio_buffer st
  /\ audio_data_queue (feed frames st) = audio_data_queue st ++ map fst frames
  /\ time_pattern_buffer (feed frames st)
     = Deque.extend (time_pattern_buffer st) (concat (map fst frames))
  /\ pattern_start_time (feed frames st)
     = match pattern_start_time st with
       | Some t => Some t
       | None => option_map snd (hd_error frames)
       end.
Proof.
  induction frames as [| [frame now] frames IH]; intros st Hact.
  - cbn. rewrite app_nil_r. destruct (pattern_start_time st); auto.
  - change (feed ((frame, now) :: frames) st)
      with (feed frames (audio_callback frame now st)).
    destruct (audio_callback_active frame now st Hact) as (Ha & Hb & Ht).
    destruct (audio_callback_pushes frame now st Hact) as (Hp & Hq).
    destruct (IH _ Ha) as (A & B & Q & P & T).
    split; [exact A |]. split; [congruence |].
    split; [rewrite Q, Hq, <- app_assoc; reflexivity |].
    split; [rewrite P, Hp, extend_app; cbn [map concat fst]; reflexivity |].
    rewrite T, Ht. cbn [hd_error option_map snd].
    destruct (pattern_start_time st); reflexivity.
Qed.
End Pipeline.

(** X6.  While a capture is active, one render tick moves every
    queued frame, oldest first, into the short-term history, which keeps
    its capacity and holds the last [maxlen] samples of what it held
    followed by the queued ones; the queue is empty afterwards and the
    long-term history is not touched. *)
Theorem tick_moves_queue_into_history st :
  capture_active st = true ->
  Deque.wf (audio_buffer st) ->
  let st' := update_visualization st in
  Deque.items (audio_buffer st')
  = Py.last_n (Deque.maxlen (audio_buffer st))
      (Deque.items (audio_buffer st) ++ concat (audio_data_queue st))
  /\ Deque.maxlen (audio_buffer st') = Deque.maxlen (audio_buffer st)
  /\ audio_data_queue st' = []
  /\ time_pattern_buffer st' = time_pattern_buffer st.
Proof.
  intros Hact Hwf st'.
  destruct (update_visualization_drains st Hact) as (Hb & Hq).
  destruct (extend_spec (concat (audio_data_queue st)) Hwf) as (Hi & Hm & _).
  destruct (update_visualization_frame st) as (F & _).
  subst st'. rewrite Hb. split; [exact Hi |]. split; [exact Hm |].
  split; [exact Hq |]. frame_rw F. reflexivity.
Qed.

(** X7.  Frames delivered while no capture is active are
    dropped: the state does not change.  Frames delivered while one is
    active, followed by a render tick, put the same samples in delivery
    order into both histories, and the pattern start time is the time of
    the first frame unless one was set already. *)
Theorem frames_reach_both_histories_in_order frames st :
  (capture_active st = false -> feed frames st = st)
  /\ (capture_active st = true ->
      audio_data_queue st = [] ->
      let samples := concat (map fst frames) in
      let st' := update_visualization (feed frames st) in
      audio_buffer st' = Deque.extend (audio_buffer st) samples
      /\ time_pattern_buffer st' = Deque.extend (time_pattern_buffer st) samples
      /\ audio_data_queue st' = []
      /\ pattern_start_time st'
         = match pattern_start_time st with
           | Some t => Some t
           | None => option_map snd (hd_error frames)
           end).
Proof.
  split.
  - intros Hidle. induction frames as [| [frame now] frames IH]; [reflexivity |].
    change (feed ((frame, now) :: frames) st)
      with (feed frames (audio_callback frame now st)).
    rewrite audio_callback_idle by exact Hidle. exact IH.
  - intros Hact Hempty samples st'.
    destruct (feed_active frames st Hact) as (A & B & Q & P & T).
    destruct (update_visualization_drains (feed frames st) A) as (Hb & Hq).
    destruct (update_visualization_frame (feed frames st)) as (F & _).
    subst st'. rewrite Hb, B, Q, Hempty. cbn [app].
    split; [reflexivity |]. split; [frame_rw F; exact P |].
    split; [exact Hq |]. frame_rw F. exact T.
Qed.

(** ** The capacities of the two histories *)

Section Bounded.

Lemma histories_bounded_same st st' :
  audio_buffer st' = audio_buffer st ->
  time_pattern_buffer st' = time_pattern_buffer st ->
  histories_bounded st -> histories_bounded st'.
Proof. unfold histories_bounded. intros -> ->. auto. Qed.

Lemma extend_bounded (d : Deque.t Z) xs n :
  Deque.maxlen d = n -> Deque.len d <= n ->
  Deque.maxlen (Deque.extend d xs) = n /\ Deque.len (Deque.extend d xs) <= n.
Proof.
  intros Hm Hl.
  assert (Hwf : Deque.wf d) by (unfold Deque.wf; fold (Deque.len d); lia).
  destruct (extend_spec xs Hwf) as (_ & Hm' & Hwf').
  unfold Deque.wf in Hwf'. fold (Deque.len (Deque.extend d xs)) in Hwf'.
  split; lia.
Qed.

Lemma update_visualization_buffer st :
  audio_buffer (update_visualization st)
  = if capture_active st
    then Deque.extend (audio_buffer st) (concat (audio_data_queue st))
    else audio_buffer st.
Proof.
  destruct (capture_active st) eqn:Hact.
  - apply update_visualization_drains, Hact.
  - now rewrite update_visualization_idle.
Qed.

Lemma update_visualization_bounded st :
  histories_bounded st -> histories_bounded (update_visualization st).
Proof.
  intros (A & B & C & D). unfold histories_bounded.
  destruct (update_visualization_frame st) as (F & _). frame_rw F.
  rewrite update_visualization_buffer.
  destruct (capture_active st); [| auto].
  destruct (@extend_bounded (audio_buffer st) (concat (audio_data_queue st)) _ A C).
  auto.
Qed.

Lemma update_recording_duration_buffer st :
  audio_buffer (update_recording_duration st) = audio_buffer st.
Proof.
  unfold update_recording_duration.
  destruct (recording_start_time st); [| reflexivity].
  destruct (_ && _); reflexivity.
Qed.

Lemma start_listening_bounded st :
  histories_bounded st -> histories_bounded (start_listening st).
Proof.
  intros H. unfold start_listening. cbn [pa_new].
  set (st0 := set_audio _ (set_env _ st)).
  assert (H0 : histories_bounded st0) by exact H.
  destruct (selected_device_index st0) as [idx |]; [| exact H0].
  destruct (nth_error (devices (env st0)) idx) as [info |]; [| exact H0].
  assert (Hf := @negotiate_frame (next_instance (env st)) idx info st0).
  cbv zeta in Hf.
  destruct (negotiate (next_instance (env st)) idx info st0) as [[sr ch] st1].
  cbn [fst snd] in Hf.
  assert (H1 : histories_bounded st1).
  { rewrite Hf. exact H0. }
  destruct (pa_open _ _ _ _ _ _ _) as [[h |] e2]; [| exact H1].
  apply update_visualization_bounded. exact H1.
Qed.

Lemma start_recording_bounded now st :
  histories_bounded st -> histories_bounded (start_recording now st).
Proof.
  intros H. unfold start_recording. cbn [pa_new].
  set (st0 := set_audio _ (set_env _ st)).
  assert (H0 : histories_bounded st0) by exact H.
  destruct (selected_device_index st0) as [idx |]; [| exact H0].
  destruct (nth_error (devices (env st0)) idx) as [info |]; [| exact H0].
  assert (Hf := @negotiate_frame (next_instance (env st)) idx info st0).
  cbv zeta in Hf.
  destruct (negotiate (next_instance (env st)) idx info st0) as [[sr ch] st1].
  cbn [fst snd] in Hf.
  assert (H1 : histories_bounded st1).
  { rewrite Hf. exact H0. }
  destruct (pa_open _ _ _ _ _ _ _) as [[h |] e2]; [| exact H1].
  apply update_visualization_bounded.
  eapply histories_bounded_same; [ | | exact H1].
  - rewrite update_recording_duration_buffer. reflexivity.
  - match goal with |- time_pattern_buffer (update_recording_duration ?s) = _ =>
      frame_rw (update_recording_duration_frame s) end.
    reflexivity.
Qed.

Lemma stop_listening_bounded st :
  histories_bounded st -> histories_bounded (stop_listening st).
Proof.
  intros (A & B & C & D). unfold histories_bounded.
  destruct (stop_listening_buffers st) as (Hb & Hi & Hm & _).
  unfold Deque.len in *. rewrite Hb, Hi, Hm. cbn [length].
  repeat split; auto. lia.
Qed.

Lemma stop_recording_bounded st :
  histories_bounded st -> histories_bounded (stop_recording st).
Proof.
  destruct (stop_recording_buffers st) as (Hb & Ht & _).
  apply histories_bounded_same with (st := st); assumption.
Qed.

Lemma start_playback_buffers st :
  audio_buffer (start_playback st) = audio_buffer st
  /\ time_pattern_buffer (start_playback st) = time_pattern_buffer st.
Proof.
  unfold start_playback.
  destruct (Deque.len (audio_buffer st) =? 0); [(split; reflexivity) |].
  cbn [pa_new]. cbn [env set_playback_audio set_env default_output set_next_instance].
  destruct (default_output (env st)) as [o |]; [| (split; reflexivity)].
  destruct (pa_open _ _ _ _ _ _ _) as [[h |] e1]; (split; reflexivity).
Qed.

Lemma stop_playback_buffers st :
  audio_buffer (stop_playback st) = audio_buffer st
  /\ time_pattern_buffer (stop_playback st) = time_pattern_buffer st.
Proof.
  unfold stop_playback.
  destruct (playback_stream (set_audio_playing false st));
    match goal with
    | |- context [match playback_audio ?s with Some _ => _ | None => _ end] =>
        destruct (playback_audio s)
    end; split; reflexivity.
Qed.

Lemma thread_step_buffers st :
  audio_buffer (thread_step st) = audio_buffer st
  /\ time_pattern_buffer (thread_step st) = time_pattern_buffer st.
Proof.
  unfold thread_step, thread_exit.
  destruct (thread (env st)) as [| | b i | b i |]; try (split; reflexivity).
  - destruct (i <? length b); [| (split; reflexivity)].
    destruct (negb (audio_playing st)); (split; reflexivity).
  - destruct (0 <? length _); [| (split; reflexivity)].
    destruct (playback_stream st) as [h |]; [| (split; reflexivity)].
    destruct (pa_write _ _ _); (split; reflexivity).
Qed.

Lemma audio_callback_bounded frame now st :
  histories_bounded st -> histories_bounded (audio_callback frame now st).
Proof.
  intros H. destruct (capture_active st) eqn:Hact.
  2:{ now rewrite audio_callback_idle. }
  destruct (audio_callback_active frame now st Hact) as (_ & Hb & _).
  destruct (audio_callback_pushes frame now st Hact) as (Hp & _).
  destruct H as (A & B & C & D). unfold histories_bounded.
  rewrite Hb, Hp.
  destruct (@extend_bounded (time_pattern_buffer st) frame _ B D). auto.
Qed.

Lemma run_callback_bounded cb st :
  histories_bounded st -> histories_bounded (run_callback cb st).
Proof.
  intros H. destruct cb; cbn [run_callback].
  - now apply update_visualization_bounded.
  - eapply histories_bounded_same; [ | | exact H].
    + apply update_recording_duration_buffer.
    + now frame_rw (update_recording_duration_frame st).
  - exact H.
Qed.

Lemma refresh_audio_devices_buffers st :
  audio_buffer (refresh_audio_devices st) = audio_buffer st
  /\ time_pattern_buffer (refresh_audio_devices st) = time_pattern_buffer st.
Proof.
  unfold refresh_audio_devices. cbn [pa_new].
  destruct (audio st) as [inst |];
    match goal with
    | |- context [find ?p ?l] => destruct (find p l) as [d |]
    end;
    match goal with
    | |- context [match device_list ?e with [] => _ | _ :: _ => _ end] =>
        destruct (device_list e)
    end; split; reflexivity.
Qed.

Lemma handle_event_bounded ev st :
  histories_bounded st -> histories_bounded (handle_event ev st).
Proof.
  intros H. destruct ev; cbn [handle_event].
  - exact H.
  - destruct (refresh_audio_devices_buffers st).
    apply histories_bounded_same with (st := st); assumption.
  - unfold click_listen, toggle_listening. destruct (audio_listening st).
    + now apply stop_listening_bounded.
    + now apply start_listening_bounded.
  - unfold click_record, toggle_recording.
    destruct (record_button_enabled st); [| exact H].
    destruct (negb (audio_recording st)).
    + now apply start_recording_bounded.
    + now apply stop_recording_bounded.
  - unfold click_playback, toggle_playback.
    destruct (playback_button_enabled st); [| exact H].
    destruct (audio_playing st).
    + destruct (stop_playback_buffers st). apply histories_bounded_same with (st := st); assumption.
    + destruct (start_playback_buffers st). apply histories_bounded_same with (st := st); assumption.
  - now apply audio_callback_bounded.
  - unfold dispatch. destruct (nth_error _ i); [| exact H].
    now apply run_callback_bounded.
  - destruct (thread_step_buffers st). apply histories_bounded_same with (st := st); assumption.
  - destruct H as (A & B & C & D). unfold histories_bounded, clear_audio_data.
    cbn. unfold Deque.len. cbn. repeat split; auto. lia.
  - unfold clear_recording. destruct confirmed; [| exact H].
    destruct H as (A & B & C & D). unfold histories_bounded.
    cbn. unfold Deque.len. cbn. repeat split; auto. lia.
Qed.
End Bounded.

(** X8.  Whatever the user, the driver, the timers and the
    playback thread do after start-up, and in whatever order, the
    short-term history keeps capacity 10,000 and the long-term history
    capacity 50,000, and neither ever holds more samples than that. *)
Theorem histories_stay_within_capacity devs dout evs :
  let st := run_events evs (__init__ devs dout) in
  Deque.maxlen (audio_buffer st) = Z.to_nat 10000
  /\ Deque.maxlen (time_pattern_buffer st) = Z.to_nat 50000
  /\ length (Deque.items (audio_buffer st)) <= Z.to_nat 10000
  /\ length (Deque.items (time_pattern_buffer st)) <= Z.to_nat 50000.
Proof.
  cbv zeta.
  assert (H0 : histories_bounded (__init__ devs dout)).
  { unfold histories_bounded, Deque.len. cbn. repeat split; apply Nat.le_0_l. }
  revert H0. generalize (__init__ devs dout).
  induction evs as [| ev evs IH]; intros st H.
  - exact H.
  - change (run_events (ev :: evs) st) with (run_events evs (handle_event ev st)).
    apply IH. now apply handle_event_bounded.
Qed.

(** ** Sessions and the streams they hold *)

Section Sound.
Variables (ss : list Pa.Stream) (nh ni : nat) (a_s p_s a p : option nat).
Hypothesis H : sound ss nh ni a_s p_s a p.

Lemma sound_fresh_handle s : In s ss -> Pa.handle s < nh.
Proof.
  destruct H as (F & _). rewrite Forall_forall in F. intros Hin.
  apply (F s Hin).
Qed.

Lemma sound_fresh_owner s : In s ss -> Pa.owner s < ni.
Proof.
  destruct H as (F & _). rewrite Forall_forall in F. intros Hin.
  apply (F s Hin).
Qed.

Lemma sound_handles_fresh : Forall (fun s => Pa.handle s < nh) ss.
Proof.
  destruct H as (F & _). eapply Forall_impl; [| exact F]. now intros s (? & _).
Qed.

Lemma kind_of_more cb h nh' :
  nh <= nh' -> kind_of cb h nh ss -> kind_of cb h nh' ss.
Proof.
  intros Hle K n Hn. destruct (K n Hn) as (Hlt & Hall). split; [lia | exact Hall].
Qed.

Lemma sound_more_handles nh' : nh <= nh' -> sound ss nh' ni a_s p_s a p.
Proof.
  intros Hle. destruct H as (F & A & P & R).
  split; [| split; [| split]].
  - eapply Forall_impl; [| exact F]. cbn. intros s (? & ?). lia.
  - now apply kind_of_more.
  - now apply kind_of_more.
  - exact R.
Qed.

Lemma sound_new_capture_instance : sound ss nh (S ni) a_s p_s (Some ni) p.
Proof.
  destruct H as (F & A & P & L & OA & OP & D).
  split; [| split; [exact A | split; [exact P | split; [exact L | split; [| split]]]]].
  - eapply Forall_impl; [| exact F]. cbn. intros s (? & ?). lia.
  - intros n [= <-]. split; [lia |].
    intros s Hin Ho. apply sound_fresh_owner in Hin. lia.
  - intros n Hn. destruct (OP n Hn) as (Hlt & Hall). split; [lia | exact Hall].
  - intros n [= <-] Hp. destruct (OP ni Hp). lia.
Qed.

Lemma sound_new_playback_instance : sound ss nh (S ni) a_s p_s a (Some ni).
Proof.
  destruct H as (F & A & P & L & OA & OP & D).
  split; [| split; [exact A | split; [exact P | split; [exact L | split; [| split]]]]].
  - eapply Forall_impl; [| exact F]. cbn. intros s (? & ?). lia.
  - intros n Hn. destruct (OA n Hn) as (Hlt & Hall). split; [lia | exact Hall].
  - intros n [= <-]. split; [lia |].
    intros s Hin Ho. apply sound_fresh_owner in Hin. lia.
  - intros n Hn [= <-]. destruct (OA ni Hn). lia.
Qed.
End Sound.

Section SoundOpen.
Variables (ss : list Pa.Stream) (nh ni : nat) (a_s p_s p a : option nat).
Variables (i idx : nat) (d : Pa.direction) (r c : Z).

Lemma kind_of_other cb h s' :
  Pa.handle s' = nh ->
  kind_of cb h nh ss -> kind_of cb h (S nh) (ss ++ [s']).
Proof.
  intros Hs' K n Hn. destruct (K n Hn) as (Hlt & Hall). split; [lia |].
  intros t Ht Htn. apply in_app_or in Ht as [Ht | [<- | []]]; [auto | lia].
Qed.

Lemma kind_of_new cb s' :
  Forall (fun s => Pa.handle s < nh /\ Pa.owner s < ni) ss ->
  Pa.handle s' = nh -> Pa.has_callback s' = cb ->
  kind_of cb (Some nh) (S nh) (ss ++ [s']).
Proof.
  intros F Hs' Hcb n [= <-]. split; [lia |].
  intros t Ht Htn. apply in_app_or in Ht as [Ht | [<- | []]]; [| exact Hcb].
  rewrite Forall_forall in F. apply F in Ht. lia.
Qed.

Lemma live_other h (s' : Pa.Stream) : live h ss -> live h (ss ++ [s']).
Proof.
  intros L n Hn. destruct (L n Hn) as (s & Hin & Hs).
  exists s. split; [apply in_or_app; auto | exact Hs].
Qed.

Lemma live_new (s' : Pa.Stream) :
  Pa.handle s' = nh -> live (Some nh) (ss ++ [s']).
Proof.
  intros Hs' n [= <-]. exists s'. split; [apply in_or_app; cbn; auto | exact Hs'].
Qed.

Lemma sound_open_capture :
  sound ss nh ni a_s p_s (Some i) p ->
  sound (ss ++ [Pa.Build_Stream nh i d idx r c true]) (S nh) ni
        (Some nh) p_s (Some i) p.
Proof.
  intros (F & A & P & L & OA & OP & D).
  assert (Hi : i < ni) by (apply (OA i eq_refl)).
  split; [| split; [| split; [| split; [| split; [| split]]]]].
  - apply Forall_app. split.
    + eapply Forall_impl; [| exact F]. cbn. intros s (? & ?). lia.
    + constructor; [cbn; lia | constructor].
  - apply kind_of_new; auto.
  - apply kind_of_other; auto.
  - now apply live_other.
  - intros n Hn. destruct (OA n Hn) as (Hlt & Hall). split; [exact Hlt |].
    intros t Ht Hto. apply in_app_or in Ht as [Ht | [<- | []]]; auto.
  - intros n Hn. destruct (OP n Hn) as (Hlt & Hall). split; [exact Hlt |].
    intros t Ht Hto. apply in_app_or in Ht as [Ht | [<- | []]]; [auto |].
    cbn in Hto. subst n. exfalso. exact (D i eq_refl Hn).
  - exact D.
Qed.

Lemma sound_open_playback :
  sound ss nh ni a_s p_s a (Some i) ->
  sound (ss ++ [Pa.Build_Stream nh i d idx r c false]) (S nh) ni
        a_s (Some nh) a (Some i).
Proof.
  intros (F & A & P & L & OA & OP & D).
  assert (Hi : i < ni) by (apply (OP i eq_refl)).
  split; [| split; [| split; [| split; [| split; [| split]]]]].
  - apply Forall_app. split.
    + eapply Forall_impl; [| exact F]. cbn. intros s (? & ?). lia.
    + constructor; [cbn; lia | constructor].
  - apply kind_of_other; auto.
  - apply kind_of_new; auto.
  - now apply live_new.
  - intros n Hn. destruct (OA n Hn) as (Hlt & Hall). split; [exact Hlt |].
    intros t Ht Hto. apply in_app_or in Ht as [Ht | [<- | []]]; [auto |].
    cbn in Hto. subst n. exfalso. exact (D i Hn eq_refl).
  - intros n Hn. destruct (OP n Hn) as (Hlt & Hall). split; [exact Hlt |].
    intros t Ht Hto. apply in_app_or in Ht as [Ht | [<- | []]]; auto.
  - exact D.
Qed.
End SoundOpen.

Section SoundClose.
Variables (nh ni : nat).

Lemma close_opt_incl h ss s : In s (close_opt h ss) -> In s ss.
Proof. destruct h; cbn; [| auto]. intros Hin. now apply filter_In in Hin. Qed.

Lemma terminate_opt_incl i ss s : In s (terminate_opt i ss) -> In s ss.
Proof. destruct i; cbn; [| auto]. intros Hin. now apply filter_In in Hin. Qed.

Lemma wound_down_incl h i ss s :
  In s (terminate_opt i (close_opt h ss)) -> In s ss.
Proof. intros Hin. eapply close_opt_incl, terminate_opt_incl, Hin. Qed.

(** A session of the one kind is wound down: the streams of the other
    kind stay. *)
Lemma wound_down_keeps cb h i ss s :
  kind_of cb h nh ss -> owns_only cb i ni ss ->
  In s ss -> Pa.has_callback s = negb cb ->
  In s (terminate_opt i (close_opt h ss)).
Proof.
  intros Hh Ho Hin Hcb.
  assert (Hc : In s (close_opt h ss)).
  { destruct h as [n |]; cbn; [| exact Hin]. apply filter_In. split; [exact Hin |].
    apply negb_true_iff, Nat.eqb_neq. intros E.
    destruct (Hh n eq_refl) as (_ & Hall). rewrite (Hall s Hin E) in Hcb.
    now destruct cb. }
  destruct i as [n |]; cbn; [| exact Hc]. apply filter_In. split; [exact Hc |].
  apply negb_true_iff, Nat.eqb_neq. intros E.
  destruct (Ho n eq_refl) as (_ & Hall). rewrite (Hall s Hin E) in Hcb.
  now destruct cb.
Qed.

Lemma live_wound_down cb h' h i ss :
  kind_of cb h nh ss -> owns_only cb i ni ss ->
  kind_of (negb cb) h' nh ss -> live h' ss ->
  live h' (terminate_opt i (close_opt h ss)).
Proof.
  intros Hh Ho Hk Hl n Hn. destruct (Hl n Hn) as (s & Hin & Hsn).
  exists s. split; [| exact Hsn].
  eapply wound_down_keeps; eauto. apply (Hk n Hn); assumption.
Qed.

Lemma kind_of_wound_down cb j h i ss :
  kind_of cb j nh ss -> kind_of cb j nh (terminate_opt i (close_opt h ss)).
Proof.
  intros K n Hn. destruct (K n Hn) as (Hlt & Hall). split; [exact Hlt |].
  intros t Ht. apply wound_down_incl in Ht. auto.
Qed.

Lemma owns_only_wound_down cb j h i ss :
  owns_only cb j ni ss -> owns_only cb j ni (terminate_opt i (close_opt h ss)).
Proof.
  intros Ho n Hn. destruct (Ho n Hn) as (Hlt & Hall). split; [exact Hlt |].
  intros t Ht. apply wound_down_incl in Ht. auto.
Qed.

Lemma fresh_wound_down h i ss :
  Forall (fun s => Pa.handle s < nh /\ Pa.owner s < ni) ss ->
  Forall (fun s => Pa.handle s < nh /\ Pa.owner s < ni)
         (terminate_opt i (close_opt h ss)).
Proof.
  intros F. rewrite Forall_forall in *. intros s Hin.
  apply F. eapply wound_down_incl, Hin.
Qed.

Lemma kind_of_none cb ss : kind_of cb None nh ss.
Proof. intros n Hn. discriminate. Qed.

Lemma live_none ss : live None ss.
Proof. intros n Hn. discriminate. Qed.

(** The capture session is wound down, by a stop ([h = a_s], the handle
    is dropped) or by Refresh ([h = None], the handle is kept). *)
Lemma sound_wind_down_capture ss h a_s' a_s p_s a p :
  kind_of true h nh ss ->
  (a_s' = None \/ a_s' = a_s) ->
  sound ss nh ni a_s p_s a p ->
  sound (terminate_opt a (close_opt h ss)) nh ni a_s' p_s a p.
Proof.
  intros Hh Ha' (F & A & P & L & OA & OP & D).
  split; [now apply fresh_wound_down |].
  split; [destruct Ha' as [-> | ->];
          [apply kind_of_none | now apply kind_of_wound_down] |].
  split; [now apply kind_of_wound_down |].
  split; [exact (@live_wound_down true p_s h a ss Hh OA P L) |].
  split; [now apply owns_only_wound_down |].
  split; [now apply owns_only_wound_down | exact D].
Qed.

Lemma sound_stop_playback ss a_s p_s a p :
  sound ss nh ni a_s p_s a p ->
  sound (terminate_opt p (close_opt p_s ss)) nh ni a_s None a None.
Proof.
  intros (F & A & P & L & OA & OP & D).
  split; [now apply fresh_wound_down |].
  split; [now apply kind_of_wound_down |].
  split; [apply kind_of_none |].
  split; [apply live_none |].
  split; [now apply owns_only_wound_down |].
  split; [intros n Hn; discriminate | intros n _ Hn; discriminate].
Qed.
End SoundClose.

Section SoundEvents.

Lemma sessions_sound_same st st' :
  streams (env st') = streams (env st) ->
  next_handle (env st) <= next_handle (env st') ->
  next_instance (env st') = next_instance (env st) ->
  audio_stream st' = audio_stream st ->
  playback_stream st' = playback_stream st ->
  audio st' = audio st ->
  playback_audio st' = playback_audio st ->
  sessions_sound st -> sessions_sound st'.
Proof.
  unfold sessions_sound. intros -> Hle -> -> -> -> -> H.
  exact (sound_more_handles H Hle).
Qed.

Lemma sessions_sound_tick st st' :
  untouched_by_tick st' = untouched_by_tick st ->
  sessions_sound st -> sessions_sound st'.
Proof.
  intros F. use_frame F. apply sessions_sound_same; auto. lia.
Qed.

Lemma update_visualization_sound st :
  sessions_sound st -> sessions_sound (update_visualization st).
Proof. apply sessions_sound_tick, update_visualization_frame. Qed.

Lemma update_recording_duration_sound st :
  sessions_sound st -> sessions_sound (update_recording_duration st).
Proof. apply sessions_sound_tick, update_recording_duration_frame. Qed.

Lemma probed_sound e0 e1 a_s p_s a p :
  probed e0 e1 ->
  sound (streams e0) (next_handle e0) (next_instance e0) a_s p_s a p ->
  sound (streams e1) (next_handle e1) (next_instance e1) a_s p_s a p.
Proof.
  intros (Hk & _ & Hi & Hs) H.
  assert (Hf : handles_fresh e0) by exact (sound_handles_fresh H).
  rewrite (Hs Hf), Hi.
  destruct Hk as (_ & _ & _ & _ & _ & _ & Hn & _).
  exact (sound_more_handles H Hn).
Qed.

Lemma start_listening_sound st :
  sessions_sound st -> sessions_sound (start_listening st).
Proof.
  intros H.
  assert (H0 : sound (streams (env st)) (next_handle (env st))
                 (S (next_instance (env st))) (audio_stream st)
                 (playback_stream st) (Some (next_instance (env st)))
                 (playback_audio st))
    by exact (sound_new_capture_instance H).
  destruct (selected_device_index st) as [idx |] eqn:Hsel.
  2:{ unfold start_listening. cbn [pa_new].
      cbn [selected_device_index set_audio set_env]. rewrite Hsel. exact H0. }
  destruct (nth_error (devices (env st)) idx) as [info |] eqn:Hdev.
  2:{ unfold start_listening. cbn [pa_new].
      cbn [selected_device_index set_audio set_env env devices set_next_instance].
      rewrite Hsel, Hdev. exact H0. }
  destruct (start_listening_eq st Hsel Hdev) as (e1 & Hp & _ & ->).
  assert (H1 := probed_sound Hp H0).
  assert (Hi : next_instance e1 = S (next_instance (env st))) by apply Hp.
  rewrite Hi in H1.
  destruct (input_ok info _).
  - apply update_visualization_sound.
    unfold sessions_sound. cbn. rewrite Hi. eapply sound_open_capture, H1.
  - unfold sessions_sound. cbn. rewrite Hi. exact H1.
Qed.

Lemma start_recording_sound now st :
  sessions_sound st -> sessions_sound (start_recording now st).
Proof.
  intros H.
  assert (H0 : sound (streams (env st)) (next_handle (env st))
                 (S (next_instance (env st))) (audio_stream st)
                 (playback_stream st) (Some (next_instance (env st)))
                 (playback_audio st))
    by exact (sound_new_capture_instance H).
  destruct (selected_device_index st) as [idx |] eqn:Hsel.
  2:{ unfold start_recording. cbn [pa_new].
      cbn [selected_device_index set_audio set_env]. rewrite Hsel. exact H0. }
  destruct (nth_error (devices (env st)) idx) as [info |] eqn:Hdev.
  2:{ unfold start_recording. cbn [pa_new].
      cbn [selected_device_index set_audio set_env env devices set_next_instance].
      rewrite Hsel, Hdev. exact H0. }
  destruct (start_recording_eq now st Hsel Hdev) as (e1 & Hp & _ & ->).
  assert (H1 := probed_sound Hp H0).
  assert (Hi : next_instance e1 = S (next_instance (env st))) by apply Hp.
  rewrite Hi in H1.
  destruct (input_ok info _).
  - apply update_visualization_sound, update_recording_duration_sound.
    unfold sessions_sound. cbn. rewrite Hi. eapply sound_open_capture, H1.
  - unfold sessions_sound. cbn. rewrite Hi. exact H1.
Qed.

(** What the two capture stops and the playback stop do to the stream
    table. *)
Lemma stop_listening_streams st :
  streams (env (stop_listening st))
  = terminate_opt (audio st) (close_opt (audio_stream st) (streams (env st)))
  /\ audio_stream (stop_listening st) = None
  /\ audio (stop_listening st) = audio st.
Proof.
  unfold stop_listening.
  destruct (audio_stream st) as [h |] eqn:Es;
    match goal with
    | |- context [match audio ?s with Some _ => _ | None => _ end] =>
        change (audio s) with (audio st)
    end; destruct (audio st) as [i |] eqn:Ea;
    repeat split; try reflexivity; try exact Ea; exact Es.
Qed.

Lemma stop_recording_streams st :
  streams (env (stop_recording st))
  = terminate_opt (audio st) (close_opt (audio_stream st) (streams (env st)))
  /\ audio_stream (stop_recording st) = None
  /\ audio (stop_recording st) = audio st.
Proof.
  unfold stop_recording.
  destruct (audio_stream st) as [h |] eqn:Es;
    match goal with
    | |- context [match audio ?s with Some _ => _ | None => _ end] =>
        change (audio s) with (audio st)
    end; destruct (audio st) as [i |] eqn:Ea;
    match goal with |- context [if ?b then _ else _] => destruct b end;
    repeat split; try reflexivity; try exact Ea; exact Es.
Qed.

Lemma stop_playback_streams st :
  streams (env (stop_playback st))
  = terminate_opt (playback_audio st)
      (close_opt (playback_stream st) (streams (env st)))
  /\ playback_stream (stop_playback st) = None
  /\ playback_audio (stop_playback st) = None
  /\ audio_playing (stop_playback st) = false.
Proof.
  unfold stop_playback.
  change (playback_stream (set_audio_playing false st)) with (playback_stream st).
  destruct (playback_stream st) as [h |] eqn:Es;
    match goal with
    | |- context [match playback_audio ?s with Some _ => _ | None => _ end] =>
        change (playback_audio s) with (playback_audio st)
    end; destruct (playback_audio st) as [i |] eqn:Ea;
    repeat split; try reflexivity; try exact Ea; exact Es.
Qed.

Lemma stop_listening_rest st :
  next_handle (env (stop_listening st)) = next_handle (env st)
  /\ next_instance (env (stop_listening st)) = next_instance (env st)
  /\ playback_stream (stop_listening st) = playback_stream st
  /\ playback_audio (stop_listening st) = playback_audio st.
Proof.
  unfold stop_listening.
  destruct (audio_stream st) as [h |];
    match goal with
    | |- context [match audio ?s with Some _ => _ | None => _ end] =>
        destruct (audio s)
    end; repeat split; reflexivity.
Qed.

Lemma stop_recording_rest st :
  next_handle (env (stop_recording st)) = next_handle (env st)
  /\ next_instance (env (stop_recording st)) = next_instance (env st)
  /\ playback_stream (stop_recording st) = playback_stream st
  /\ playback_audio (stop_recording st) = playback_audio st.
Proof.
  unfold stop_recording.
  destruct (audio_stream st) as [h |];
    match goal with
    | |- context [match audio ?s with Some _ => _ | None => _ end] =>
        destruct (audio s)
    end;
    match goal with |- context [if ?b then _ else _] => destruct b end;
    repeat split; reflexivity.
Qed.

Lemma stop_playback_rest st :
  next_handle (env (stop_playback st)) = next_handle (env st)
  /\ next_instance (env (stop_playback st)) = next_instance (env st)
  /\ audio_stream (stop_playback st) = audio_stream st
  /\ audio (stop_playback st) = audio st.
Proof.
  unfold stop_playback.
  destruct (playback_stream (set_audio_playing false st));
    match goal with
    | |- context [match playback_audio ?s with Some _ => _ | None => _ end] =>
        destruct (playback_audio s)
    end; repeat split; reflexivity.
Qed.

Lemma stop_listening_sound st :
  sessions_sound st -> sessions_sound (stop_listening st).
Proof.
  unfold sessions_sound. intros H.
  destruct (stop_listening_streams st) as (-> & -> & ->).
  destruct (stop_listening_rest st) as (-> & -> & -> & ->).
  apply sound_wind_down_capture with (a_s := audio_stream st);
    [apply H | now left | exact H].
Qed.

Lemma stop_recording_sound st :
  sessions_sound st -> sessions_sound (stop_recording st).
Proof.
  unfold sessions_sound. intros H.
  destruct (stop_recording_streams st) as (-> & -> & ->).
  destruct (stop_recording_rest st) as (-> & -> & -> & ->).
  apply sound_wind_down_capture with (a_s := audio_stream st);
    [apply H | now left | exact H].
Qed.

Lemma stop_playback_sound st :
  sessions_sound st -> sessions_sound (stop_playback st).
Proof.
  unfold sessions_sound. intros H.
  destruct (stop_playback_streams st) as (-> & -> & -> & _).
  destruct (stop_playback_rest st) as (-> & -> & -> & ->).
  now apply sound_stop_playback.
Qed.

Lemma start_playback_sound st :
  sessions_sound st -> sessions_sound (start_playback st).
Proof.
  intros H. unfold start_playback.
  destruct (Deque.len (audio_buffer st) =? 0); [exact H |].
  cbn [pa_new].
  assert (H0 : sound (streams (env st)) (next_handle (env st))
                 (S (next_instance (env st))) (audio_stream st)
                 (playback_stream st) (audio st)
                 (Some (next_instance (env st))))
    by exact (sound_new_playback_instance H).
  cbn [env set_playback_audio set_env default_output set_next_instance].
  destruct (default_output (env st)) as [o |]; [| exact H0].
  unfold pa_open. cbn [devices set_next_instance].
  destruct (nth_error (devices (env st)) o) as [info |]; [| exact H0].
  destruct (Pa.accepts info Pa.Output 16000 1); [| exact H0].
  unfold sessions_sound. cbn. eapply sound_open_playback, H0.
Qed.

Lemma thread_step_sound st :
  sessions_sound st -> sessions_sound (thread_step st).
Proof.
  intros H. unfold thread_step, thread_exit.
  destruct (thread (env st)) as [| | b i | b i |]; try exact H.
  - destruct (i <? length b); [| exact H].
    destruct (negb (audio_playing st)); exact H.
  - destruct (0 <? length _); [| exact H].
    destruct (playback_stream st) as [h |]; [| exact H].
    unfold pa_write. destruct (is_open h (env st)); exact H.
Qed.

Lemma audio_callback_sound frame now st :
  sessions_sound st -> sessions_sound (audio_callback frame now st).
Proof.
  intros H. unfold audio_callback.
  destruct (_ || _); [| exact H].
  cbn [pattern_start_time set_time_pattern_buffer set_audio_data_queue].
  destruct (pattern_start_time st); exact H.
Qed.

Lemma refresh_audio_devices_frame st :
  let st' := refresh_audio_devices st in
  streams (env st') = terminate_opt (audio st) (streams (env st))
  /\ next_handle (env st') = next_handle (env st)
  /\ next_instance (env st') = S (next_instance (env st))
  /\ audio st' = Some (next_instance (env st))
  /\ audio_stream st' = audio_stream st
  /\ playback_stream st' = playback_stream st
  /\ playback_audio st' = playback_audio st
  /\ audio_listening st' = audio_listening st
  /\ audio_recording st' = audio_recording st
  /\ audio_status_var st' = audio_status_var st
  /\ after_queue (env st') = after_queue (env st)
  /\ dialogs (env st') = dialogs (env st).
Proof.
  unfold refresh_audio_devices. cbn [pa_new].
  destruct (audio st) as [inst |];
    match goal with
    | |- context [find ?p ?l] => destruct (find p l) as [d |]
    end;
    match goal with
    | |- context [match device_list ?e with [] => _ | _ :: _ => _ end] =>
        destruct (device_list e)
    end; repeat split; reflexivity.
Qed.

Lemma refresh_audio_devices_sound st :
  sessions_sound st -> sessions_sound (refresh_audio_devices st).
Proof.
  unfold sessions_sound. intros H.
  destruct (refresh_audio_devices_frame st)
    as (-> & -> & -> & -> & -> & -> & -> & _).
  apply sound_new_capture_instance with (a := audio st).
  change (terminate_opt (audio st) (streams (env st)))
    with (terminate_opt (audio st) (close_opt None (streams (env st)))).
  apply sound_wind_down_capture with (a_s := audio_stream st);
    [apply kind_of_none | now right | exact H].
Qed.

Lemma handle_event_sound ev st :
  sessions_sound st -> sessions_sound (handle_event ev st).
Proof.
  intros H. destruct ev; cbn [handle_event].
  - exact H.
  - now apply refresh_audio_devices_sound.
  - unfold click_listen, toggle_listening. destruct (audio_listening st).
    + now apply stop_listening_sound.
    + now apply start_listening_sound.
  - unfold click_record, toggle_recording.
    destruct (record_button_enabled st); [| exact H].
    destruct (negb (audio_recording st)).
    + now apply start_recording_sound.
    + now apply stop_recording_sound.
  - unfold click_playback, toggle_playback.
    destruct (playback_button_enabled st); [| exact H].
    destruct (audio_playing st).
    + now apply stop_playback_sound.
    + now apply start_playback_sound.
  - now apply audio_callback_sound.
  - unfold dispatch. destruct (nth_error _ i) as [cb |]; [| exact H].
    destruct cb; cbn [run_callback].
    + apply update_visualization_sound. exact H.
    + apply update_recording_duration_sound. exact H.
    + exact H.
  - now apply thread_step_sound.
  - exact H.
  - unfold clear_recording. destruct confirmed; exact H.
Qed.

Lemma init_sound devs dout : sessions_sound (__init__ devs dout).
Proof.
  unfold sessions_sound. cbn.
  split; [constructor |].
  split; [apply kind_of_none |].
  split; [apply kind_of_none |].
  split; [apply live_none |].
  split; [intros n [= <-]; split; [lia | intros s []] |].
  split; [intros n Hn; discriminate | intros n _ Hn; discriminate].
Qed.

Lemma run_events_sound evs : forall st,
  sessions_sound st -> sessions_sound (run_events evs st).
Proof.
  induction evs as [| ev evs IH]; intros st H; [exact H |].
  change (run_events (ev :: evs) st) with (run_events evs (handle_event ev st)).
  apply IH. now apply handle_event_sound.
Qed.

Lemma reachable_sound devs dout evs :
  sessions_sound (run_events evs (__init__ devs dout)).
Proof. apply run_events_sound, init_sound. Qed.

(** *** The capture stream held is open, as long as Refresh is not used *)









End SoundEvents.



Section RoundTrip.

Lemma filter_fresh_owner (l : list Pa.Stream) i :
  Forall (fun s => Pa.owner s < i) l ->
  filter (fun s => negb (Pa.owner s =? i)) l = l.
Proof.
  intros Hl. induction Hl as [| s l Hs Hl IH]; [reflexivity |].
  cbn [filter]. destruct (Nat.eqb_spec (Pa.owner s) i); [lia |].
  cbn [negb]. now rewrite IH.
Qed.

Lemma filter_owner_app (l : list Pa.Stream) i s' :
  Forall (fun s => Pa.owner s < i) l -> Pa.owner s' = i ->
  filter (fun s => negb (Pa.owner s =? i)) (l ++ [s']) = l.
Proof.
  intros Hl Hs'. rewrite filter_app, filter_fresh_owner by exact Hl.
  cbn [filter]. rewrite Hs', Nat.eqb_refl. cbn [negb]. apply app_nil_r.
Qed.

Lemma find_none_tried (A : Type) (ok : A -> bool) l :
  find ok l = None -> tried ok l = l.
Proof.
  induction l as [| x r IH]; [reflexivity |]. cbn [find tried].
  destruct (ok x); [discriminate |]. intros H. now rewrite IH.
Qed.
End RoundTrip.

(** X10.  From any reachable state that is not listening, with a
    device selected whose negotiation succeeds, LISTEN followed by
    LISTEN opens one stream and closes it again: the table of open
    streams is what it was, test streams included, no dialog is shown,
    and what stays behind is one pending render tick. *)
Theorem listen_then_stop_leaves_no_stream devs dout evs idx info :
  let st := run_events evs (__init__ devs dout) in
  audio_listening st = false ->
  selected_device_index st = Some idx ->
  nth_error (devices (env st)) idx = Some info ->
  input_ok info (settled_config info (sample_rate_var st) (channels_var st)) = true ->
  let st1 := click_listen st in
  let st2 := click_listen st1 in
  audio_listening st1 = true
  /\ length (streams (env st1)) = S (length (streams (env st)))
  /\ streams (env st2) = streams (env st)
  /\ audio_listening st2 = false
  /\ audio_stream st2 = None
  /\ dialogs (env st2) = dialogs (env st)
  /\ after_queue (env st2) = after_queue (env st) ++ [CbUpdateVisualization].
Proof.
  intros st Hidle Hsel Hdev Hok st1 st2.
  assert (Hs : sessions_sound st) by apply reachable_sound.
  destruct (start_listening_eq st Hsel Hdev) as (e1 & Hp & _ & Heq).
  cbv zeta in Heq. rewrite Hok in Heq.
  assert (E1 : st1 = start_listening st).
  { unfold st1, click_listen, toggle_listening. now rewrite Hidle. }
  rewrite Heq in E1. clear Heq.
  assert (Hf : Forall (fun s => Pa.handle s < next_handle (env st)
                                /\ Pa.owner s < next_instance (env st))
                      (streams (env st))) by apply Hs.
  assert (Hf0 : handles_fresh (set_next_instance (S (next_instance (env st))) (env st))).
  { unfold handles_fresh. eapply Forall_impl; [| exact Hf]. now intros s (? & _). }
  assert (Hst : streams e1 = streams (env st)) by (apply Hp, Hf0).
  assert (Hf1 := probed_fresh Hp Hf0). unfold handles_fresh in Hf1.
  destruct Hp as (Hk & Hq1 & Hi1 & _).
  set (c := settled_config info (sample_rate_var st) (channels_var st)) in *.
  assert (X : audio_listening st1 = true
              /\ audio_stream st1 = Some (next_handle e1)
              /\ audio st1 = Some (next_instance (env st))
              /\ streams (env st1)
                 = streams e1
                   ++ [Pa.Build_Stream (next_handle e1) (next_instance (env st))
                         Pa.Input idx (fst c) (snd c) true]
              /\ dialogs (env st1) = dialogs e1
              /\ after_queue (env st1) = after_queue e1 ++ [CbUpdateVisualization]).
  { rewrite E1.
    match goal with |- context [update_visualization ?s] =>
      destruct (update_visualization_frame s) as (F & Hq); rewrite Hq; frame_rw F
    end.
    repeat split; try reflexivity.
    unfold capture_active. cbn. now rewrite orb_true_r. }
  destruct X as (Hl1 & Ha1 & Hi & Hss & Hd1 & Hq).
  assert (E2 : st2 = stop_listening st1).
  { unfold st2, click_listen, toggle_listening. now rewrite Hl1. }
  split; [exact Hl1 |].
  split; [rewrite Hss, Hst, length_app; cbn; lia |].
  destruct (stop_listening_streams st1) as (S2 & A2 & _).
  rewrite <- E2 in S2, A2.
  split.
  { rewrite S2, Ha1, Hi, Hss. cbn [close_opt terminate_opt].
    rewrite filter_fresh_handle by (exact Hf1 || reflexivity).
    rewrite Hst. apply filter_fresh_owner.
    eapply Forall_impl; [| exact Hf]. now intros s (_ & ?). }
  assert (D2 : audio_listening st2 = false
               /\ dialogs (env st2) = dialogs (env st1)
               /\ after_queue (env st2) = after_queue (env st1)).
  { rewrite E2. unfold stop_listening.
    destruct (audio_stream st1);
      match goal with
      | |- context [match audio ?s with Some _ => _ | None => _ end] =>
          destruct (audio s)
      end; repeat split; reflexivity. }
  destruct D2 as (L2 & -> & ->).
  split; [exact L2 |]. split; [exact A2 |].
  split.
  - rewrite Hd1. apply Hk.
  - rewrite Hq. now rewrite Hq1.
Qed.

Lemma listen_then_stop_leaves_no_stream_witness :
  let st := run_events [EvSelect 0] (__init__ [array_device] (Some 0)) in
  streams (env (click_listen (click_listen st))) = streams (env st)
  /\ audio_stream (click_listen (click_listen st)) = None.
Proof.
  assert (H1 : audio_listening (run_events [EvSelect 0] (__init__ [array_device] (Some 0))) = false)
    by (vm_compute; reflexivity).
  assert (H2 : selected_device_index (run_events [EvSelect 0] (__init__ [array_device] (Some 0))) = Some 0)
    by (vm_compute; reflexivity).
  assert (H3 : nth_error (devices (env (run_events [EvSelect 0] (__init__ [array_device] (Some 0))))) 0
               = Some array_device)
    by (vm_compute; reflexivity).
  assert (H4 : input_ok array_device
                 (settled_config array_device
                    (sample_rate_var (run_events [EvSelect 0] (__init__ [array_device] (Some 0))))
                    (channels_var (run_events [EvSelect 0] (__init__ [array_device] (Some 0))))) = true)
    by (vm_compute; reflexivity).
  destruct (@listen_then_stop_leaves_no_stream [array_device] (Some 0) [EvSelect 0]
              0 array_device H1 H2 H3 H4) as (_ & _ & S2 & _ & A2 & _).
  split; [exact S2 | exact A2].
Defined.

Section Leak.

Lemma stop_recording_flags st :
  audio_listening (stop_recording st) = audio_listening st
  /\ audio_recording (stop_recording st) = false.
Proof.
  unfold stop_recording.
  destruct (audio_stream st);
    match goal with
    | |- context [match audio ?s with Some _ => _ | None => _ end] =>
        destruct (audio s)
    end;
    match goal with |- context [if ?b then _ else _] => destruct b end;
    split; reflexivity.
Qed.

Lemma stop_listening_flags st :
  audio_listening (stop_listening st) = false
  /\ audio_recording (stop_listening st) = audio_recording st.
Proof.
  unfold stop_listening.
  destruct (audio_stream st);
    match goal with
    | |- context [match audio ?s with Some _ => _ | None => _ end] =>
        destruct (audio s)
    end; split; reflexivity.
Qed.

Lemma in_filter_handle (l : list Pa.Stream) s h :
  In s l -> Pa.handle s <> h -> In s (filter (fun t => negb (Pa.handle t =? h)) l).
Proof.
  intros Hin Hne. apply filter_In. split; [exact Hin |].
  now apply negb_true_iff, Nat.eqb_neq.
Qed.

Lemma in_filter_owner (l : list Pa.Stream) s i :
  In s l -> Pa.owner s <> i -> In s (filter (fun t => negb (Pa.owner t =? i)) l).
Proof.
  intros Hin Hne. apply filter_In. split; [exact Hin |].
  now apply negb_true_iff, Nat.eqb_neq.
Qed.
End Leak.

(** X11.  After RECORD, RECORD, LISTEN pressed while
    listening, both flags are down and no stream handle is held, yet the
    stream that was opened for listening is still open, with its
    callback: the two stops closed the stream and the instance of the
    recording only. *)
Theorem listening_stream_outlives_a_recording devs dout evs idx info h now now' :
  let st := run_events evs (__init__ devs dout) in
  audio_listening st = true ->
  audio_recording st = false ->
  record_button_enabled st = true ->
  audio_stream st = Some h ->
  is_open h (env st) = true ->
  selected_device_index st = Some idx ->
  nth_error (devices (env st)) idx = Some info ->
  input_ok info (settled_config info (sample_rate_var st) (channels_var st)) = true ->
  let st' := click_listen (click_record now' (click_record now st)) in
  audio_listening st' = false
  /\ audio_recording st' = false
  /\ audio_stream st' = None
  /\ is_open h (env st') = true
  /\ (exists s, In s (capture_streams (env st')) /\ Pa.handle s = h).
Proof.
  intros st Hlis Hrec Hbtn Hh Hopen Hsel Hdev Hok st'.
  assert (Hs : sessions_sound st) by apply reachable_sound.
  destruct (start_recording_eq now st Hsel Hdev) as (e1 & Hp & _ & Heq).
  cbv zeta in Heq. rewrite Hok in Heq.
  set (st1 := click_record now st).
  assert (E1 : st1 = start_recording now st).
  { unfold st1, click_record, toggle_recording. now rewrite Hbtn, Hrec. }
  rewrite Heq in E1. clear Heq.
  assert (Hf : Forall (fun s => Pa.handle s < next_handle (env st)
                                /\ Pa.owner s < next_instance (env st))
                      (streams (env st))) by apply Hs.
  assert (Hf0 : handles_fresh (set_next_instance (S (next_instance (env st))) (env st))).
  { unfold handles_fresh. eapply Forall_impl; [| exact Hf]. now intros s (? & _). }
  assert (Hst : streams e1 = streams (env st)) by (apply Hp, Hf0).
  destruct Hp as (Hk & _ & _ & _).
  assert (Hnh : next_handle (env st) <= next_handle e1) by apply Hk.
  set (c := settled_config info (sample_rate_var st) (channels_var st)) in *.
  assert (X : audio_listening st1 = true
              /\ audio_recording st1 = true
              /\ record_button_enabled st1 = true
              /\ audio_stream st1 = Some (next_handle e1)
              /\ audio st1 = Some (next_instance (env st))
              /\ streams (env st1)
                 = streams e1
                   ++ [Pa.Build_Stream (next_handle e1) (next_instance (env st))
                         Pa.Input idx (fst c) (snd c) true]).
  { rewrite E1.
    match goal with |- context [update_visualization ?s] =>
      destruct (update_visualization_frame s) as (F & _); frame_rw F
    end.
    match goal with |- context [update_recording_duration ?s] =>
      assert (F' := update_recording_duration_frame s); frame_rw F'
    end.
    repeat split; try reflexivity; assumption. }
  destruct X as (Hl1 & Hr1 & Hb1 & Ha1 & Hi1 & Hss).
  set (st2 := click_record now' st1).
  assert (E2 : st2 = stop_recording st1).
  { unfold st2, click_record, toggle_recording. now rewrite Hb1, Hr1. }
  destruct (stop_recording_streams st1) as (S2 & A2 & I2).
  destruct (stop_recording_flags st1) as (L2 & R2).
  rewrite <- E2 in S2, A2, I2, L2, R2.
  assert (E3 : st' = stop_listening st2).
  { unfold st', click_listen, toggle_listening. fold st1. fold st2.
    now rewrite L2, Hl1. }
  destruct (stop_listening_streams st2) as (S3 & A3 & _).
  destruct (stop_listening_flags st2) as (L3 & R3).
  rewrite <- E3 in S3, A3, L3, R3.
  split; [exact L3 |]. split; [congruence |]. split; [exact A3 |].
  destruct Hs as (_ & A & _).
  unfold is_open in Hopen. apply existsb_exists in Hopen as (s & Hin & Hsh).
  apply Nat.eqb_eq in Hsh.
  assert (Hcb : Pa.has_callback s = true) by (apply (A h Hh); assumption).
  rewrite Forall_forall in Hf. destruct (Hf s Hin) as (Hlt & Hown).
  assert (Hin' : In s (streams (env st'))).
  { rewrite S3, A2, I2, Hi1, S2, Ha1, Hi1, Hss, Hst.
    cbn [close_opt terminate_opt].
    apply in_filter_owner; [| lia]. apply in_filter_owner; [| lia].
    apply in_filter_handle; [| lia]. apply in_or_app. now left. }
  split.
  - unfold is_open. apply existsb_exists. exists s. split; [exact Hin' |].
    now apply Nat.eqb_eq.
  - exists s. split; [| exact Hsh]. unfold capture_streams.
    apply filter_In. split; [exact Hin' | exact Hcb].
Qed.

Lemma listening_stream_outlives_a_recording_witness :
  let st' := click_listen (click_record 9 (click_record 7 st_listening)) in
  audio_listening st' = false /\ audio_recording st' = false
  /\ audio_stream st' = None /\ is_open 1 (env st') = true.
Proof.
  assert (H1 : audio_listening (run_events [EvSelect 0; EvListen] (__init__ [array_device] (Some 0))) = true)
    by (vm_compute; reflexivity).
  assert (H2 : audio_recording (run_events [EvSelect 0; EvListen] (__init__ [array_device] (Some 0))) = false)
    by (vm_compute; reflexivity).
  assert (H3 : record_button_enabled (run_events [EvSelect 0; EvListen] (__init__ [array_device] (Some 0))) = true)
    by (vm_compute; reflexivity).
  assert (H4 : audio_stream (run_events [EvSelect 0; EvListen] (__init__ [array_device] (Some 0))) = Some 1)
    by (vm_compute; reflexivity).
  assert (H4' : is_open 1 (env (run_events [EvSelect 0; EvListen] (__init__ [array_device] (Some 0)))) = true)
    by (vm_compute; reflexivity).
  assert (H5 : selected_device_index (run_events [EvSelect 0; EvListen] (__init__ [array_device] (Some 0))) = Some 0)
    by (vm_compute; reflexivity).
  assert (H6 : nth_error (devices (env (run_events [EvSelect 0; EvListen] (__init__ [array_device] (Some 0))))) 0
               = Some array_device)
    by (vm_compute; reflexivity).
  assert (H7 : input_ok array_device
                 (settled_config array_device
                    (sample_rate_var (run_events [EvSelect 0; EvListen] (__init__ [array_device] (Some 0))))
                    (channels_var (run_events [EvSelect 0; EvListen] (__init__ [array_device] (Some 0))))) = true)
    by (vm_compute; reflexivity).
  destruct (@listening_stream_outlives_a_recording [array_device] (Some 0)
              [EvSelect 0; EvListen] 0 array_device 1 7 9 H1 H2 H3 H4 H4' H5 H6 H7)
    as (A & B & C & D & _).
  repeat split; assumption.
Defined.

(** X12.  When the selected device refuses every
    configuration of the negotiation, LISTEN shows the error dialog and
    starts nothing: the flag stays down, no stream is added, no render
    tick is queued.  The two Tk variables are left at the device
    default, which has been asked for twice, once as a test and once
    for the capture stream itself. *)
Theorem rejected_device_leaves_listening_off devs dout evs idx info :
  let st := run_events evs (__init__ devs dout) in
  audio_listening st = false ->
  selected_device_index st = Some idx ->
  nth_error (devices (env st)) idx = Some info ->
  find (input_ok info)
       (negotiation_candidates info (sample_rate_var st) (channels_var st)) = None ->
  let dflt := (Pa.defaultSampleRate info, Z.min (Pa.maxInputChannels info) 2) in
  let st' := click_listen st in
  audio_listening st' = false
  /\ audio_stream st' = audio_stream st
  /\ streams (env st') = streams (env st)
  /\ dialogs (env st') = dialogs (env st) ++ [ErrFailedToStartListening]
  /\ after_queue (env st') = after_queue (env st)
  /\ (sample_rate_var st', channels_var st') = dflt
  /\ open_log (env st')
     = open_log (env st)
       ++ map (input_attempt idx)
            (negotiation_candidates info (sample_rate_var st) (channels_var st)
             ++ [dflt]).
Proof.
  intros st Hidle Hsel Hdev Hnone dflt st'.
  assert (Hs : sessions_sound st) by apply reachable_sound.
  destruct (start_listening_eq st Hsel Hdev) as (e1 & Hp & Hlog & Heq).
  cbv zeta in Heq.
  assert (Hc : settled_config info (sample_rate_var st) (channels_var st) = dflt).
  { unfold settled_config. now rewrite Hnone. }
  assert (Hbad : input_ok info dflt = false).
  { apply (find_none _ _ Hnone). cbn. auto. }
  rewrite Hc, Hbad in Heq. rewrite (find_none_tried _ _ Hnone) in Hlog.
  assert (E : st' = start_listening st).
  { unfold st', click_listen, toggle_listening. now rewrite Hidle. }
  rewrite Heq in E. clear Heq.
  assert (Hf0 : handles_fresh (set_next_instance (S (next_instance (env st))) (env st))).
  { destruct Hs as (F & _). unfold handles_fresh.
    eapply Forall_impl; [| exact F]. now intros s (? & _). }
  assert (Hst : streams e1 = streams (env st)) by (apply Hp, Hf0).
  destruct Hp as (Hk & Hq & _ & _).
  assert (Hd : dialogs e1 = dialogs (env st)) by apply Hk.
  remember (negotiation_candidates info (sample_rate_var st) (channels_var st))
    as cands eqn:Hcands. clear Hcands.
  rewrite E.
  split; [exact Hidle |]. split; [reflexivity |].
  split; [exact Hst |].
  split; [cbn; now rewrite Hd |].
  split; [exact Hq |]. split; [reflexivity |].
  cbn [env show upd_env set_env set_dialogs open_log capture_refused set_open_log
       set_channels_var set_sample_rate_var set_audio].
  rewrite Hlog, map_app, <- app_assoc. reflexivity.
Qed.

Lemma rejected_device_leaves_listening_off_witness :
  dialogs (env (click_listen st_busy)) = [ErrFailedToStartListening]
  /\ (sample_rate_var (click_listen st_busy), channels_var (click_listen st_busy))
     = (22050, 2)%Z.
Proof.
  assert (H1 : audio_listening (run_events [EvSelect 0] (__init__ [busy_device] None)) = false)
    by (vm_compute; reflexivity).
  assert (H2 : selected_device_index (run_events [EvSelect 0] (__init__ [busy_device] None)) = Some 0)
    by (vm_compute; reflexivity).
  assert (H3 : nth_error (devices (env (run_events [EvSelect 0] (__init__ [busy_device] None)))) 0
               = Some busy_device)
    by (vm_compute; reflexivity).
  assert (H4 : find (input_ok busy_device)
                 (negotiation_candidates busy_device
                    (sample_rate_var (run_events [EvSelect 0] (__init__ [busy_device] None)))
                    (channels_var (run_events [EvSelect 0] (__init__ [busy_device] None))))
               = None)
    by (vm_compute; reflexivity).
  destruct (@rejected_device_leaves_listening_off [busy_device] None
              [EvSelect 0] 0 busy_device H1 H2 H3 H4) as (_ & _ & _ & D & _ & V & _).
  split; [exact D | exact V].
Defined.

(** X13.  After a start that succeeds, by [start_listening] or
    by [start_recording], the two Tk variables hold the configuration
    the negotiation settled on, and the capture stream the application
    holds was opened on the selected device with exactly that rate and
    channel count. *)
Theorem capture_format_is_published idx info now st :
  selected_device_index st = Some idx ->
  nth_error (devices (env st)) idx = Some info ->
  let c := settled_config info (sample_rate_var st) (channels_var st) in
  input_ok info c = true ->
  forall st', st' = start_listening st \/ st' = start_recording now st ->
    (sample_rate_var st', channels_var st') = c
    /\ exists h i,
         audio_stream st' = Some h
         /\ In (Pa.Build_Stream h i Pa.Input idx
                  (sample_rate_var st') (channels_var st') true)
               (streams (env st')).
Proof.
  intros Hsel Hdev c Hok st' [-> | ->].
  - destruct (start_listening_eq st Hsel Hdev) as (e1 & _ & _ & Heq).
    cbv zeta in Heq. fold c in Heq. rewrite Hok in Heq. rewrite Heq.
    match goal with |- context [update_visualization ?s] =>
      destruct (update_visualization_frame s) as (F & _); frame_rw F
    end.
    cbn. split; [now destruct c |].
    exists (next_handle e1), (next_instance (env st)).
    split; [reflexivity |]. apply in_or_app. right. now left.
  - destruct (start_recording_eq now st Hsel Hdev) as (e1 & _ & _ & Heq).
    cbv zeta in Heq. fold c in Heq. rewrite Hok in Heq. rewrite Heq.
    match goal with |- context [update_visualization ?s] =>
      destruct (update_visualization_frame s) as (F & _); frame_rw F
    end.
    match goal with |- context [update_recording_duration ?s] =>
      assert (F' := update_recording_duration_frame s); frame_rw F'
    end.
    cbn. split; [now destruct c |].
    exists (next_handle e1), (next_instance (env st)).
    split; [reflexivity |]. apply in_or_app. right. now left.
Qed.

Lemma capture_format_is_published_witness :
  (sample_rate_var (start_listening st_default_only),
   channels_var (start_listening st_default_only)) = (44100, 1)%Z.
Proof.
  assert (H1 : selected_device_index st_default_only = Some 0)
    by (vm_compute; reflexivity).
  assert (H2 : nth_error (devices (env st_default_only)) 0 = Some default_only_device)
    by (vm_compute; reflexivity).
  assert (H3 : input_ok default_only_device
                 (settled_config default_only_device
                    (sample_rate_var st_default_only) (channels_var st_default_only)) = true)
    by (vm_compute; reflexivity).
  destruct (@capture_format_is_published 0 default_only_device 0 st_default_only
              H1 H2 H3 (start_listening st_default_only) (or_introl eq_refl))
    as (E & _).
  exact E.
Defined.

(** ** Chunks and bytes *)

Section Chunks.
Variable b : list Z.

Lemma ceil_div_step x s : 0 < s -> 0 < x -> ceil_div x s = S (ceil_div (x - s) s).
Proof.
  intros Hs Hx. unfold ceil_div.
  destruct (Nat.le_gt_cases s x) as [Hge | Hlt].
  - replace (x + s - 1) with (x - s + s - 1 + 1 * s) by lia.
    rewrite Nat.div_add by lia. lia.
  - replace (x - s) with 0 by lia. cbn [Nat.add].
    rewrite (Nat.div_small (s - 1) s) by lia.
    replace (x + s - 1) with (x - 1 + 1 * s) by lia.
    rewrite Nat.div_add by lia. rewrite Nat.div_small by lia. reflexivity.
Qed.

Lemma ceil_div_0 s : 0 < s -> ceil_div 0 s = 0.
Proof. intros Hs. unfold ceil_div. cbn [Nat.add]. apply Nat.div_small. lia. Qed.

(** The chunks from offset [i] on: they tile the rest of the clip, there
    are [ceil (rest / 2048)] of them, none is empty or longer than 2048
    bytes, and only the last can be shorter. *)
Lemma byte_chunks_from_shape : forall f i,
  length b - i <= f ->
  let cs := byte_chunks_from b i in
  concat cs = skipn i b
  /\ length cs = ceil_div (length b - i) (chunk_size * 2)
  /\ Forall (fun c => 0 < length c <= chunk_size * 2) cs
  /\ (forall j, S j < length cs -> length (nth j cs []) = chunk_size * 2).
Proof.
  assert (P := chunk_bytes_pos).
  induction f as [| f IH]; intros i Hf cs; subst cs;
    rewrite byte_chunks_unfold;
    destruct (Nat.ltb_spec i (length b)) as [Hi | Hi]; try lia.
  - rewrite skipn_all2 by lia. replace (length b - i) with 0 by lia.
    rewrite ceil_div_0 by exact P. cbn. repeat split; auto. intros j Hj. lia.
  - destruct (IH (i + chunk_size * 2) ltac:(lia)) as (Hc & Hl & Hf' & Hfull).
    cbn [concat length]. rewrite Hc, Hl.
    split; [| split; [| split]].
    + unfold Py.slice.
      replace (i + chunk_size * 2 - i) with (chunk_size * 2) by lia.
      rewrite Nat.add_comm, <- skipn_skipn. apply firstn_skipn.
    + rewrite (@ceil_div_step (length b - i)) by lia.
      f_equal. f_equal. lia.
    + constructor; [| exact Hf'].
      unfold Py.slice. rewrite length_firstn, length_skipn. lia.
    + intros [| j] Hj.
      * (* a first chunk followed by another one is full *)
        cbn [nth]. unfold Py.slice. rewrite length_firstn, length_skipn.
        assert (0 < ceil_div (length b - (i + chunk_size * 2)) (chunk_size * 2)) by lia.
        destruct (Nat.le_gt_cases (length b) (i + chunk_size * 2)) as [Hle | Hgt]; [| lia].
        replace (length b - (i + chunk_size * 2)) with 0 in H by lia.
        rewrite ceil_div_0 in H by exact P. lia.
      * cbn [nth]. apply Hfull. lia.
  - rewrite skipn_all2 by lia. replace (length b - i) with 0 by lia.
    rewrite ceil_div_0 by exact P. cbn. repeat split; auto. intros j Hj. lia.
Qed.
End Chunks.

(** X3.  The chunks [_playback_thread] cuts the clip into tile
    it: joined they give the clip back, there are [ceil (n / 2048)] of
    them for [n] bytes, none is empty or longer than 2048 bytes, and
    every chunk but the last has exactly 2048 bytes. *)
Theorem playback_chunks_tile_the_clip (audio_bytes : list Z) :
  let cs := byte_chunks audio_bytes in
  concat cs = audio_bytes
  /\ length cs = ceil_div (length audio_bytes) (chunk_size * 2)
  /\ Forall (fun c => 0 < length c <= chunk_size * 2) cs
  /\ (forall j, S j < length cs -> length (nth j cs []) = chunk_size * 2).
Proof.
  intros cs.
  destruct (@byte_chunks_from_shape audio_bytes (length audio_bytes) 0 ltac:(lia))
    as (Hc & Hl & Hf & Hfull).
  rewrite Nat.sub_0_r in Hl. auto.
Qed.

Section Bytes.
Local Open Scope Z_scope.

Lemma sample_bytes_round_trip x :
  int16 x -> Np.wrap16 (x mod 256 + 256 * (x mod 65536 / 256)) = x.
Proof.
  unfold int16, Np.wrap16. intros Hx.
  Z.div_mod_to_equations. lia.
Qed.

Lemma tobytes_cons x a :
  Np.tobytes (x :: a) = x mod 256 :: (x mod 65536) / 256 :: Np.tobytes a.
Proof. reflexivity. Qed.
End Bytes.

Lemma tobytes_length (a : list Z) : length (Np.tobytes a) = 2 * length a.
Proof.
  induction a as [| x a IH]; [reflexivity |].
  rewrite tobytes_cons. cbn [length]. rewrite IH. lia.
Qed.

Lemma frombuffer_tobytes (a : list Z) :
  Forall int16 a -> frombuffer (Np.tobytes a) = Some a.
Proof.
  induction 1 as [| x a Hx Ha IH]; [reflexivity |].
  rewrite tobytes_cons. cbn [frombuffer]. rewrite IH.
  rewrite sample_bytes_round_trip by exact Hx. reflexivity.
Qed.

(** X4.  Serialising [int16] samples with [tobytes] and decoding
    the result the way [audio_callback] decodes a driver buffer gives
    the samples back; there are two bytes per sample and each is a
    byte. *)
Theorem int16_bytes_round_trip (a : list Z) :
  Forall int16 a ->
  frombuffer (Np.tobytes a) = Some a
  /\ length (Np.tobytes a) = 2 * length a
  /\ Forall (fun byte => (0 <= byte < 256)%Z) (Np.tobytes a).
Proof.
  intros Ha. split; [apply frombuffer_tobytes; exact Ha |].
  split; [apply tobytes_length |].
  clear Ha. induction a as [| x a IH]; [constructor |].
  rewrite tobytes_cons.
  constructor; [| constructor; [| exact IH]].
  - apply Z.mod_pos_bound. lia.
  - assert (H := Z.mod_pos_bound x 65536 ltac:(lia)).
    split; [apply Z.div_pos; lia | apply Z.div_lt_upper_bound; lia].
Qed.

Lemma int16_bytes_round_trip_witness :
  Forall int16 [0; 1; -1; 255; 256; -32768; 32767]%Z
  /\ frombuffer (Np.tobytes [0; 1; -1; 255; 256; -32768; 32767]%Z)
     = Some [0; 1; -1; 255; 256; -32768; 32767]%Z.
Proof.
  assert (H : Forall int16 [0; 1; -1; 255; 256; -32768; 32767]%Z).
  { repeat constructor; unfold int16; lia. }
  split; [exact H |]. exact (proj1 (int16_bytes_round_trip H)).
Defined.

(** A buffer of odd size cannot be decoded. *)
Lemma frombuffer_odd : forall raw,
  Nat.odd (length raw) = true -> frombuffer raw = None.
Proof.
  fix IH 1. intros [| lo [| hi rest]] H; [discriminate | reflexivity |].
  cbn [frombuffer]. rewrite (IH rest); [reflexivity |].
  cbn [length] in H. rewrite Nat.odd_succ, Nat.even_succ in H. exact H.
Qed.


Lemma playback_chunks_tile_the_clip_witness :
  let cs := byte_chunks (repeat 7%Z 3000) in
  1 < length cs
  /\ concat cs = repeat 7%Z 3000
  /\ length (nth 0 cs []) = chunk_size * 2.
Proof.
  intros cs.
  destruct (playback_chunks_tile_the_clip (repeat 7%Z 3000)) as (Hc & Hl & _ & Hfull).
  assert (H : 1 < length cs) by (apply Nat.ltb_lt; vm_compute; reflexivity).
  split; [exact H |]. split; [exact Hc | exact (Hfull 0 H)].
Defined.

(** X1.  The playback thread, left to run from its start with the
    session active and its stream open, hands the whole clip to the
    output stream: the chunks it writes, joined in order, are the bytes
    of the short-term history as it stood when the thread started; the
    thread then ends and queues [_playback_finished]. *)
Theorem playback_writes_whole_clip st h :
  thread (env st) = ThStart ->
  audio_playing st = true ->
  playback_stream st = Some h ->
  is_open h (env st) = true ->
  let n := length (byte_chunks (Np.tobytes (Deque.items (audio_buffer st)))) in
  let st' := iter_thread (1 + 2 * n + 1) st in
  exists chunks,
    played (env st') = played (env st) ++ map (pair h) chunks
    /\ concat chunks = Np.tobytes (Deque.items (audio_buffer st))
    /\ thread (env st') = ThDone
    /\ after_queue (env st') = after_queue (env st) ++ [CbPlaybackFinished].
Proof.
  intros Hth Hplay Hps Hopen n st'.
  destruct (@playback_runs_to_completion st h Hth Hplay Hps Hopen)
    as (Hp & Ht & Hq & _).
  exists (byte_chunks (Np.tobytes (Deque.items (audio_buffer st)))).
  split; [exact Hp |]. split; [| split; [exact Ht | exact Hq]].
  destruct (@byte_chunks_from_shape (Np.tobytes (Deque.items (audio_buffer st)))
              (length (Np.tobytes (Deque.items (audio_buffer st)))) 0 ltac:(lia))
    as (Hc & _).
  exact Hc.
Qed.

Lemma playback_writes_whole_clip_witness :
  thread (env st_playing) = ThStart
  /\ audio_playing st_playing = true
  /\ playback_stream st_playing = Some 4
  /\ is_open 4 (env st_playing) = true
  /\ exists chunks,
       played (env (iter_thread
          (1 + 2 * length (byte_chunks (Np.tobytes (Deque.items (audio_buffer st_playing)))) + 1)
          st_playing))
       = played (env st_playing) ++ map (pair 4) chunks
       /\ concat chunks = Np.tobytes (Deque.items (audio_buffer st_playing)).
Proof.
  assert (H1 : thread (env st_playing) = ThStart) by (vm_compute; reflexivity).
  assert (H2 : audio_playing st_playing = true) by (vm_compute; reflexivity).
  assert (H3 : playback_stream st_playing = Some 4) by (vm_compute; reflexivity).
  assert (H4 : is_open 4 (env st_playing) = true) by (vm_compute; reflexivity).
  destruct (@playback_writes_whole_clip st_playing 4 H1 H2 H3 H4)
    as (chunks & Hp & Hc & _).
  split; [exact H1 |]. split; [exact H2 |]. split; [exact H3 |].
  split; [exact H4 |]. exists chunks. split; [exact Hp | exact Hc].
Defined.

(** X2.  When a playback runs to its natural end and
    [_playback_finished] has run, the flag is down and the status says
    finished, but the output stream is still held and still open:
    nothing on this path closes it.  The next click on PLAYBACK starts a
    new playback. *)
Theorem natural_end_keeps_the_stream_open st h :
  thread (env st) = ThStart ->
  audio_playing st = true ->
  playback_stream st = Some h ->
  is_open h (env st) = true ->
  let n := length (byte_chunks (Np.tobytes (Deque.items (audio_buffer st)))) in
  let ended := iter_thread (1 + 2 * n + 1) st in
  let settled := dispatch (length (after_queue (env st))) ended in
  audio_playing settled = false
  /\ audio_status_var settled = StPlaybackFinished
  /\ playback_stream settled = Some h
  /\ is_open h (env settled) = true
  /\ after_queue (env settled) = after_queue (env st)
  /\ toggle_playback settled = start_playback settled.
Proof.
  intros Hth Hplay Hps Hopen n ended settled.
  destruct (@playback_runs_to_completion st h Hth Hplay Hps Hopen)
    as (_ & _ & Hq0 & Hs0 & Ho0).
  assert (Hq : after_queue (env ended) = after_queue (env st) ++ [CbPlaybackFinished])
    by exact Hq0.
  assert (Hs : playback_stream ended = Some h) by exact Hs0.
  assert (Ho : is_open h (env ended) = true) by exact Ho0.
  clear Hq0 Hs0 Ho0.
  assert (E : settled
              = _playback_finished
                  (upd_env (fun e => set_after_queue
                              (remove_nth (length (after_queue (env st)))
                                          (after_queue e)) e) ended)).
  { unfold settled, dispatch. rewrite Hq.
    rewrite nth_error_app2 by lia. rewrite Nat.sub_diag. reflexivity. }
  assert (Hrm : forall (A : Type) (l : list A) x, remove_nth (length l) (l ++ [x]) = l).
  { intros A l x. induction l as [| y l IH]; [reflexivity |].
    cbn [length app remove_nth]. now rewrite IH. }
  assert (Hplaying : audio_playing settled = false) by (rewrite E; reflexivity).
  split; [exact Hplaying |].
  split; [rewrite E; reflexivity |].
  split; [rewrite E; exact Hs |].
  split; [rewrite E; exact Ho |].
  split.
  { rewrite E.
    change (remove_nth (length (after_queue (env st))) (after_queue (env ended))
            = after_queue (env st)).
    rewrite Hq. apply Hrm. }
  unfold toggle_playback. rewrite Hplaying. reflexivity.
Qed.

Lemma natural_end_keeps_the_stream_open_witness :
  thread (env st_playing) = ThStart
  /\ audio_playing st_playing = true
  /\ playback_stream st_playing = Some 4
  /\ is_open 4 (env st_playing) = true
  /\ is_open 4
       (env (dispatch (length (after_queue (env st_playing)))
               (iter_thread
                  (1 + 2 * length (byte_chunks
                                     (Np.tobytes (Deque.items (audio_buffer st_playing)))) + 1)
                  st_playing))) = true.
Proof.
  assert (H1 : thread (env st_playing) = ThStart) by (vm_compute; reflexivity).
  assert (H2 : audio_playing st_playing = true) by (vm_compute; reflexivity).
  assert (H3 : playback_stream st_playing = Some 4) by (vm_compute; reflexivity).
  assert (H4 : is_open 4 (env st_playing) = true) by (vm_compute; reflexivity).
  destruct (@natural_end_keeps_the_stream_open st_playing 4 H1 H2 H3 H4)
    as (_ & _ & _ & Ho & _).
  split; [exact H1 |]. split; [exact H2 |]. split; [exact H3 |].
  split; [exact H4 | exact Ho].
Defined.


(** ** The envelope and the stereo traces *)

Section RangeShape.
Variables (stop step : nat).
Hypothesis step_pos : 0 < step.

Lemma range_shape : forall f start,
  stop - start <= f ->
  length (Py.range start stop step) = ceil_div (stop - start) step
  /\ forall j, j < ceil_div (stop - start) step ->
       nth_error (Py.range start stop step) j = Some (start + j * step)
       /\ start + j * step < stop.
Proof.
  induction f as [| f IH]; intros start Hf;
    rewrite (range_unfold step_pos);
    destruct (Nat.ltb_spec start stop) as [Hlt | Hge]; try lia.
  - replace (stop - start) with 0 by lia. rewrite ceil_div_0 by exact step_pos.
    split; [reflexivity | intros j Hj; lia].
  - destruct (IH (start + step) ltac:(lia)) as (Hl & Hn).
    rewrite (@ceil_div_step (stop - start) step) by lia.
    replace (stop - start - step) with (stop - (start + step)) by lia.
    cbn [length]. rewrite Hl. split; [reflexivity |].
    intros [| j] Hj.
    + cbn. split; [f_equal; lia | lia].
    + cbn [nth_error]. destruct (Hn j ltac:(lia)) as (E & B).
      rewrite E. split; [f_equal; lia | lia].
  - replace (stop - start) with 0 by lia. rewrite ceil_div_0 by exact step_pos.
    split; [reflexivity | intros j Hj; lia].
Qed.
End RangeShape.

Section EnvelopeShape.
Import Analysis.

Lemma filter_all (A : Type) (p : A -> bool) l :
  Forall (fun x => p x = true) l -> filter p l = l.
Proof.
  induction 1 as [| x l Hx _ IH]; [reflexivity |].
  cbn [filter]. now rewrite Hx, IH.
Qed.

(** No window of the loop is empty: the [if len(window) > 0] test never
    fails. *)
Lemma envelope_windows (pattern_data : list Z) :
  filter (fun iw : nat * list Z => 0 <? length (snd iw))
         (map (fun i => (i, Py.slice i (i + window_size) pattern_data))
              (Py.range 0 (length pattern_data) window_size))
  = map (fun i => (i, Py.slice i (i + window_size) pattern_data))
        (Py.range 0 (length pattern_data) window_size).
Proof.
  apply filter_all. rewrite Forall_map, Forall_forall. intros i Hin.
  cbn [snd]. apply Nat.ltb_lt.
  apply In_nth_error in Hin as (j & Hj).
  assert (P : 0 < window_size) by (unfold window_size; lia).
  destruct (@range_shape (length pattern_data) window_size P
              (length pattern_data) 0 ltac:(lia)) as (Hl & Hn).
  assert (Hlt : j < ceil_div (length pattern_data - 0) window_size).
  { rewrite <- Hl. apply nth_error_Some. congruence. }
  destruct (Hn j Hlt) as (E & B). rewrite E in Hj. injection Hj as <-.
  apply slice_nonempty; lia.
Qed.
End EnvelopeShape.

(** X14.  For a non-empty history of [L] samples the envelope
    loop produces [ceil (L / 1000)] points, none skipped: point [j] is
    at time [1000 j / sample_rate] and is the figure computed from the
    samples [1000 j] to [1000 j + 999].  With a sample rate of 0 the
    loop raises instead. *)
Theorem envelope_has_one_point_per_window (pattern_data : list Z) (sample_rate : Z) :
  pattern_data <> [] ->
  let n := ceil_div (length pattern_data) Analysis.window_size in
  (sample_rate = 0%Z ->
   Analysis.envelope_points pattern_data sample_rate = None)
  /\ (sample_rate <> 0%Z ->
      exists time_points envelope,
        Analysis.envelope_points pattern_data sample_rate
        = Some (time_points, envelope)
        /\ length time_points = n
        /\ length envelope = n
        /\ forall j, j < n ->
             nth_error time_points j
             = Some (PrimFloat.div (Np.float_of_Z (Z.of_nat (j * 1000)))
                                   (Np.float_of_Z sample_rate))
             /\ nth_error envelope j
                = Some (Analysis.rms
                          (Py.slice (j * 1000) (j * 1000 + 1000) pattern_data))).
Proof.
  intros Hne n.
  assert (P : 0 < Analysis.window_size) by (unfold Analysis.window_size; lia).
  destruct (@range_shape (length pattern_data) Analysis.window_size P
              (length pattern_data) 0 ltac:(lia)) as (Hl & Hn).
  rewrite Nat.sub_0_r in Hl, Hn. fold n in Hl, Hn.
  assert (Hpos : 0 < n).
  { unfold n. destruct pattern_data as [| x r]; [congruence |].
    rewrite (@ceil_div_step (length (x :: r)) Analysis.window_size); cbn [length]; lia. }
  unfold Analysis.envelope_points. cbv zeta. rewrite envelope_windows.
  remember (map (fun i => (i, Py.slice i (i + Analysis.window_size) pattern_data))
                (Py.range 0 (length pattern_data) Analysis.window_size))
    as ws eqn:Ews.
  assert (Lws : length ws = n) by (rewrite Ews, length_map; exact Hl).
  destruct ws as [| w ws']; [cbn [length] in Lws; lia |].
  rewrite Ews. clear Ews Lws w ws'.
  split.
  - intros ->. reflexivity.
  - intros Hsr. apply Z.eqb_neq in Hsr. rewrite Hsr.
    eexists _, _. split; [reflexivity |].
    rewrite !length_map.
    split; [exact Hl |]. split; [exact Hl |].
    intros j Hj. destruct (Hn j Hj) as (Ej & _). cbn [Nat.add] in Ej.
    rewrite !map_map, !nth_error_map, Ej. cbn [option_map fst snd].
    split; reflexivity.
Qed.

Lemma envelope_has_one_point_per_window_witness :
  exists time_points envelope,
    Analysis.envelope_points (repeat 5%Z 2500) 16000 = Some (time_points, envelope)
    /\ length time_points = 3.
Proof.
  assert (H1 : repeat 5%Z 2500 <> []) by discriminate.
  assert (H2 : 16000%Z <> 0%Z) by lia.
  destruct (@envelope_has_one_point_per_window (repeat 5%Z 2500) 16000 H1)
    as (_ & H).
  destruct (H H2) as (tp & ev & E & L & _).
  exists tp, ev. split; [exact E |].
  rewrite L. vm_compute. reflexivity.
Defined.

(** X15.  With a channel count other than 1 and at least two
    samples, the top panel shows two traces of equal length [n / 2]:
    trace one holds the samples at even positions, trace two those at
    odd positions; with an odd number of samples the last one is left
    out. *)
Theorem stereo_traces_deinterleave (recent_data : list Z) (channels : Z) st :
  channels <> 1%Z ->
  2 <= length recent_data ->
  let half := length recent_data / 2 in
  exists left_channel right_channel,
    ax1 (_plot_realtime_waveform recent_data channels st)
    = [left_channel; right_channel]
    /\ length left_channel = half
    /\ length right_channel = half
    /\ forall j, j < half ->
         nth_error left_channel j = nth_error recent_data (2 * j)
         /\ nth_error right_channel j = nth_error recent_data (2 * j + 1).
Proof.
  intros Hch Hlen half. unfold _plot_realtime_waveform.
  apply Z.eqb_neq in Hch. rewrite Hch.
  apply Nat.leb_le in Hlen. rewrite Hlen. apply Nat.leb_le in Hlen.
  eexists _, _. split; [reflexivity |].
  unfold Py.slice_step, Py.slice_from_step.
  assert (Ll : length (Py.every 2 0 recent_data) = (length recent_data + 1) / 2).
  { rewrite (@every_length Z 1) by lia. f_equal. lia. }
  assert (Lr : length (Py.every 2 0 (skipn 1 recent_data)) = half).
  { rewrite (@every_length Z 1) by lia. rewrite length_skipn.
    unfold half. f_equal. lia. }
  assert (Hle : half <= (length recent_data + 1) / 2).
  { unfold half. apply Nat.Div0.div_le_mono. lia. }
  rewrite Ll, Lr, Nat.min_r by exact Hle.
  rewrite !length_firstn, Ll, Lr.
  split; [lia |]. split; [lia |].
  intros j Hj.
  rewrite !nth_error_firstn.
  apply Nat.ltb_lt in Hj. rewrite Hj.
  rewrite !(@every_nth_error Z 1). cbn [Nat.add].
  split; [f_equal; lia |].
  rewrite nth_error_skipn. f_equal. lia.
Qed.

Lemma stereo_traces_deinterleave_witness :
  exists left_channel right_channel,
    ax1 (_plot_realtime_waveform [1; -1; 2; -2; 3]%Z 2 st_ready)
    = [left_channel; right_channel]
    /\ length left_channel = 2
    /\ length right_channel = 2.
Proof.
  assert (H1 : 2%Z <> 1%Z) by lia.
  assert (H2 : 2 <= length [1; -1; 2; -2; 3]%Z) by (simpl; lia).
  destruct (@stereo_traces_deinterleave [1; -1; 2; -2; 3]%Z 2 st_ready H1 H2)
    as (l & r & E & Ll & Lr & _).
  exists l, r. split; [exact E |]. split; [exact Ll | exact Lr].
Defined.

(** ** Render ticks that are pending *)

Section Ticks.

Lemma pending_ticks_app q q' :
  pending_ticks (q ++ q') = pending_ticks q + pending_ticks q'.
Proof. unfold pending_ticks. now rewrite filter_app, length_app. Qed.

Lemma pending_ticks_remove : forall q i,
  nth_error q i = Some CbUpdateVisualization ->
  pending_ticks q = S (pending_ticks (remove_nth i q)).
Proof.
  induction q as [| cb q IH]; intros [| i] H; try discriminate.
  - cbn in H. injection H as ->. reflexivity.
  - cbn [nth_error] in H. cbn [remove_nth].
    unfold pending_ticks in *. cbn [filter].
    destruct cb; cbn [length]; now rewrite (IH i H).
Qed.

Lemma stop_listening_queue st :
  after_queue (env (stop_listening st)) = after_queue (env st).
Proof.
  unfold stop_listening.
  destruct (audio_stream st);
    match goal with
    | |- context [match audio ?s with Some _ => _ | None => _ end] =>
        destruct (audio s)
    end; reflexivity.
Qed.

Lemma stop_recording_queue st :
  after_queue (env (stop_recording st)) = after_queue (env st).
Proof.
  unfold stop_recording.
  destruct (audio_stream st);
    match goal with
    | |- context [match audio ?s with Some _ => _ | None => _ end] =>
        destruct (audio s)
    end;
    match goal with |- context [if ?b then _ else _] => destruct b end;
    reflexivity.
Qed.

Lemma update_recording_duration_queue st :
  pending_ticks (after_queue (env (update_recording_duration st)))
  = pending_ticks (after_queue (env st)).
Proof.
  unfold update_recording_duration.
  destruct (recording_start_time st); [| reflexivity].
  destruct (_ && _); [| reflexivity].
  unfold after, upd_env. cbn [env set_env after_queue set_after_queue].
  rewrite pending_ticks_app. cbn. lia.
Qed.
End Ticks.

(** X16.  Every start that succeeds queues one more render tick,
    no stop cancels one, and a tick that runs while a capture is active
    queues its successor: the number of pending render ticks grows by
    one with each start and does not drop while any capture is
    active. *)
Theorem render_ticks_accumulate idx info now st :
  selected_device_index st = Some idx ->
  nth_error (devices (env st)) idx = Some info ->
  input_ok info (settled_config info (sample_rate_var st) (channels_var st)) = true ->
  let pending s := pending_ticks (after_queue (env s)) in
  pending (start_listening st) = S (pending st)
  /\ pending (start_recording now st) = S (pending st)
  /\ pending (stop_listening st) = pending st
  /\ pending (stop_recording st) = pending st
  /\ forall i,
       capture_active st = true ->
       nth_error (after_queue (env st)) i = Some CbUpdateVisualization ->
       pending (dispatch i st) = pending st
       /\ capture_active (dispatch i st) = true.
Proof.
  intros Hsel Hdev Hok pending. unfold pending.
  split; [| split; [| split; [| split]]].
  - destruct (start_listening_eq st Hsel Hdev) as (e1 & Hp & _ & Heq).
    cbv zeta in Heq. rewrite Hok in Heq. rewrite Heq.
    destruct Hp as (_ & Hq & _).
    match goal with |- context [update_visualization ?s] =>
      destruct (update_visualization_frame s) as (_ & Q); rewrite Q;
      assert (Hact : capture_active s = true)
        by (unfold capture_active; cbn; apply orb_true_r);
      assert (Hqs : after_queue (env s) = after_queue (env st)) by exact Hq
    end.
    rewrite Hact, Hqs, pending_ticks_app.
    change (pending_ticks [CbUpdateVisualization]) with 1. lia.
  - destruct (start_recording_eq now st Hsel Hdev) as (e1 & Hp & _ & Heq).
    cbv zeta in Heq. rewrite Hok in Heq. rewrite Heq.
    destruct Hp as (_ & Hq & _).
    match goal with |- context [update_visualization ?s] =>
      destruct (update_visualization_frame s) as (_ & Q); rewrite Q;
      assert (Hact : capture_active s = true)
    end.
    { unfold capture_active.
      match goal with |- context [update_recording_duration ?s] =>
        assert (F := update_recording_duration_frame s); frame_rw F
      end. reflexivity. }
    rewrite Hact, pending_ticks_app, update_recording_duration_queue.
    match goal with |- context [pending_ticks (after_queue (env ?s)) + _] =>
      change (after_queue (env s)) with (after_queue e1)
    end.
    rewrite Hq.
    change (pending_ticks [CbUpdateVisualization]) with 1.
    change (after_queue (set_next_instance (S (next_instance (env st))) (env st)))
      with (after_queue (env st)).
    lia.
  - now rewrite stop_listening_queue.
  - now rewrite stop_recording_queue.
  - intros i Hact Hi. unfold dispatch. rewrite Hi. cbn [run_callback].
    match goal with |- context [update_visualization ?s] =>
      destruct (update_visualization_frame s) as (F & Q); rewrite Q;
      assert (Hact' : capture_active s = true) by exact Hact
    end.
    rewrite Hact', pending_ticks_app.
    change (pending_ticks [CbUpdateVisualization]) with 1.
    rewrite (pending_ticks_remove _ _ Hi).
    split; [cbn [env upd_env set_env after_queue set_after_queue]; lia |].
    unfold capture_active. frame_rw F. exact Hact.
Qed.

Lemma render_ticks_accumulate_witness :
  pending_ticks (after_queue (env (start_recording 7 st_listening))) = 2.
Proof.
  assert (H1 : selected_device_index st_listening = Some 0)
    by (vm_compute; reflexivity).
  assert (H2 : nth_error (devices (env st_listening)) 0 = Some array_device)
    by (vm_compute; reflexivity).
  assert (H3 : input_ok array_device
                 (settled_config array_device
                    (sample_rate_var st_listening) (channels_var st_listening)) = true)
    by (vm_compute; reflexivity).
  destruct (@render_ticks_accumulate 0 array_device 7 st_listening H1 H2 H3)
    as (_ & R & _).
  rewrite R. vm_compute. reflexivity.
Defined.

(** ** Clearing the short-term history *)

(** X17.  Clearing the audio data empties the short-term
    history only: the long-term history and the frame queue stay, and so
    does the enabled PLAYBACK button.  A click on it then shows the
    no-audio warning instead of starting a playback, and
    [save_recording] writes no file.  [clear_recording] does the same
    when confirmed and nothing when declined. *)
Theorem cleared_clip_cannot_be_played_or_saved st filename :
  playback_button_enabled st = true ->
  audio_playing st = false ->
  let cleared := clear_audio_data st in
  clear_recording true st = cleared
  /\ clear_recording false st = st
  /\ playback_button_enabled cleared = true
  /\ time_pattern_buffer cleared = time_pattern_buffer st
  /\ audio_data_queue cleared = audio_data_queue st
  /\ click_playback cleared = show WarnNoAudioToPlayBack cleared
  /\ save_recording filename cleared = None.
Proof.
  intros Hbtn Hplay cleared.
  split; [reflexivity |]. split; [reflexivity |].
  split; [exact Hbtn |]. split; [reflexivity |]. split; [reflexivity |].
  split.
  - unfold click_playback, toggle_playback.
    change (playback_button_enabled cleared) with (playback_button_enabled st).
    change (audio_playing cleared) with (audio_playing st).
    rewrite Hbtn, Hplay. reflexivity.
  - reflexivity.
Qed.

Lemma cleared_clip_cannot_be_played_or_saved_witness :
  dialogs (env (click_playback (clear_audio_data st_clip)))
  = [WarnNoAudioToPlayBack].
Proof.
  assert (H1 : playback_button_enabled st_clip = true) by (vm_compute; reflexivity).
  assert (H2 : audio_playing st_clip = false) by (vm_compute; reflexivity).
  destruct (@cleared_clip_cannot_be_played_or_saved st_clip None H1 H2)
    as (_ & _ & _ & _ & _ & E & _).
  rewrite E. vm_compute. reflexivity.
Defined.

(** ** The "Max" figure *)

Section MaxAmplitude.
Local Open Scope Z_scope.

Lemma fold_max_ge : forall (l : list Z) m, m <= fold_left Z.max l m.
Proof.
  induction l as [| x l IH]; intros m; cbn [fold_left]; [lia |].
  specialize (IH (Z.max m x)). lia.
Qed.

Lemma fold_max_spec : forall (l : list Z) m,
  (fold_left Z.max l m = m \/ In (fold_left Z.max l m) l)
  /\ Forall (fun x => x <= fold_left Z.max l m) l.
Proof.
  induction l as [| x l IH]; intros m; cbn [fold_left].
  - split; [now left | constructor].
  - destruct (IH (Z.max m x)) as ([E | I] & F).
    + split.
      * destruct (Z.max_spec m x) as [(_ & Hm) | (_ & Hm)]; rewrite E, Hm.
        -- right. now left.
        -- now left.
      * constructor; [| exact F]. rewrite E. lia.
    + split; [right; now right |].
      constructor; [| exact F].
      assert (G := fold_max_ge l (Z.max m x)). lia.
Qed.

Lemma np_max_spec (a : list Z) m :
  np_max a = Some m -> In m a /\ Forall (fun x => x <= m) a.
Proof.
  destruct a as [| x r]; [discriminate |]. cbn [np_max]. intros [= <-].
  destruct (fold_max_spec r x) as ([E | I] & F).
  - split; [rewrite E; now left |].
    constructor; [apply fold_max_ge | exact F].
  - split; [now right |].
    constructor; [apply fold_max_ge | exact F].
Qed.

Lemma np_abs_exact (a : list Z) :
  Forall (fun x => -32768 < x < 32768) a -> np_abs a = map Z.abs a.
Proof.
  induction 1 as [| x a Hx _ IH]; [reflexivity |].
  unfold np_abs in *. cbn [map]. rewrite IH, wrap16_small by lia. reflexivity.
Qed.
End MaxAmplitude.

(** X18.  The "Max" figure, [np.max(np.abs(a))] on [int16]
    data, is the largest magnitude in the array as long as -32768 does
    not occur.  The magnitude of -32768 wraps back to -32768: an array
    of nothing but full-scale negative samples is reported with the
    maximum -32768. *)
Theorem max_amplitude_wraps_at_full_scale (audio_data : list Z) :
  audio_data <> [] ->
  Forall int16 audio_data ->
  (exists m, max_amplitude audio_data = Some m)
  /\ (Forall (fun x => x <> (-32768)%Z) audio_data ->
      exists m, max_amplitude audio_data = Some m
        /\ In m (map Z.abs audio_data)
        /\ Forall (fun x => (Z.abs x <= m)%Z) audio_data)
  /\ (Forall (fun x => x = (-32768)%Z) audio_data ->
      max_amplitude audio_data = Some (-32768)%Z).
Proof.
  intros Hne Hint.
  assert (Hsome : exists m, max_amplitude audio_data = Some m).
  { destruct audio_data as [| x r]; [congruence |]. eexists. reflexivity. }
  split; [exact Hsome |]. split.
  - intros Hnot. destruct Hsome as (m & Hm). exists m. split; [exact Hm |].
    unfold max_amplitude in Hm. rewrite np_abs_exact in Hm.
    + destruct (np_max_spec _ Hm) as (Hin & Hall). split; [exact Hin |].
      rewrite Forall_map in Hall. exact Hall.
    + rewrite Forall_forall in *. intros x Hx.
      specialize (Hint x Hx). specialize (Hnot x Hx). unfold int16 in Hint. lia.
  - intros Hall. destruct Hsome as (m & Hm). rewrite Hm. f_equal.
    unfold max_amplitude in Hm. destruct (np_max_spec _ Hm) as (Hin & _).
    unfold np_abs in Hin. apply in_map_iff in Hin as (x & <- & Hx).
    rewrite Forall_forall in Hall. rewrite (Hall x Hx). reflexivity.
Qed.

Lemma max_amplitude_wraps_at_full_scale_witness :
  max_amplitude [-32768; -32768]%Z = Some (-32768)%Z
  /\ exists m, max_amplitude [3; -32768; 100]%Z = Some m.
Proof.
  assert (H1 : [-32768; -32768]%Z <> []) by discriminate.
  assert (H2 : Forall int16 [-32768; -32768]%Z)
    by (repeat constructor; unfold int16; lia).
  assert (H3 : Forall (fun x => x = (-32768)%Z) [-32768; -32768]%Z)
    by (repeat constructor).
  assert (H4 : [3; -32768; 100]%Z <> []) by discriminate.
  assert (H5 : Forall int16 [3; -32768; 100]%Z)
    by (repeat constructor; unfold int16; lia).
  split.
  - exact (proj2 (proj2 (@max_amplitude_wraps_at_full_scale _ H1 H2)) H3).
  - exact (proj1 (@max_amplitude_wraps_at_full_scale _ H4 H5)).
Defined.

(** ** The command layer *)

Section Strip.
Import Xvf.

Lemma lstrip_empty s : lstrip s = String.EmptyString <-> blank s = true.
Proof.
  induction s as [| c r IH]; cbn [lstrip blank]; [tauto |].
  destruct (isspace c); cbn [andb]; [exact IH |].
  split; discriminate.
Qed.

Lemma blank_lstrip s : blank (lstrip s) = blank s.
Proof.
  induction s as [| c r IH]; cbn [lstrip blank]; [reflexivity |].
  destruct (isspace c) eqn:E; cbn [andb]; [exact IH |].
  cbn [blank]. now rewrite E.
Qed.

Lemma blank_rev_string : forall s acc,
  blank (rev_string s acc) = blank s && blank acc.
Proof.
  induction s as [| c r IH]; intros acc; cbn [rev_string blank]; [reflexivity |].
  rewrite IH. cbn [blank]. destruct (isspace c), (blank r); reflexivity.
Qed.

Lemma rev_string_empty : forall s acc,
  rev_string s acc = String.EmptyString
  <-> s = String.EmptyString /\ acc = String.EmptyString.
Proof.
  induction s as [| c r IH]; intros acc; cbn [rev_string].
  - tauto.
  - rewrite IH. split; [intros (_ & H); discriminate | intros (H & _); discriminate].
Qed.

(** [strip] leaves nothing exactly of the strings that are all white
    space. *)
Lemma strip_empty s : strip s = String.EmptyString <-> blank s = true.
Proof.
  unfold strip. rewrite rev_string_empty, lstrip_empty, blank_rev_string.
  rewrite blank_lstrip. cbn [blank]. rewrite andb_true_r. tauto.
Qed.

Lemma truthy_some s : truthy (Some s) = true <-> s <> String.EmptyString.
Proof.
  destruct s; cbn [truthy]; split; try congruence; discriminate.
Qed.
End Strip.

Section Commands.
Import Xvf.

(** A command gives a result that counts as true exactly when the
    executable was found, ran to exit code 0 and printed something other
    than white space. *)
Lemma run_xvf_command_truthy xvf_host_path outcome :
  truthy (run_xvf_command xvf_host_path outcome) = true
  <-> truthy xvf_host_path = true
      /\ exists stdout stderr,
           outcome = Completed 0 stdout stderr /\ blank stdout = false.
Proof.
  unfold run_xvf_command.
  destruct (truthy xvf_host_path); cbn [negb].
  2:{ cbn [truthy]. split; [discriminate | intros (H & _); discriminate]. }
  destruct outcome as [returncode stdout stderr | |].
  - destruct (Z.eqb_spec returncode 0) as [-> | Hrc].
    + rewrite truthy_some. split.
      * intros Hne. split; [reflexivity |]. exists stdout, stderr.
        split; [reflexivity |].
        destruct (blank stdout) eqn:E; [| reflexivity].
        apply strip_empty in E. contradiction.
      * intros (_ & so & se & Heq & Hb) Hs.
        injection Heq as <- _. apply strip_empty in Hs. congruence.
    + cbn [truthy]. split; [discriminate |].
      intros (_ & so & se & Heq & _). injection Heq as E _ _. contradiction.
  - cbn [truthy]. split; [discriminate |].
    intros (_ & so & se & Heq & _). discriminate.
  - cbn [truthy]. split; [discriminate |].
    intros (_ & so & se & Heq & _). discriminate.
Qed.
End Commands.

(** X19.  [save_configuration] reports success exactly when
    the device counts as connected, the executable was found, it ended
    with exit code 0 and it printed something other than white space; a
    run that succeeds silently is reported as a failure.  It answers
    "not connected" exactly when the flag is down, and then runs
    nothing.  The connection check sets the flag by the same test. *)
Theorem save_is_reported_only_on_printed_output device_connected xvf_host_path outcome :
  let res := Xvf.save_configuration device_connected xvf_host_path outcome in
  (fst res = Xvf.InfoConfigurationSaved
   <-> device_connected = true
       /\ Xvf.truthy xvf_host_path = true
       /\ exists stdout stderr,
            outcome = Xvf.Completed 0 stdout stderr /\ blank stdout = false)
  /\ (fst res = Xvf.ErrDeviceNotConnected <-> device_connected = false)
  /\ (snd res = true
      <-> device_connected = true /\ Xvf.truthy xvf_host_path = true)
  /\ (Xvf.check_connection xvf_host_path outcome = true
      <-> Xvf.truthy xvf_host_path = true
          /\ exists stdout stderr,
               outcome = Xvf.Completed 0 stdout stderr /\ blank stdout = false).
Proof.
  cbv zeta.
  assert (R := run_xvf_command_truthy xvf_host_path outcome).
  unfold Xvf.save_configuration, Xvf.check_connection.
  split; [| split; [| split; [| exact R]]].
  - destruct device_connected; cbn [negb].
    + destruct (Xvf.truthy (Xvf.run_xvf_command xvf_host_path outcome)); cbn [fst].
      * split; [intros _; split; [reflexivity | now apply R] | reflexivity].
      * split; [discriminate |]. intros (_ & H). apply R in H. discriminate.
    + cbn [fst]. split; [discriminate | intros (H & _); discriminate].
  - destruct device_connected; cbn [negb].
    + destruct (Xvf.truthy (Xvf.run_xvf_command xvf_host_path outcome)); cbn [fst];
        split; discriminate.
    + cbn [fst]. split; reflexivity.
  - destruct device_connected; cbn [negb].
    + destruct (Xvf.truthy (Xvf.run_xvf_command xvf_host_path outcome)); cbn [snd];
        (split; [intros H; split; [reflexivity | exact H] | intros (_ & H); exact H]).
    + cbn [snd]. split; [discriminate | intros (H & _); discriminate].
Qed.

(** ** The Refresh button *)

(** X20.  Refresh terminates the [PyAudio] instance the
    application holds.  When that instance owns the capture stream, the
    stream is closed by it, while the listening and recording flags, the
    status text and the stored handle stay as they were and no dialog is
    shown; the render ticks keep rescheduling themselves. *)
Theorem refresh_cuts_a_running_capture st i h :
  audio st = Some i ->
  audio_stream st = Some h ->
  forallb (fun s => implb (Pa.handle s =? h) (Pa.owner s =? i))
          (streams (env st)) = true ->
  let st' := refresh_audio_devices st in
  is_open h (env st') = false
  /\ audio_stream st' = Some h
  /\ audio_listening st' = audio_listening st
  /\ audio_recording st' = audio_recording st
  /\ audio_status_var st' = audio_status_var st
  /\ dialogs (env st') = dialogs (env st)
  /\ forall j,
       capture_active st = true ->
       nth_error (after_queue (env st')) j = Some CbUpdateVisualization ->
       capture_active (dispatch j st') = true
       /\ after_queue (env (dispatch j st'))
          = remove_nth j (after_queue (env st')) ++ [CbUpdateVisualization].
Proof.
  intros Ha Hs Hown st'.
  destruct (refresh_audio_devices_frame st)
    as (S' & _ & _ & A' & AS' & _ & _ & L' & R' & V' & Q' & D').
  fold st' in S', A', AS', L', R', V', Q', D'. rewrite Ha in S'.
  cbn [terminate_opt] in S'.
  split.
  { unfold is_open. rewrite S'. clear S'.
    induction (streams (env st)) as [| s l IH]; [reflexivity |].
    cbn [forallb] in Hown. apply andb_true_iff in Hown as (Hs0 & Hl).
    cbn [filter]. destruct (Nat.eqb_spec (Pa.owner s) i) as [Eo | No]; cbn [negb].
    - apply IH, Hl.
    - cbn [existsb]. rewrite (IH Hl), orb_false_r.
      destruct (Pa.handle s =? h); [discriminate | reflexivity]. }
  split; [congruence |]. split; [exact L' |]. split; [exact R' |].
  split; [exact V' |]. split; [exact D' |].
  intros j Hact Hj. unfold dispatch. rewrite Hj. cbn [run_callback].
  match goal with |- context [update_visualization ?s] =>
    destruct (update_visualization_frame s) as (F & Q);
    assert (Hact' : capture_active s = true)
  end.
  { unfold capture_active in *.
    cbn [audio_recording audio_listening upd_env set_env].
    now rewrite R', L'. }
  split.
  - unfold capture_active in *. frame_rw F. exact Hact'.
  - rewrite Q, Hact'. reflexivity.
Qed.

Lemma refresh_cuts_a_running_capture_witness :
  audio_listening st_listening = true
  /\ is_open 1 (env st_listening) = true
  /\ is_open 1 (env (refresh_audio_devices st_listening)) = false
  /\ audio_listening (refresh_audio_devices st_listening) = true
  /\ audio_stream (refresh_audio_devices st_listening) = Some 1.
Proof.
  assert (H1 : audio st_listening = Some 1) by (vm_compute; reflexivity).
  assert (H2 : audio_stream st_listening = Some 1) by (vm_compute; reflexivity).
  assert (H3 : forallb (fun s => implb (Pa.handle s =? 1) (Pa.owner s =? 1))
                 (streams (env st_listening)) = true) by (vm_compute; reflexivity).
  assert (H4 : audio_listening st_listening = true) by (vm_compute; reflexivity).
  assert (H5 : is_open 1 (env st_listening) = true) by (vm_compute; reflexivity).
  destruct (@refresh_cuts_a_running_capture st_listening 1 1 H1 H2 H3)
    as (O & S & L & _).
  split; [exact H4 |]. split; [exact H5 |]. split; [exact O |].
  split; [rewrite L; exact H4 | exact S].
Defined.

(** ** What Refresh selects *)

Section Selection.
Variables (A : Type) (P Q : A -> bool).

Lemma find_indexed : forall (l : list A) k d,
  find (fun d => P (snd d))
       (filter (fun d => Q (snd d)) (combine (seq k (length l)) l)) = Some d ->
  exists j,
    fst d = k + j
    /\ nth_error l j = Some (snd d)
    /\ Q (snd d) = true /\ P (snd d) = true
    /\ forall j' x, j' < j -> nth_error l j' = Some x -> Q x = true -> P x = false.
Proof.
  induction l as [| x l IH]; intros k d; cbn [length seq combine filter find];
    [discriminate |].
  cbn [snd]. destruct (Q x) eqn:Hq.
  - cbn [find snd]. destruct (P x) eqn:Hp.
    + intros [= <-]. exists 0. cbn. repeat split; auto. intros j' y Hj'. lia.
    + intros Hf. destruct (IH (S k) d Hf) as (j & Hfst & Hnth & HQ & HP & Hmin).
      exists (S j). split; [lia |]. split; [exact Hnth |].
      split; [exact HQ |]. split; [exact HP |].
      intros [| j'] y Hj' Hy Hqy.
      * cbn in Hy. injection Hy as <-. exact Hp.
      * cbn in Hy. apply (Hmin j' y); [lia | assumption | assumption].
  - intros Hf. destruct (IH (S k) d Hf) as (j & Hfst & Hnth & HQ & HP & Hmin).
    exists (S j). split; [lia |]. split; [exact Hnth |].
    split; [exact HQ |]. split; [exact HP |].
    intros [| j'] y Hj' Hy Hqy.
    + cbn in Hy. injection Hy as <-. congruence.
    + cbn in Hy. apply (Hmin j' y); [lia | assumption | assumption].
Qed.

Lemma filter_indexed_nil : forall (l : list A) k,
  Forall (fun x => Q x = false) l ->
  filter (fun d : nat * A => Q (snd d)) (combine (seq k (length l)) l) = [].
Proof.
  induction l as [| x l IH]; intros k Hl; [reflexivity |].
  inversion Hl as [| ? ? Hx Hl']; subst.
  cbn [length seq combine filter snd]. rewrite Hx. now apply IH.
Qed.
End Selection.

(** X21.  When Refresh changes the selection, the device it
    selects has input channels and a name containing [reSpeaker] or
    [XVF3800], and it is the first such device in PortAudio's table.
    When no device has input channels, the selection is dropped. *)
Theorem refresh_selects_the_first_array st :
  let st' := refresh_audio_devices st in
  (forall i,
     selected_device_index st' = Some i ->
     selected_device_index st <> Some i ->
     exists info,
       nth_error (devices (env st)) i = Some info
       /\ (0 < Pa.maxInputChannels info)%Z
       /\ is_respeaker info = true
       /\ forall j other,
            j < i -> nth_error (devices (env st)) j = Some other ->
            (0 < Pa.maxInputChannels other)%Z -> is_respeaker other = false)
  /\ (Forall (fun info => (Pa.maxInputChannels info <= 0)%Z) (devices (env st)) ->
      selected_device_index st' = None).
Proof.
  cbv zeta. unfold refresh_audio_devices. cbn [pa_new].
  set (st2 := set_audio _ (set_env _ _)).
  assert (Hd : devices (env st2) = devices (env st)).
  { unfold st2. destruct (audio st); reflexivity. }
  assert (Hs : selected_device_index st2 = selected_device_index st).
  { unfold st2. destruct (audio st); reflexivity. }
  unfold device_list. rewrite Hd.
  split.
  - intros i Hi Hne.
    destruct (find _ _) as [d |] eqn:Hf.
    + assert (Hsel : Some (fst d) = Some i).
      { destruct (filter _ _); [discriminate Hf | exact Hi]. }
      injection Hsel as <-.
      destruct (@find_indexed _ is_respeaker
                  (fun info => (0 <? Pa.maxInputChannels info)%Z)
                  (devices (env st)) 0 d Hf)
        as (j & Hfst & Hnth & HQ & HP & Hmin).
      cbn [Nat.add] in Hfst. subst j.
      exists (snd d). split; [exact Hnth |].
      split; [now apply Z.ltb_lt |]. split; [exact HP |].
      intros j other Hj Ho Hin. apply (Hmin j other Hj Ho). now apply Z.ltb_lt.
    + exfalso. apply Hne. rewrite <- Hs.
      destruct (filter _ _); [discriminate | exact Hi].
  - intros Hall.
    rewrite (@filter_indexed_nil _ (fun info => (0 <? Pa.maxInputChannels info)%Z)).
    + reflexivity.
    + eapply Forall_impl; [| exact Hall]. cbn. intros info H.
      apply Z.ltb_ge. exact H.
Qed.

Lemma refresh_selects_the_first_array_witness :
  selected_device_index
    (refresh_audio_devices (__init__ [default_only_device; array_device] (Some 1)))
  = Some 1.
Proof.
  assert (E : selected_device_index
                (refresh_audio_devices (__init__ [default_only_device; array_device] (Some 1)))
              = Some 1) by (vm_compute; reflexivity).
  assert (N : selected_device_index (__init__ [default_only_device; array_device] (Some 1))
              <> Some 1) by (vm_compute; discriminate).
  destruct (proj1 (refresh_selects_the_first_array
                     (__init__ [default_only_device; array_device] (Some 1))) 1 E N)
    as (info & _).
  exact E.
Defined.

(** ** The recording clock *)

Section Clock.

Lemma clock_same st st' :
  audio_paused st' = audio_paused st ->
  recording_start_time st' = recording_start_time st ->
  audio_recording st' = audio_recording st ->
  clock_consistent st -> clock_consistent st'.
Proof. unfold clock_consistent. now intros -> -> ->. Qed.

Lemma clock_tick st st' :
  untouched_by_tick st' = untouched_by_tick st ->
  clock_consistent st -> clock_consistent st'.
Proof. intros F. use_frame F. now apply clock_same. Qed.

Lemma start_listening_clock st :
  clock_consistent st -> clock_consistent (start_listening st).
Proof.
  intros H.
  destruct (selected_device_index st) as [idx |] eqn:Hsel.
  2:{ unfold start_listening. cbn [pa_new].
      cbn [selected_device_index set_audio set_env]. rewrite Hsel. exact H. }
  destruct (nth_error (devices (env st)) idx) as [info |] eqn:Hdev.
  2:{ unfold start_listening. cbn [pa_new].
      cbn [selected_device_index set_audio set_env env devices set_next_instance].
      rewrite Hsel, Hdev. exact H. }
  destruct (start_listening_eq st Hsel Hdev) as (e1 & _ & _ & ->).
  destruct (input_ok info _); [| exact H].
  eapply clock_tick; [apply update_visualization_frame | exact H].
Qed.

Lemma start_recording_clock now st :
  clock_consistent st -> clock_consistent (start_recording now st).
Proof.
  intros H.
  destruct (selected_device_index st) as [idx |] eqn:Hsel.
  2:{ unfold start_recording. cbn [pa_new].
      cbn [selected_device_index set_audio set_env]. rewrite Hsel. exact H. }
  destruct (nth_error (devices (env st)) idx) as [info |] eqn:Hdev.
  2:{ unfold start_recording. cbn [pa_new].
      cbn [selected_device_index set_audio set_env env devices set_next_instance].
      rewrite Hsel, Hdev. exact H. }
  destruct (start_recording_eq now st Hsel Hdev) as (e1 & _ & _ & ->).
  destruct (input_ok info _); [| exact H].
  eapply clock_tick; [apply update_visualization_frame |].
  eapply clock_tick; [apply update_recording_duration_frame |].
  destruct H as (Hp & _). split; [exact Hp |]. cbn. split; discriminate.
Qed.

Lemma stop_listening_clock st :
  clock_consistent st -> clock_consistent (stop_listening st).
Proof.
  apply clock_same; unfold stop_listening;
    destruct (audio_stream st);
    match goal with
    | |- context [match audio ?s with Some _ => _ | None => _ end] =>
        destruct (audio s)
    end; reflexivity.
Qed.

Lemma stop_recording_clock st :
  clock_consistent st -> clock_consistent (stop_recording st).
Proof.
  intros (Hp & _). unfold clock_consistent, stop_recording.
  destruct (audio_stream st);
    match goal with
    | |- context [match audio ?s with Some _ => _ | None => _ end] =>
        destruct (audio s)
    end;
    match goal with |- context [if ?b then _ else _] => destruct b end;
    (split; [exact Hp | split; reflexivity]).
Qed.

Lemma handle_event_clock ev st :
  clock_consistent st -> clock_consistent (handle_event ev st).
Proof.
  intros H. destruct ev; cbn [handle_event].
  - exact H.
  - destruct (refresh_audio_devices_frame st)
      as (_ & _ & _ & _ & _ & _ & _ & _ & R & _).
    revert H. apply clock_same; [| | exact R];
      unfold refresh_audio_devices; cbn [pa_new];
      destruct (audio st);
      match goal with
      | |- context [find ?p ?l] => destruct (find p l)
      end;
      match goal with
      | |- context [match device_list ?e with [] => _ | _ :: _ => _ end] =>
          destruct (device_list e)
      end; reflexivity.
  - unfold click_listen, toggle_listening. destruct (audio_listening st).
    + now apply stop_listening_clock.
    + now apply start_listening_clock.
  - unfold click_record, toggle_recording.
    destruct (record_button_enabled st); [| exact H].
    destruct (negb (audio_recording st)).
    + now apply start_recording_clock.
    + now apply stop_recording_clock.
  - unfold click_playback, toggle_playback.
    destruct (playback_button_enabled st); [| exact H].
    destruct (audio_playing st).
    + revert H. apply clock_same; unfold stop_playback;
        destruct (playback_stream (set_audio_playing false st));
        match goal with
        | |- context [match playback_audio ?s with Some _ => _ | None => _ end] =>
            destruct (playback_audio s)
        end; reflexivity.
    + revert H. apply clock_same; unfold start_playback;
        (destruct (Deque.len (audio_buffer st) =? 0); [reflexivity |]);
        cbn [pa_new];
        cbn [env set_playback_audio set_env default_output set_next_instance];
        (destruct (default_output (env st)) as [o |]; [| reflexivity]);
        destruct (pa_open _ _ _ _ _ _ _) as [[h |] e1]; reflexivity.
  - unfold audio_callback. destruct (_ || _); [| exact H].
    cbn [pattern_start_time set_time_pattern_buffer set_audio_data_queue].
    destruct (pattern_start_time st); exact H.
  - unfold dispatch. destruct (nth_error _ i) as [cb |]; [| exact H].
    destruct cb; cbn [run_callback].
    + eapply clock_tick; [apply update_visualization_frame | exact H].
    + eapply clock_tick; [apply update_recording_duration_frame | exact H].
    + exact H.
  - unfold thread_step, thread_exit.
    destruct (thread (env st)) as [| | b i | b i |]; try exact H.
    + destruct (i <? length b); [| exact H].
      destruct (negb (audio_playing st)); exact H.
    + destruct (0 <? length _); [| exact H].
      destruct (playback_stream st) as [h |]; [| exact H].
      unfold pa_write. destruct (is_open h (env st)); exact H.
  - exact H.
  - unfold clear_recording. destruct confirmed; exact H.
Qed.

Lemma run_events_clock evs : forall st,
  clock_consistent st -> clock_consistent (run_events evs st).
Proof.
  induction evs as [| ev evs IH]; intros st H; [exact H |].
  change (run_events (ev :: evs) st) with (run_events evs (handle_event ev st)).
  apply IH. now apply handle_event_clock.
Qed.
End Clock.

(** X22.  In every state the application can reach the pause
    flag is down, and the recording start time is set exactly while the
    recording flag is up.  So a duration tick that runs queues its
    successor exactly when a recording is active, and otherwise just
    goes away. *)
Theorem recording_clock_follows_the_flag devs dout evs :
  let st := run_events evs (__init__ devs dout) in
  audio_paused st = false
  /\ (recording_start_time st = None <-> audio_recording st = false)
  /\ forall i,
       nth_error (after_queue (env st)) i = Some CbUpdateRecordingDuration ->
       after_queue (env (dispatch i st))
       = remove_nth i (after_queue (env st))
         ++ (if audio_recording st then [CbUpdateRecordingDuration] else []).
Proof.
  cbv zeta.
  assert (H : clock_consistent (run_events evs (__init__ devs dout))).
  { apply run_events_clock. split; [reflexivity | split; reflexivity]. }
  destruct H as (Hp & Hc). split; [exact Hp |]. split; [exact Hc |].
  intros i Hi.
  assert (Hcase :
    (audio_recording (run_events evs (__init__ devs dout)) = true
     /\ exists t, recording_start_time (run_events evs (__init__ devs dout)) = Some t)
    \/ (audio_recording (run_events evs (__init__ devs dout)) = false
        /\ recording_start_time (run_events evs (__init__ devs dout)) = None)).
  { destruct (recording_start_time _) as [t |] eqn:Et.
    - left. split; [| now exists t].
      destruct (audio_recording _); [reflexivity |].
      destruct Hc as (_ & Hc). discriminate (Hc eq_refl).
    - right. split; [apply Hc |]; reflexivity. }
  unfold dispatch. rewrite Hi. cbn [run_callback].
  unfold update_recording_duration.
  cbn [recording_start_time audio_recording audio_paused upd_env set_env].
  rewrite Hp. cbn [negb]. rewrite andb_true_r.
  destruct Hcase as [(Er & t & Et) | (Er & Et)]; rewrite Er, Et.
  - reflexivity.
  - cbn. now rewrite app_nil_r.
Qed.

Lemma recording_clock_follows_the_flag_witness :
  after_queue
    (env (dispatch 1 (run_events [EvSelect 0; EvListen; EvRecord 7; EvRecord 8]
                        (__init__ [array_device] (Some 0)))))
  = [CbUpdateVisualization; CbUpdateVisualization].
Proof.
  assert (H : nth_error
                (after_queue (env (run_events [EvSelect 0; EvListen; EvRecord 7; EvRecord 8]
                                     (__init__ [array_device] (Some 0))))) 1
              = Some CbUpdateRecordingDuration) by (vm_compute; reflexivity).
  rewrite (proj2 (proj2 (recording_clock_follows_the_flag [array_device] (Some 0)
                           [EvSelect 0; EvListen; EvRecord 7; EvRecord 8])) 1 H).
  vm_compute. reflexivity.
Defined.

Lemma tick_moves_queue_into_history_witness :
  Deque.items (audio_buffer
    (update_visualization (audio_callback [3; -4; 5]%Z 100 st_listening)))
  = [3; -4; 5]%Z.
Proof.
  assert (H1 : capture_active (audio_callback [3; -4; 5]%Z 100 st_listening) = true)
    by (vm_compute; reflexivity).
  assert (H2 : Deque.wf (audio_buffer (audio_callback [3; -4; 5]%Z 100 st_listening))).
  { unfold Deque.wf. apply Nat.leb_le. vm_compute. reflexivity. }
  destruct (@tick_moves_queue_into_history
              (audio_callback [3; -4; 5]%Z 100 st_listening) H1 H2) as (E & _).
  rewrite E. vm_compute. reflexivity.
Defined.

Lemma frames_reach_both_histories_in_order_witness :
  audio_buffer (update_visualization
                  (feed [([1; 2]%Z, 5%Z); ([3]%Z, 6%Z)] st_listening))
  = Deque.extend (audio_buffer st_listening) [1; 2; 3]%Z
  /\ pattern_start_time (update_visualization
                           (feed [([1; 2]%Z, 5%Z); ([3]%Z, 6%Z)] st_listening))
     = Some 5%Z.
Proof.
  assert (H1 : capture_active st_listening = true) by (vm_compute; reflexivity).
  assert (H2 : audio_data_queue st_listening = []) by (vm_compute; reflexivity).
  destruct (proj2 (@frames_reach_both_histories_in_order
                     [([1; 2]%Z, 5%Z); ([3]%Z, 6%Z)] st_listening) H1 H2)
    as (B & _ & _ & T).
  split; [exact B |]. rewrite T. vm_compute. reflexivity.
Defined.

Lemma save_is_reported_only_on_printed_output_witness :
  fst (Xvf.save_configuration true (Some "xvf_host.exe"%string)
         (Xvf.Completed 0 "  "%string String.EmptyString))
  <> Xvf.InfoConfigurationSaved.
Proof.
  intros H.
  apply (proj1 (save_is_reported_only_on_printed_output true
                  (Some "xvf_host.exe"%string)
                  (Xvf.Completed 0 "  "%string String.EmptyString))) in H.
  destruct H as (_ & _ & so & se & Heq & Hb).
  injection Heq as <- _. vm_compute in Hb. discriminate.
Defined.
